(** * Manual and error workflow execution: a model of [WorkflowExecutionService]

    The service decides, for a manual run requested through the public API,
    which nodes start the run, whether the run has to wait for a webhook
    call, and what is handed to the workflow runner.  A second entry point
    starts the error workflow of a failed workflow.

    The TypeScript class is embedded method by method.  Injected services
    and the JavaScript runtime are a record of oracles ([Deps]); effects are
    threaded through a state-and-exception monad whose state holds the
    workflow entity that the request mutates in place and the sequence of
    calls made to the collaborators. *)

From Stdlib Require Import ZArith Ascii String List Bool Lia.
From stdpp Require Import base option list strings gmap.

Local Open Scope string_scope.
Local Open Scope Z_scope.

(** ** JavaScript strings

    Node type identifiers and node names are ASCII; [toLowerCase] maps the
    letters A-Z and leaves every other character alone. *)

Module Js.

Definition lower_char (c : ascii) : ascii :=
  let n := nat_of_ascii c in
  if ((65 <=? n)%nat && (n <=? 90)%nat)%bool then ascii_of_nat (n + 32) else c.

Fixpoint toLowerCase (s : string) : string :=
  match s with
  | EmptyString => EmptyString
  | String c s' => String (lower_char c) (toLowerCase s')
  end.

(** [s.endsWith(suffix)] *)
Definition endsWith (s suffix : string) : bool :=
  let n := String.length s in
  let m := String.length suffix in
  if (m <=? n)%nat then String.eqb (substring (n - m) m s) suffix else false.

(** [s.includes(part)] *)
Definition includes (s part : string) : bool :=
  match index 0 part s with Some _ => true | None => false end.

(** Truthiness of an optional string: [undefined] and the empty string are
    falsy. *)
Definition truthy (o : option string) : bool :=
  match o with
  | Some s => negb (String.eqb s EmptyString)
  | None => false
  end.

(** Interpolation of an optional string in a template literal. *)
Definition show (o : option string) : string :=
  match o with Some s => s | None => "undefined" end.

(** The properties every ordinary object (an object literal, parsed JSON)
    inherits from [Object.prototype].  Reading one of these names on an
    object that has no entry of its own yields a function (the prototype
    itself for [__proto__]), which is truthy. *)
Definition Object_prototype : list string :=
  [ "constructor"; "__defineGetter__"; "__defineSetter__"; "hasOwnProperty";
    "__lookupGetter__"; "__lookupSetter__"; "isPrototypeOf";
    "propertyIsEnumerable"; "toString"; "valueOf"; "__proto__";
    "toLocaleString" ].

Definition inherited (key : string) : bool :=
  existsb (String.eqb key) Object_prototype.

(** Truthiness of [obj[key]] for an object keyed by name whose own values
    are arrays: an own entry is truthy, and so is an inherited property. *)
Definition truthy_at {V : Type} (obj : gmap string V) (key : string) : bool :=
  bool_decide (is_Some (obj !! key)) || inherited key.

(** A property name is an array index when it is the decimal writing,
    without sign or leading zero, of an integer up to 2^32 - 2. *)
Definition digit (c : ascii) : option N :=
  let n := N_of_ascii c in
  if ((48 <=? n) && (n <=? 57))%N then Some (n - 48)%N else None.

Fixpoint decimal (s : string) (acc : N) : option N :=
  match s with
  | EmptyString => Some acc
  | String c s' =>
      match digit c with
      | Some d => decimal s' (10 * acc + d)%N
      | None => None
      end
  end.

Definition array_index (key : string) : option N :=
  match key with
  | EmptyString => None
  | String c rest =>
      if Ascii.eqb c "0"%char && negb (String.eqb rest EmptyString) then None
      else
        match decimal key 0%N with
        | Some n => if (n <=? 4294967294)%N then Some n else None
        | None => None
        end
  end.

Definition is_array_index (key : string) : bool :=
  match array_index key with Some _ => true | None => false end.

(** Placing an array index among indices in ascending order. *)
Fixpoint insert_index (key : string) (sorted : list string) : list string :=
  match sorted with
  | [] => [key]
  | k :: sorted' =>
      if (default 0 (array_index key) <? default 0 (array_index k))%N
      then key :: sorted
      else k :: insert_index key sorted'
  end.

(** [Object.keys(obj)] for an object given by its own properties in the
    order they were created: the array indices in ascending numeric order,
    then the other names in creation order. *)
Definition keys {V : Type} (obj : list (string * V)) : list string :=
  let names := List.map fst obj in
  foldr insert_index [] (List.filter is_array_index names)
  ++ List.filter (λ k, negb (is_array_index k)) names.

(** [obj[key]] for an own property. *)
Definition get {V : Type} (obj : list (string * V)) (key : string) : option V :=
  snd <$> find (λ kv, String.eqb (fst kv) key) obj.

(** The values met by [for (const key of Object.keys(obj)) ... obj[key]]. *)
Definition values {V : Type} (obj : list (string * V)) : list V :=
  omap (get obj) (keys obj).

End Js.

(** ** [Array.prototype.sort]

    The order [sort] produces for a comparator that is not a consistent
    ordering is left to the engine.  The service runs on Node.js, whose
    engine sorts an array of fewer than 64 elements as one run: the leading
    run is counted (and reversed when it is descending), then each further
    element is placed by a binary search that calls
    [comparefn pivot element].  Longer arrays are cut into several such runs
    which are merged afterwards (see [ArrayTimSort] below). *)

Section ArraySort.
Context {A : Type} (comparefn : A → A → Z).

(** How many elements after the first two continue the leading run. *)
Fixpoint run_extent (descending : bool) (previous : A) (rest : list A) : nat :=
  match rest with
  | [] => 0%nat
  | current :: rest' =>
      let order := comparefn current previous in
      if descending
      then (if order <? 0 then S (run_extent descending current rest') else 0%nat)
      else (if order <? 0 then 0%nat else S (run_extent descending current rest'))
  end.

(** The leading run, made ascending, and the elements after it. *)
Definition CountAndMakeRun (l : list A) : list A * list A :=
  match l with
  | low :: next :: rest =>
      let descending := comparefn next low <? 0 in
      let k := run_extent descending next rest in
      let run := low :: next :: take k rest in
      (if descending then rev run else run, drop k rest)
  | _ => (l, [])
  end.

(** Binary search for the place of [pivot] in [sorted[left, right)].
    Every step shrinks [right - left], so [right - left] units of fuel
    are enough. *)
Fixpoint insertion_point (fuel : nat) (sorted : list A) (pivot : A)
    (left right : nat) : nat :=
  match fuel with
  | O => left
  | S fuel' =>
      if (left <? right)%nat then
        let mid := (left + (right - left) / 2)%nat in
        match sorted !! mid with
        | Some x =>
            if comparefn pivot x <? 0
            then insertion_point fuel' sorted pivot left mid
            else insertion_point fuel' sorted pivot (S mid) right
        | None => left
        end
      else left
  end.

Definition insert_pivot (sorted : list A) (pivot : A) : list A :=
  let n := length sorted in
  let pos := insertion_point n sorted pivot 0 n in
  take pos sorted ++ pivot :: drop pos sorted.

Definition BinaryInsertionSort (run rest : list A) : list A :=
  fold_left insert_pivot rest run.

Definition short_array_sort (l : list A) : list A :=
  let '(run, rest) := CountAndMakeRun l in BinaryInsertionSort run rest.
End ArraySort.

(** *** Arrays of any length

    The whole of the engine's sort.  The array is cut into runs of at least
    [ComputeMinRunLength] elements, each counted by [CountAndMakeRun] and
    filled up by [BinaryInsertionSort].  The runs wait on a stack;
    neighbouring runs are merged ([MergeAt]) when the lengths on the stack
    ask for it ([MergeCollapse]) and once all runs are found
    ([MergeForceCollapse]).  A merge skips what is already in place
    ([GallopRight], [GallopLeft]), then moves the elements one by one and
    changes to galloping when one of the two runs has won [minGallop] times
    in a row.  The engine merges in place with a copy of the shorter run;
    here the runs are lists and a merge builds a list.  Which elements are
    compared, in which order and with which argument first is as in the
    engine.  Every loop takes fuel, one unit per round. *)

Section ArrayTimSort.
Context {A : Type} (comparefn : A → A → Z).

Local Open Scope nat_scope.
Local Open Scope list_scope.

(** The shortest run the sort works with: the length itself below 64,
    else the length shifted right down below 64, plus one when a set bit
    was shifted out. *)
Fixpoint min_run_length (fuel n r : nat) : nat :=
  match fuel with
  | O => n + r
  | S fuel' =>
      if 64 <=? n
      then min_run_length fuel' (Nat.shiftr n 1) (Nat.lor r (Nat.land n 1))
      else n + r
  end.

Definition ComputeMinRunLength (n : nat) : nat := min_run_length n n 0.

(** The first part of a gallop: [offset] goes 1, 3, 7, ... until it leaves
    the range or the element it points at stops the search; [lastOfs] is
    the offset before. *)
Fixpoint gallop (fuel : nat) (stops : nat → bool) (maxOfs lastOfs offset : nat)
    : nat * nat :=
  match fuel with
  | O => (lastOfs, offset)
  | S fuel' =>
      if offset <? maxOfs then
        if stops offset then (lastOfs, offset)
        else gallop fuel' stops maxOfs offset (2 * offset + 1)
      else (lastOfs, offset)
  end.

(** The second part: a binary search between [lastOfs] and [offset]. *)
Fixpoint gallop_search (fuel : nat) (right_of : nat → bool) (lastOfs offset : nat)
    : nat :=
  match fuel with
  | O => offset
  | S fuel' =>
      if lastOfs <? offset then
        let m := lastOfs + (offset - lastOfs) / 2 in
        if right_of m
        then gallop_search fuel' right_of (S m) offset
        else gallop_search fuel' right_of lastOfs m
      else offset
  end.

(** [GallopLeft]: the leftmost place for [key] in a sorted [array], looked
    for from position [hint].  [below i] stands for [array[i] < key], the
    one comparison the search makes.  [lastOfs] is kept one higher than in
    the engine once the offsets are counted from the start of the array
    again, so that it stays a natural number. *)
Definition GallopLeft_search (below : nat → bool) (length hint : nat) : nat :=
  let '(lastOfs, offset) :=
    if below hint then
      (* array[hint] < key: gallop right until array[hint + offset] >= key *)
      let maxOfs := length - hint in
      let '(lastOfs, offset) :=
        gallop maxOfs (λ ofs, negb (below (hint + ofs))) maxOfs 0 1 in
      (lastOfs + hint + 1, Nat.min offset maxOfs + hint)
    else
      (* key <= array[hint]: gallop left until array[hint - offset] < key *)
      let maxOfs := hint + 1 in
      let '(lastOfs, offset) :=
        gallop maxOfs (λ ofs, below (hint - ofs)) maxOfs 0 1 in
      (hint + 1 - Nat.min offset maxOfs, hint - lastOfs) in
  gallop_search (offset - lastOfs) below lastOfs offset.

Definition GallopLeft (array : list A) (key : A) (hint : nat) : nat :=
  GallopLeft_search
    (λ i, match array !! i with
          | Some x => (comparefn x key <? 0)%Z
          | None => false
          end)
    (length array) hint.

(** [GallopRight]: the rightmost place for [key].  [above i] stands for
    [key < array[i]]. *)
Definition GallopRight_search (above : nat → bool) (length hint : nat) : nat :=
  let '(lastOfs, offset) :=
    if above hint then
      (* key < array[hint]: gallop left until array[hint - offset] <= key *)
      let maxOfs := hint + 1 in
      let '(lastOfs, offset) :=
        gallop maxOfs (λ ofs, negb (above (hint - ofs))) maxOfs 0 1 in
      (hint + 1 - Nat.min offset maxOfs, hint - lastOfs)
    else
      (* array[hint] <= key: gallop right until key < array[hint + offset] *)
      let maxOfs := length - hint in
      let '(lastOfs, offset) :=
        gallop maxOfs (λ ofs, above (hint + ofs)) maxOfs 0 1 in
      (lastOfs + hint + 1, Nat.min offset maxOfs + hint) in
  gallop_search (offset - lastOfs) (λ m, negb (above m)) lastOfs offset.

Definition GallopRight (array : list A) (key : A) (hint : nat) : nat :=
  GallopRight_search
    (λ i, match array !! i with
          | Some x => (comparefn key x <? 0)%Z
          | None => false
          end)
    (length array) hint.

Definition kMinGallopWins : nat := 7.

(** [MergeLow] merges forwards and is used when the first run is not the
    longer one.  [out] is what is already merged, [tempA] what is left of
    the first run, [runB] what is left of the second.  The result comes
    with the value of [minGallop] the merge leaves behind. *)
Fixpoint MergeLow_linear (fuel minGallop nofWinsA nofWinsB : nat)
    (out tempA runB : list A) {struct fuel} : list A * nat :=
  match fuel with
  | O => (out ++ tempA ++ runB, minGallop)
  | S fuel' =>
      match tempA, runB with
      | a :: tempA', b :: runB' =>
          if (comparefn b a <? 0)%Z then
            let out := out ++ [b] in
            let nofWinsB := S nofWinsB in
            match runB' with
            | [] => (out ++ tempA, minGallop)
            | _ :: _ =>
                if minGallop <=? nofWinsB
                then MergeLow_gallop fuel' (S minGallop) out tempA runB'
                else MergeLow_linear fuel' minGallop 0 nofWinsB out tempA runB'
            end
          else
            let out := out ++ [a] in
            let nofWinsA := S nofWinsA in
            match tempA' with
            | [_] => (out ++ runB ++ tempA', minGallop)
            | _ =>
                if minGallop <=? nofWinsA
                then MergeLow_gallop fuel' (S minGallop) out tempA' runB
                else MergeLow_linear fuel' minGallop nofWinsA 0 out tempA' runB
            end
      | _, _ => (out ++ tempA ++ runB, minGallop)
      end
  end
with MergeLow_gallop (fuel minGallop : nat) (out tempA runB : list A)
    {struct fuel} : list A * nat :=
  match fuel with
  | O => (out ++ tempA ++ runB, minGallop)
  | S fuel' =>
      let minGallop := Nat.max 1 (minGallop - 1) in
      match runB with
      | [] => (out ++ tempA, minGallop)
      | b :: runB' =>
          let nofWinsA := GallopRight tempA b 0 in
          let out := out ++ take nofWinsA tempA in
          let tempA := drop nofWinsA tempA in
          if (0 <? nofWinsA) && (length tempA =? 1) then
            (out ++ runB ++ tempA, minGallop)
          else if (0 <? nofWinsA) && (length tempA =? 0) then
            (out ++ runB, minGallop)
          else
            let out := out ++ [b] in
            match runB', tempA with
            | [], _ => (out ++ tempA, minGallop)
            | _, [] => (out ++ runB', minGallop)
            | _ :: _, a :: tempA' =>
                let nofWinsB := GallopLeft runB' a 0 in
                let out := out ++ take nofWinsB runB' in
                let runB := drop nofWinsB runB' in
                if (0 <? nofWinsB) && (length runB =? 0) then
                  (out ++ tempA, minGallop)
                else
                  let out := out ++ [a] in
                  if length tempA' =? 1 then
                    (out ++ runB ++ tempA', minGallop)
                  else if (kMinGallopWins <=? nofWinsA)
                          || (kMinGallopWins <=? nofWinsB)
                  then MergeLow_gallop fuel' minGallop out tempA' runB
                  else MergeLow_linear fuel' (S minGallop) 0 0 out tempA' runB
            end
      end
  end.

Definition MergeLow (minGallop : nat) (runA runB : list A) : list A * nat :=
  match runB with
  | [] => (runA, minGallop)
  | b :: runB' =>
      match runB', runA with
      | [], _ => (b :: runA, minGallop)
      | _, [_] => (b :: runB' ++ runA, minGallop)
      | _, _ =>
          MergeLow_linear (length runA + length runB) minGallop 0 0 [b] runA runB'
      end
  end.

(** MergeHigh works backwards: [revA] and [tempB] are held last element
    first, and [out] is the tail of the result already in place. *)
Fixpoint MergeHigh_linear (fuel minGallop nofWinsA nofWinsB : nat)
    (revA tempB out : list A) {struct fuel} : list A * nat :=
  match fuel with
  | O => (rev revA ++ rev tempB ++ out, minGallop)
  | S fuel' =>
      match revA, tempB with
      | a :: revA', b :: tempB' =>
          if (comparefn b a <? 0)%Z then
            let out := a :: out in
            let nofWinsA := S nofWinsA in
            match revA' with
            | [] => (rev tempB ++ out, minGallop)
            | _ :: _ =>
                if minGallop <=? nofWinsA
                then MergeHigh_gallop fuel' (S minGallop) revA' tempB out
                else MergeHigh_linear fuel' minGallop nofWinsA 0 revA' tempB out
            end
          else
            let out := b :: out in
            let nofWinsB := S nofWinsB in
            match tempB' with
            | [_] => (rev tempB' ++ rev revA ++ out, minGallop)
            | _ =>
                if minGallop <=? nofWinsB
                then MergeHigh_gallop fuel' (S minGallop) revA tempB' out
                else MergeHigh_linear fuel' minGallop 0 nofWinsB revA tempB' out
            end
      | _, _ => (rev revA ++ rev tempB ++ out, minGallop)
      end
  end
with MergeHigh_gallop (fuel minGallop : nat) (revA tempB out : list A)
    {struct fuel} : list A * nat :=
  match fuel with
  | O => (rev revA ++ rev tempB ++ out, minGallop)
  | S fuel' =>
      let minGallop := Nat.max 1 (minGallop - 1) in
      match tempB with
      | [] => (rev revA ++ out, minGallop)
      | b :: tempB' =>
          let runA := rev revA in
          let k := GallopRight runA b (length runA - 1) in
          let nofWinsA := length runA - k in
          let out := drop k runA ++ out in
          let runA := take k runA in
          if (0 <? nofWinsA) && (length runA =? 0) then
            (rev tempB ++ out, minGallop)
          else
            let out := b :: out in
            if length tempB' =? 1 then
              (rev tempB' ++ runA ++ out, minGallop)
            else
              match rev runA with
              | [] => (rev tempB' ++ out, minGallop)
              | a :: revA' =>
                  let runB := rev tempB' in
                  let k := GallopLeft runB a (length runB - 1) in
                  let nofWinsB := length runB - k in
                  let out := drop k runB ++ out in
                  let runB := take k runB in
                  if (0 <? nofWinsB) && (length runB =? 1) then
                    (runB ++ runA ++ out, minGallop)
                  else if (0 <? nofWinsB) && (length runB =? 0) then
                    (runA ++ out, minGallop)
                  else
                    let out := a :: out in
                    match revA' with
                    | [] => (runB ++ out, minGallop)
                    | _ :: _ =>
                        if (kMinGallopWins <=? nofWinsA)
                           || (kMinGallopWins <=? nofWinsB)
                        then MergeHigh_gallop fuel' minGallop revA' (rev runB) out
                        else MergeHigh_linear fuel' (S minGallop) 0 0 revA'
                               (rev runB) out
                    end
              end
      end
  end.

Definition MergeHigh (minGallop : nat) (runA runB : list A) : list A * nat :=
  match rev runA with
  | [] => (runB, minGallop)
  | a :: revA' =>
      match revA', runB with
      | [], _ => (runB ++ [a], minGallop)
      | _, [_] => (runB ++ runA, minGallop)
      | _, _ =>
          MergeHigh_linear (length runA + length runB) minGallop 0 0 revA'
            (rev runB) [a]
      end
  end.

(** [MergeAt] for two neighbouring runs: the elements of [runA] that come
    before the first of [runB], and those of [runB] that come after the
    last of [runA], stay where they are; the rest is merged. *)
Definition MergeAt (minGallop : nat) (runA runB : list A) : list A * nat :=
  match runB with
  | [] => (runA, minGallop)
  | keyRight :: _ =>
      let k := GallopRight runA keyRight 0 in
      let restA := drop k runA in
      match rev restA with
      | [] => (runA ++ runB, minGallop)
      | keyLeft :: _ =>
          let lengthB := GallopLeft runB keyLeft (length runB - 1) in
          let restB := take lengthB runB in
          match restB with
          | [] => (runA ++ runB, minGallop)
          | _ :: _ =>
              let '(merged, minGallop) :=
                if length restA <=? length restB
                then MergeLow minGallop restA restB
                else MergeHigh minGallop restA restB in
              (take k runA ++ merged ++ drop lengthB runB, minGallop)
          end
      end
  end.

(** The stack of pending runs, the run found last at its head.  Runs are
    merged until every run is longer than the two above it together and
    longer than the one above it. *)
Fixpoint MergeCollapse (fuel minGallop : nat) (pendingRuns : list (list A))
    : list (list A) * nat :=
  match fuel with
  | O => (pendingRuns, minGallop)
  | S fuel' =>
      match pendingRuns with
      | runN1 :: runN :: below =>
          let unsettled :=
            match below with
            | runNM :: below' =>
                (length runNM <=? length runN + length runN1)
                || match below' with
                   | runNMM :: _ => length runNMM <=? length runNM + length runN
                   | [] => false
                   end
            | [] => false
            end in
          match below with
          | runNM :: below' =>
              if unsettled then
                if length runNM <? length runN1 then
                  let '(merged, minGallop) := MergeAt minGallop runNM runN in
                  MergeCollapse fuel' minGallop (runN1 :: merged :: below')
                else
                  let '(merged, minGallop) := MergeAt minGallop runN runN1 in
                  MergeCollapse fuel' minGallop (merged :: below)
              else if length runN <=? length runN1 then
                let '(merged, minGallop) := MergeAt minGallop runN runN1 in
                MergeCollapse fuel' minGallop (merged :: below)
              else (pendingRuns, minGallop)
          | [] =>
              if length runN <=? length runN1 then
                let '(merged, minGallop) := MergeAt minGallop runN runN1 in
                MergeCollapse fuel' minGallop (merged :: below)
              else (pendingRuns, minGallop)
          end
      | _ => (pendingRuns, minGallop)
      end
  end.

(** All pending runs merged into one. *)
Fixpoint MergeForceCollapse (fuel minGallop : nat) (pendingRuns : list (list A))
    : list (list A) * nat :=
  match fuel with
  | O => (pendingRuns, minGallop)
  | S fuel' =>
      match pendingRuns with
      | runN1 :: runN :: below =>
          match below with
          | runNM :: below' =>
              if length runNM <? length runN1 then
                let '(merged, minGallop) := MergeAt minGallop runNM runN in
                MergeForceCollapse fuel' minGallop (runN1 :: merged :: below')
              else
                let '(merged, minGallop) := MergeAt minGallop runN runN1 in
                MergeForceCollapse fuel' minGallop (merged :: below)
          | [] =>
              let '(merged, minGallop) := MergeAt minGallop runN runN1 in
              MergeForceCollapse fuel' minGallop (merged :: below)
          end
      | _ => (pendingRuns, minGallop)
      end
  end.

(** The main loop: the next run is counted, filled up to [minRunLength]
    when it is shorter, put on the stack, and the stack is collapsed. *)
Fixpoint ArrayTimSort_runs (fuel minRunLength minGallop : nat)
    (pendingRuns : list (list A)) (remaining : list A)
    : list (list A) * nat :=
  match fuel with
  | O => (pendingRuns, minGallop)
  | S fuel' =>
      match remaining with
      | [] => (pendingRuns, minGallop)
      | _ :: _ =>
          let '(run, rest) := CountAndMakeRun comparefn remaining in
          let currentRunLength := length run in
          let '(run, rest) :=
            if currentRunLength <? minRunLength then
              let forcedRunLength := Nat.min minRunLength (length remaining) in
              let extra := forcedRunLength - currentRunLength in
              (BinaryInsertionSort comparefn run (take extra rest), drop extra rest)
            else (run, rest) in
          let '(pendingRuns, minGallop) :=
            MergeCollapse (S (length pendingRuns)) minGallop (run :: pendingRuns) in
          ArrayTimSort_runs fuel' minRunLength minGallop pendingRuns rest
      end
  end.

(** The sort; [minGallop] starts at [kMinGallopWins]. *)
Definition ArrayTimSort (l : list A) : list A :=
  if length l <? 2 then l
  else
    let minRunLength := ComputeMinRunLength (length l) in
    let '(pendingRuns, minGallop) :=
      ArrayTimSort_runs (length l) minRunLength kMinGallopWins [] l in
    let '(pendingRuns, _) :=
      MergeForceCollapse (length pendingRuns) minGallop pendingRuns in
    concat (rev pendingRuns).

End ArrayTimSort.

(** A comparator that reads its first argument only, and the shape of list
    it leads to: the elements answering [true] before all the others. *)
Definition oneSided {A : Type} (front : A → bool) (a _b : A) : Z :=
  if front a then -1 else 1.

Definition frontFirst {A : Type} (front : A → bool) (l : list A) : Prop :=
  ∃ fs bs, l = (fs ++ bs)%list
           ∧ Forall (λ x, front x = true) fs
           ∧ Forall (λ x, front x = false) bs.

(** ** Data model *)

(** JSON values carried as node output. *)
#[local] Set Warnings "-register-all".
Inductive Json : Type :=
  | JNull
  | JBool (b : bool)
  | JNumber (n : Z)
  | JString (s : string)
  | JArray (items : list Json)
  | JObject (fields : list (string * Json)).

Definition IDataObject : Type := list (string * Json).

Record INodeExecutionData := { json : IDataObject }.

(** Pin data and run data are objects keyed by node name. *)
Abbreviation IPinData := (gmap string (list INodeExecutionData)).
Abbreviation IRunData := (gmap string (list Json)).
Abbreviation IConnections := (gmap string (list string)).

(** A node: only the fields the service reads.  [typeVersion] is a number
    that is passed on to the node type registry and nothing else. *)
Record INode := {
  name : string;
  type : string;
  typeVersion : Z;
  disabled : bool
}.

(** A stored workflow.  [connections] is reduced to the downstream node
    names of each node; static data and settings are never read by the
    service and are left out. *)
Record IWorkflowBase := {
  wf_id : string;
  wf_name : string;
  active : bool;
  nodes : list INode;
  connections : IConnections;
  pinData : option IPinData
}.

Definition set_pinData (w : IWorkflowBase) (p : option IPinData) : IWorkflowBase :=
  {| wf_id := wf_id w; wf_name := wf_name w; active := active w;
     nodes := nodes w; connections := connections w; pinData := p |}.

Definition set_active (w : IWorkflowBase) (b : bool) : IWorkflowBase :=
  {| wf_id := wf_id w; wf_name := wf_name w; active := b;
     nodes := nodes w; connections := connections w; pinData := pinData w |}.

(** The graph object built by [new Workflow({...})]. *)
Record Workflow := {
  w_id : option string;
  w_name : option string;
  w_nodes : list INode;
  w_connections : IConnections;
  w_active : bool
}.

(** Modelled from the spec: the node index [Workflow.nodes] that the
    constructor of the graph engine sets up, which is not part of the
    sources at hand.  It is an object holding every node under its name
    (names are unique within a workflow), filled in the order of the nodes
    array; a node entered under a name already present takes the place of
    the earlier one. *)
Definition index_node (index : list (string * INode)) (node : INode)
    : list (string * INode) :=
  if existsb (λ kv, String.eqb (fst kv) (name node)) index
  then List.map (λ kv, if String.eqb (fst kv) (name node)
                       then (name node, node) else kv) index
  else index ++ [(name node, node)].

Definition Workflow_nodes (w : Workflow) : list (string * INode) :=
  fold_left index_node (w_nodes w) [].

(** Modelled from the spec: [Workflow.getNode] of the graph engine, which is
    not part of the sources at hand.  It resolves a node by name and answers
    [null] when the workflow has no node of that name. *)
Definition getNode (w : Workflow) (nodeName : string) : option INode :=
  find (λ n, String.eqb (name n) nodeName) (w_nodes w).

(** Entries of [startNodes] and the [triggerToStartFrom] reference. *)
Record StartNodeData := { start_name : string; sourceData : option Json }.
Record TriggerRef := { trigger_name : string; trigger_data : option Json }.

Record User := { user_id : string }.
Record Project := { project_id : string }.

(** [WorkflowRequest.ManualRunPayload].  Its [workflowData] is an object
    held by reference: it is the [entity] of the world (see below), not a
    field of this record. *)
Record ManualRunPayload := {
  p_runData : option IRunData;
  p_startNodes : option (list StartNodeData);
  p_destinationNode : option string;
  p_dirtyNodeNames : option (list string);
  p_triggerToStartFrom : option TriggerRef;
  p_agentRequest : option Json
}.

(** The failure report given to an error workflow. *)
Record ErrorExecution := {
  ee_id : option string;
  ee_lastNodeExecuted : option string;
  ee_message : string
}.
Record ErrorWorkflowRef := { ew_id : option string; ew_name : string }.
Record IWorkflowErrorData := {
  execution : option ErrorExecution;
  workflow : ErrorWorkflowRef
}.

Record ParentExecution := { pe_executionId : string; pe_workflowId : string }.

(** An entry of the node execution stack: the node, the item
    [{json: workflowErrorData}] on its main input, and the optional
    [metadata.parentExecution]. *)
Record IExecuteData := {
  ed_node : INode;
  ed_json : IWorkflowErrorData;
  ed_parentExecution : option ParentExecution
}.

Record ManualData := {
  md_userId : string;
  md_dirtyNodeNames : option (list string);
  md_triggerToStartFrom : option TriggerRef
}.

Record IRunExecutionData := {
  startData_startNodes : option (list StartNodeData);
  startData_destinationNode : option string;
  resultData_pinData : option IPinData;
  resultData_runData : option IRunData;
  nodeExecutionStack : option (list IExecuteData);
  manualData : option ManualData
}.

Record IWorkflowExecutionDataProcess := {
  d_destinationNode : option string;
  d_executionMode : string;
  d_runData : option IRunData;
  d_pinData : option IPinData;
  d_pushRef : option string;
  d_startNodes : option (list StartNodeData);
  d_workflowData : IWorkflowBase;
  d_userId : option string;
  d_dirtyNodeNames : option (list string);
  d_triggerToStartFrom : option TriggerRef;
  d_agentRequest : option Json;
  d_streamingEnabled : option bool;
  d_executionData : option IRunExecutionData;
  d_projectId : option string
}.

(** What [executionRepository.findSingleExecution] yields, reduced to
    [data?.resultData?.runData]. *)
Record IExecutionResponse := { ex_runData : option IRunData }.

(** Result of [generateFailedExecutionFromError]. *)
Record IRun := { run_data : IRunExecutionData; run_mode : string; run_status : string }.

Record CreateExecutionPayload := {
  ce_data : IRunExecutionData;
  ce_mode : string;
  ce_finished : bool;
  ce_stoppedAt : option Z;
  ce_workflowData : IWorkflowBase;
  ce_waitTill : option Z;
  ce_status : string;
  ce_workflowId : string
}.

(** Arguments of [testWebhooks.needsWebhook]. *)
Record WebhookQuery := {
  q_userId : string;
  q_workflowEntity : IWorkflowBase;
  q_runData : option IRunData;
  q_pushRef : option string;
  q_destinationNode : option string;
  q_triggerToStartFrom : option TriggerRef
}.

(** ** Exceptions and effects *)

Inductive ErrorClass :=
  | NotFoundError
  | BadRequestError
  | SubworkflowOperationError
  | TypeError
  | OtherError.

(** An [Error] object: a class and a message. *)
Record JsError := { error_class : ErrorClass; message : string }.

(** What a [throw] or a rejected promise carries is not typed.  It is an
    [Error] object as a rule, but it may be [undefined], [null] or any
    other value; of the latter only the [message] property matters here,
    given as it prints when the value has one. *)
Inductive JsValue :=
  | ErrorObject (e : JsError)
  | Undefined
  | Null
  | Plain (message_property : option string).

Coercion ErrorObject : JsError >-> JsValue.

Inductive Outcome (A : Type) : Type :=
  | Returned (a : A)
  | Thrown (e : JsValue).
Arguments Returned {A} a.
Arguments Thrown {A} e.

Inductive LogLevel := Debug | Info | Error.

(** Calls made to the collaborators, in the order they happen.  Logging
    and error reporting are recorded and do not throw.  The workflow store
    is read once, at the start of a request; that read is not recorded. *)
Inductive Event :=
  | Log (level : LogLevel) (text : string)
  | ReportError (e : JsValue)
  | FindSingleExecution (executionId : string)
  | GetBase (userId workflowId : string)
  | NeedsWebhook (q : WebhookQuery)
  | Run (data : IWorkflowExecutionDataProcess)
  | PolicyCheck (w : Workflow) (parentWorkflowId : option string) (node : option INode)
  | CreateNewExecution (p : CreateExecutionPayload).

(** The injected services, the configuration and the runtime.  A service
    call answers with a value or throws.  [array_sort] is the engine's
    [Array.prototype.sort]; [getParentNodes] and [getStartNode] belong to
    the graph engine; [now] is the clock read by [new Date()]. *)
Record Deps := {
  array_sort : (INode → INode → Z) → list INode → list INode;
  getParentNodes : Workflow → string → list string;
  getStartNode : Workflow → option INode;
  nodeTypes_group : string → Z → list string;
  workflowRepository_findOneBy : string → Outcome (option IWorkflowBase);
  executionRepository_findSingleExecution : string → Outcome (option IExecutionResponse);
  executionRepository_createNewExecution : CreateExecutionPayload → Outcome string;
  getBase : string → string → Outcome unit;
  testWebhooks_needsWebhook : WebhookQuery → Outcome bool;
  workflowRunner_run : IWorkflowExecutionDataProcess → Outcome string;
  subworkflowPolicyChecker_check :
    Workflow → option string → option INode → Outcome unit;
  generateFailedExecutionFromError : string → JsError → INode → IRun;
  executions_mode : string;
  OFFLOAD_MANUAL_EXECUTIONS_TO_WORKERS : option string;
  errorTriggerType : string;
  now : Z
}.

(** The service as it is run, on Node.js: the engine's sort is
    [ArrayTimSort]. *)
Definition onNode (d : Deps) : Deps :=
  {| array_sort := λ comparefn l, ArrayTimSort comparefn l;
     getParentNodes := getParentNodes d;
     getStartNode := getStartNode d;
     nodeTypes_group := nodeTypes_group d;
     workflowRepository_findOneBy := workflowRepository_findOneBy d;
     executionRepository_findSingleExecution :=
       executionRepository_findSingleExecution d;
     executionRepository_createNewExecution :=
       executionRepository_createNewExecution d;
     getBase := getBase d;
     testWebhooks_needsWebhook := testWebhooks_needsWebhook d;
     workflowRunner_run := workflowRunner_run d;
     subworkflowPolicyChecker_check := subworkflowPolicyChecker_check d;
     generateFailedExecutionFromError := generateFailedExecutionFromError d;
     executions_mode := executions_mode d;
     OFFLOAD_MANUAL_EXECUTIONS_TO_WORKERS := OFFLOAD_MANUAL_EXECUTIONS_TO_WORKERS d;
     errorTriggerType := errorTriggerType d;
     now := now d |}.

(** The state a request runs in: the workflow object it holds by reference
    and the calls made so far. *)
Record World := { entity : IWorkflowBase; trace : list Event }.

Definition M (A : Type) : Type := World → Outcome A * World.

#[global] Instance M_ret : MRet M := λ A a w, (Returned a, w).
#[global] Instance M_bind : MBind M := λ A B f m w,
  match m w with
  | (Returned a, w') => f a w'
  | (Thrown e, w') => (Thrown e, w')
  end.

Definition throw {A} (e : JsError) : M A := λ w, (Thrown e, w).

Definition try_catch {A} (body : M A) (handler : JsValue → M A) : M A := λ w,
  match body w with
  | (Returned a, w') => (Returned a, w')
  | (Thrown e, w') => handler e w'
  end.

Definition emit (e : Event) : M unit := λ w,
  (Returned tt, {| entity := entity w; trace := trace w ++ [e] |}).

Definition call {A} (e : Event) (answer : Outcome A) : M A := λ w,
  (answer, {| entity := entity w; trace := trace w ++ [e] |}).

Definition get_entity : M IWorkflowBase := λ w, (Returned (entity w), w).

Definition set_entity (wf : IWorkflowBase) : M unit := λ w,
  (Returned tt, {| entity := wf; trace := trace w |}).

Definition new_error (c : ErrorClass) (msg : string) : JsError :=
  {| error_class := c; message := msg |}.


(** [error.message] on a caught value.  Reading a property of [undefined]
    or of [null] throws a [TypeError]. *)
Definition read_message (error : JsValue) : Outcome (option string) :=
  match error with
  | ErrorObject e => Returned (Some (message e))
  | Plain message_property => Returned message_property
  | Undefined =>
      Thrown (new_error TypeError
                "Cannot read properties of undefined (reading 'message')")
  | Null =>
      Thrown (new_error TypeError
                "Cannot read properties of null (reading 'message')")
  end.

Definition isNone {A} (o : option A) : bool :=
  match o with None => true | Some _ => false end.

Definition liftO {A} (answer : Outcome A) : M A := λ w, (answer, w).

Definition quote : string := String (ascii_of_nat 34) EmptyString.

(** ** The service *)

Record TriggerData := { triggerName : string; payload : IDataObject }.

Record ExecuteOptions := {
  o_destinationNode : option string;
  o_executionId : option string;
  o_dirtyNodes : option (list string);
  o_triggerData : option TriggerData
}.

(** What [executeManually] resolves to: [{ waitingForWebhook: true }] or
    [{ executionId }]. *)
Record ManualResult := {
  waitingForWebhook : option bool;
  executionId : option string
}.

(** What [executeWorkflow] resolves to.  The declared type has
    [executionId: string]; the value read from the manual result may be
    [undefined] at run time, hence the option. *)
Record ExecuteResult := {
  res_executionId : option string;
  res_status : option string
}.

Definition new_Workflow (id nm : option string) (w : IWorkflowBase) : Workflow :=
  {| w_id := id; w_name := nm; w_nodes := nodes w;
     w_connections := connections w; w_active := active w |}.

(** The filter of the payload builder: not disabled, type ending in trigger
    or webhook whatever the case, and not the respond-to-webhook node. *)
Definition isActivator (node : INode) : bool :=
  negb (disabled node)
  && existsb (λ suffix, Js.endsWith (Js.toLowerCase (type node)) suffix)
       ["trigger"; "webhook"]
  && negb (String.eqb (type node) "n8n-nodes-base.respondToWebhook").

(** [pinData?.[node.name]] is truthy when the node has an entry, and also
    when its name is that of a property every object inherits. *)
Definition hasPin (pinData : option IPinData) (node : INode) : bool :=
  match pinData with
  | Some pd => Js.truthy_at pd (name node)
  | None => false
  end.

(** The filter of [findAllPinnedActivators]: the same with pin data. *)
Definition isPinnedActivator (pinData : option IPinData) (node : INode) : bool :=
  negb (disabled node)
  && hasPin pinData node
  && existsb (λ suffix, Js.endsWith (Js.toLowerCase (type node)) suffix)
       ["trigger"; "webhook"]
  && negb (String.eqb (type node) "n8n-nodes-base.respondToWebhook").

(** The comparator of [findAllPinnedActivators]; it looks at its first
    argument only. *)
Definition endsInWebhook (a : INode) : bool := Js.endsWith (type a) "webhook".

Definition webhookFirst (a _b : INode) : Z :=
  if endsInWebhook a then -1 else 1.

(** [workflowErrorData.execution?.lastNodeExecuted] resolved in the error
    workflow, [undefined] when it is missing or empty. *)
Definition lastNodeExecuted (workflowInstance : Workflow)
    (workflowErrorData : IWorkflowErrorData) : option INode :=
  match execution workflowErrorData with
  | Some ex =>
      match ee_lastNodeExecuted ex with
      | Some nodeName =>
          if Js.truthy (ee_lastNodeExecuted ex)
          then getNode workflowInstance nodeName
          else None
      | None => None
      end
  | None => None
  end.

Section Service.
Variable deps : Deps.

Definition findAllPinnedActivators (workflow : IWorkflowBase)
    (pinData : option IPinData) : list INode :=
  array_sort deps webhookFirst
    (List.filter (isPinnedActivator pinData) (nodes workflow)).

Definition selectPinnedActivatorStarter (workflow : IWorkflowBase)
    (startNodes : option (list string)) (pinData : option IPinData)
    (destinationNode : option string) : option INode :=
  match pinData, startNodes with
  | Some pd, Some startNodes =>
      let allPinnedActivators := findAllPinnedActivators workflow (Some pd) in
      match allPinnedActivators with
      | [] => None
      | firstPinnedActivator :: _ =>
          match startNodes with
          | [] =>
              (* full manual execution *)
              let found :=
                match destinationNode with
                | Some dest =>
                    if Js.truthy destinationNode then
                      let destinationParents : gset string :=
                        list_to_set
                          (getParentNodes deps (new_Workflow None None workflow) dest) in
                      find (λ a, bool_decide (name a ∈ destinationParents))
                        allPinnedActivators
                    else None
                | None => None
                end in
              match found with
              | Some activator => Some activator
              | None => Some firstPinnedActivator
              end
          | firstStartNodeName :: _ =>
              (* partial manual execution *)
              let parentNodeNames :=
                getParentNodes deps (new_Workflow None None workflow)
                  firstStartNodeName in
              match parentNodeNames with
              | _ :: _ =>
                  match find (λ p, String.eqb p (name firstPinnedActivator))
                          parentNodeNames with
                  | Some parentNodeName =>
                      find (λ pa, String.eqb (name pa) parentNodeName)
                        allPinnedActivators
                  | None => None
                  end
              | [] =>
                  find (λ pa, String.eqb (name pa) firstStartNodeName)
                    allPinnedActivators
              end
          end
      end
  | _, _ => None
  end.

(** [nodeTypes.getByNameAndVersion(type, version).description.group]
    includes the trigger group. *)
Definition inTriggerGroup (node : INode) : bool :=
  existsb (String.eqb "trigger")
    (nodeTypes_group deps (type node) (typeVersion node)).

Definition isDestinationNodeATrigger (destinationNode : string)
    (workflow : IWorkflowBase) : bool :=
  match find (λ n, String.eqb (name n) destinationNode) (nodes workflow) with
  | None => false
  | Some node => inTriggerGroup node
  end.

Definition executeManually (p : ManualRunPayload) (user : User)
    (pushRef : option string) (streamingEnabled : option bool) : M ManualResult :=
  workflowData ← get_entity;
  let destinationNode := p_destinationNode p in
  let startNodes := p_startNodes p in
  let triggerToStartFrom := p_triggerToStartFrom p in
  let pinData := pinData workflowData in
  let pinnedTrigger :=
    selectPinnedActivatorStarter workflowData
      (fmap (M := option) (List.map start_name) startNodes) pinData destinationNode in
  (* a trigger as destination is no partial execution: ignore the run data *)
  let runData :=
    match destinationNode with
    | Some dest =>
        if Js.truthy destinationNode
           && isDestinationNodeATrigger dest workflowData
        then None else p_runData p
    | None => p_runData p
    end in
  (* a trigger to start from other than the pinned one wins *)
  let pinnedTrigger :=
    match pinnedTrigger, triggerToStartFrom with
    | Some pt, Some t =>
        if negb (String.eqb (name pt) (trigger_name t)) then None else pinnedTrigger
    | _, _ => pinnedTrigger
    end in
  let askWebhook :=
    isNone pinnedTrigger
    && (isNone runData
        || isNone startNodes
        || match startNodes with Some [] => true | _ => false end
        || isNone destinationNode) in
  needsWebhook ←
    (if askWebhook then
       call (GetBase (user_id user) (wf_id workflowData))
         (getBase deps (user_id user) (wf_id workflowData));;
       let q := {| q_userId := user_id user; q_workflowEntity := workflowData;
                   q_runData := runData; q_pushRef := pushRef;
                   q_destinationNode := destinationNode;
                   q_triggerToStartFrom := triggerToStartFrom |} in
       call (NeedsWebhook q) (testWebhooks_needsWebhook deps q)
     else mret false);
  if (needsWebhook : bool) then
    mret {| waitingForWebhook := Some true; executionId := None |}
  else
    (* for manual testing always set to not active *)
    set_entity (set_active workflowData false);;
    workflowData ← get_entity;
    let hasRunData (node : INode) : bool :=
      match runData with
      | Some rd => Js.truthy_at rd (name node)
      | None => false
      end in
    let data_startNodes :=
      match pinnedTrigger with
      | Some pt =>
          if negb (hasRunData pt)
          then Some [ {| start_name := name pt; sourceData := None |} ]
          else startNodes
      | None => startNodes
      end in
    let executionData :=
      if String.eqb (executions_mode deps) "queue"
         && match OFFLOAD_MANUAL_EXECUTIONS_TO_WORKERS deps with
            | Some v => String.eqb v "true"
            | None => false
            end
      then Some {| startData_startNodes := data_startNodes;
                   startData_destinationNode := destinationNode;
                   resultData_pinData := pinData;
                   resultData_runData := runData;
                   nodeExecutionStack := None;
                   manualData :=
                     Some {| md_userId := user_id user;
                             md_dirtyNodeNames := p_dirtyNodeNames p;
                             md_triggerToStartFrom := triggerToStartFrom |} |}
      else None in
    let data :=
      {| d_destinationNode := destinationNode;
         d_executionMode := "manual";
         d_runData := runData;
         d_pinData := pinData;
         d_pushRef := pushRef;
         d_startNodes := data_startNodes;
         d_workflowData := workflowData;
         d_userId := Some (user_id user);
         d_dirtyNodeNames := p_dirtyNodeNames p;
         d_triggerToStartFrom := triggerToStartFrom;
         d_agentRequest := p_agentRequest p;
         d_streamingEnabled := streamingEnabled;
         d_executionData := executionData;
         d_projectId := None |} in
    executionId ← call (Run data) (workflowRunner_run deps data);
    mret {| waitingForWebhook := None; executionId := Some executionId |}.

Definition buildExecutionPayload (workflowInstance : Workflow)
    (inputData : option IDataObject) (options : ExecuteOptions)
    (previousRunData : option IRunData) (previousPinData : option IPinData)
    : M ManualRunPayload :=
  workflow ← get_entity;
  let carried_destination :=
    if Js.truthy (o_destinationNode options) then o_destinationNode options else None in
  match o_triggerData options with
  | Some triggerData =>
      (* CASE 1: custom trigger data provided *)
      emit (Log Debug "Building payload: Custom trigger data");;
      match getNode workflowInstance (triggerName triggerData) with
      | None =>
          throw (new_error BadRequestError
                   ("Trigger node " +:+ quote +:+ triggerName triggerData
                    +:+ quote +:+ " not found in workflow"))
      | Some triggerNode =>
          set_entity
            (set_pinData workflow
               (Some (<[name triggerNode := [ {| json := payload triggerData |} ]]>
                        (default ∅ (pinData workflow)))));;
          mret {| p_runData := None;
                  p_startNodes := Some [];
                  p_destinationNode := carried_destination;
                  p_dirtyNodeNames := None;
                  p_triggerToStartFrom :=
                    Some {| trigger_name := name triggerNode; trigger_data := None |};
                  p_agentRequest := None |}
      end
  | None =>
      if negb (isNone previousRunData) && Js.truthy (o_destinationNode options)
      then
        (* CASE 2: partial execution, resuming from a previous run *)
        emit (Log Debug "Building payload: Partial execution");;
        match previousPinData with
        | Some _ => set_entity (set_pinData workflow previousPinData)
        | None => mret tt
        end;;
        mret {| p_runData := previousRunData;
                p_startNodes := None;
                p_destinationNode := o_destinationNode options;
                p_dirtyNodeNames := Some (default [] (o_dirtyNodes options));
                p_triggerToStartFrom := None;
                p_agentRequest := None |}
      else
        match inputData with
        | Some inputData =>
            (* CASE 3: full execution with input data *)
            emit (Log Debug "Building payload: Full execution with input data");;
            let activatorNodes :=
              List.filter isActivator (nodes workflow) in
            match activatorNodes with
            | [] =>
                throw (new_error BadRequestError
                         "Workflow has no trigger or webhook nodes")
            | firstActivator :: _ =>
                (* manual trigger, then webhook, then the first activator *)
                let startNode :=
                  match find (λ node, String.eqb (type node)
                                        "n8n-nodes-base.manualTrigger")
                          activatorNodes with
                  | Some node => node
                  | None =>
                      match find (λ node, Js.includes (Js.toLowerCase (type node))
                                            "webhook")
                              activatorNodes with
                      | Some node => node
                      | None => firstActivator
                      end
                  end in
                emit (Log Debug "Selected start node");;
                set_entity
                  (set_pinData workflow
                     (Some (<[name startNode := [ {| json := inputData |} ]]>
                              (default ∅ (pinData workflow)))));;
                mret {| p_runData := None;
                        p_startNodes := Some [];
                        p_destinationNode := carried_destination;
                        p_dirtyNodeNames := None;
                        p_triggerToStartFrom :=
                          Some {| trigger_name := name startNode;
                                  trigger_data := None |};
                        p_agentRequest := None |}
            end
        | None =>
            (* CASE 4: full execution without input data *)
            emit (Log Debug "Building payload: Full execution without input data");;
            match previousPinData with
            | Some _ => set_entity (set_pinData workflow previousPinData)
            | None => mret tt
            end;;
            mret {| p_runData := None;
                    p_startNodes := None;
                    p_destinationNode := carried_destination;
                    p_dirtyNodeNames := None;
                    p_triggerToStartFrom := None;
                    p_agentRequest := None |}
        end
  end.

Definition executeWorkflow (workflowId : string) (inputData : option IDataObject)
    (options : ExecuteOptions) (user : User) : M ExecuteResult :=
  emit (Log Debug "Executing workflow via public API");;
  (* Step 1: load the workflow *)
  loaded ← liftO (workflowRepository_findOneBy deps workflowId);
  match loaded with
  | None =>
      throw (new_error NotFoundError
               ("Workflow with ID " +:+ quote +:+ workflowId +:+ quote +:+ " not found"))
  | Some workflow =>
      set_entity workflow;;
      (* Step 2: the graph used to analyse the structure *)
      let workflowInstance :=
        new_Workflow (Some (wf_id workflow)) (Some (wf_name workflow)) workflow in
      (* Step 3: previous execution, when resuming *)
      previous ←
        (match o_executionId options with
         | Some executionId =>
             if Js.truthy (o_executionId options) then
               emit (Log Debug "Loading previous execution for partial run");;
               previousExecution ←
                 call (FindSingleExecution executionId)
                   (executionRepository_findSingleExecution deps executionId);
               match previousExecution with
               | None =>
                   throw (new_error NotFoundError
                            ("Execution with ID " +:+ quote +:+ executionId
                             +:+ quote +:+ " not found"))
               | Some previousExecution =>
                   emit (Log Debug "Previous execution loaded");;
                   mret (ex_runData previousExecution, pinData workflow)
               end
             else mret (None, None)
         | None => mret (None, None)
         end);
      (* Step 4: execution type and payload *)
      p ← buildExecutionPayload workflowInstance inputData options
             (fst previous) (snd previous);
      emit (Log Debug "Execution payload built");;
      (* Step 5: execute *)
      result ← executeManually p user None None;
      emit (Log Debug "Workflow execution started");;
      (* Step 6: response *)
      if default false (waitingForWebhook result) then
        mret {| res_executionId := executionId result; res_status := Some "waiting" |}
      else
        mret {| res_executionId := executionId result; res_status := None |}
  end.

Definition executeErrorWorkflow (workflowId : string)
    (workflowErrorData : IWorkflowErrorData) (runningProject : Project) : M unit :=
  let failedWorkflowId := Js.show (ew_id (workflow workflowErrorData)) in
  (* everything is wrapped so that no error bubbles up *)
  try_catch
    (workflowData ← liftO (workflowRepository_findOneBy deps workflowId);
     match workflowData with
     | None =>
         emit (Log Error
                 ("Calling Error Workflow for " +:+ quote +:+ failedWorkflowId
                  +:+ quote +:+ ". Could not find error workflow "
                  +:+ quote +:+ workflowId +:+ quote))
     | Some workflowData =>
         let executionMode := "error" in
         let workflowInstance :=
           new_Workflow (Some workflowId) (Some (wf_name workflowData)) workflowData in
         blocked ←
           try_catch
             (let failedNode := lastNodeExecuted workflowInstance workflowErrorData in
              call (PolicyCheck workflowInstance
                      (ew_id (workflow workflowErrorData)) failedNode)
                (subworkflowPolicyChecker_check deps workflowInstance
                   (ew_id (workflow workflowErrorData)) failedNode);;
              mret false)
             (λ _error,
                match getStartNode deps workflowInstance with
                | Some initialNode =>
                    let errorWorkflowPermissionError :=
                      new_error SubworkflowOperationError
                        ("Another workflow: (ID " +:+ failedWorkflowId
                         +:+ ") tried to invoke this workflow to handle errors.") in
                    (* a fake execution, saved to the database *)
                    let fakeExecution :=
                      generateFailedExecutionFromError deps "error"
                        errorWorkflowPermissionError initialNode in
                    let fullExecutionData :=
                      {| ce_data := run_data fakeExecution;
                         ce_mode := run_mode fakeExecution;
                         ce_finished := false;
                         ce_stoppedAt := Some (now deps);
                         ce_workflowData := workflowData;
                         ce_waitTill := None;
                         ce_status := run_status fakeExecution;
                         ce_workflowId := wf_id workflowData |} in
                    call (CreateNewExecution fullExecutionData)
                      (executionRepository_createNewExecution deps fullExecutionData);;
                    mret tt
                | None => mret tt
                end;;
                emit (Log Info
                        "Error workflow execution blocked due to subworkflow settings");;
                mret true);
         if (blocked : bool) then mret tt
         else
           (* the last node of the error trigger type met when going
              through [Object.keys(workflowInstance.nodes)] *)
           let workflowStartNode :=
             last (List.filter
                     (λ node, String.eqb (type node) (errorTriggerType deps))
                     (Js.values (Workflow_nodes workflowInstance))) in
           match workflowStartNode with
           | None =>
               emit (Log Error
                       ("Calling Error Workflow for " +:+ quote +:+ failedWorkflowId
                        +:+ quote +:+ ". Could not find " +:+ quote
                        +:+ errorTriggerType deps +:+ quote +:+ " in workflow "
                        +:+ quote +:+ workflowId +:+ quote))
           | Some workflowStartNode =>
               let parentExecution :=
                 match execution workflowErrorData with
                 | Some ex =>
                     match ee_id ex, ew_id (workflow workflowErrorData) with
                     | Some executionId, Some parentWorkflowId =>
                         if Js.truthy (ee_id ex)
                            && Js.truthy (ew_id (workflow workflowErrorData))
                         then Some {| pe_executionId := executionId;
                                      pe_workflowId := parentWorkflowId |}
                         else None
                     | _, _ => None
                     end
                 | None => None
                 end in
               let nodeExecutionStack :=
                 [ {| ed_node := workflowStartNode;
                      ed_json := workflowErrorData;
                      ed_parentExecution := parentExecution |} ] in
               let runExecutionData :=
                 {| startData_startNodes := None;
                    startData_destinationNode := None;
                    resultData_pinData := None;
                    resultData_runData := Some ∅;
                    nodeExecutionStack := Some nodeExecutionStack;
                    manualData := None |} in
               let runData :=
                 {| d_destinationNode := None;
                    d_executionMode := executionMode;
                    d_runData := None;
                    d_pinData := None;
                    d_pushRef := None;
                    d_startNodes := None;
                    d_workflowData := workflowData;
                    d_userId := None;
                    d_dirtyNodeNames := None;
                    d_triggerToStartFrom := None;
                    d_agentRequest := None;
                    d_streamingEnabled := None;
                    d_executionData := Some runExecutionData;
                    d_projectId := Some (project_id runningProject) |} in
               call (Run runData) (workflowRunner_run deps runData);;
               mret tt
           end
     end)
    (λ error,
       emit (ReportError error);;
       (* the message is read while the text of the log is put together *)
       error_message ← liftO (read_message error);
       emit (Log Error
               ("Calling Error Workflow for " +:+ quote +:+ failedWorkflowId
                +:+ quote +:+ ": " +:+ quote +:+ Js.show error_message +:+ quote))).

End Service.

(** ** Observing a request *)

Definition isRun (e : Event) : bool :=
  match e with Run _ => true | _ => false end.





(** The calls made between two states of the world. *)
Definition events_since (before after : World) : list Event :=
  drop (length (trace before)) (trace after).

(** Whether the workflow runner was invoked between two states. *)
Definition ranWorkflow (before after : World) : bool :=
  existsb isRun (events_since before after).

Definition isManualTrigger (node : INode) : bool :=
  String.eqb (type node) "n8n-nodes-base.manualTrigger".

Definition isWebhookLike (node : INode) : bool :=
  Js.includes (Js.toLowerCase (type node)) "webhook".

(** ** A concrete environment

    Used to run the service on explicit workflows. *)

Module Sample.

(** Modelled from the spec: [getParentNodes] of the graph engine, which is
    not part of the sources at hand: all ancestors reachable by following
    connections backward from the node.  [connections] maps a node to its
    downstream nodes. *)
Definition directParents (w : Workflow) (nodeName : string) : list string :=
  List.filter
    (λ source, existsb (String.eqb nodeName) (default [] (w_connections w !! source)))
    (List.map name (w_nodes w)).

Fixpoint collectParents (fuel : nat) (w : Workflow) (seen todo : list string)
    : list string :=
  match fuel with
  | O => seen
  | S fuel' =>
      match todo with
      | [] => seen
      | nodeName :: todo' =>
          let fresh :=
            List.filter (λ p, negb (existsb (String.eqb p) seen))
              (directParents w nodeName) in
          collectParents fuel' w (seen ++ fresh) (todo' ++ fresh)
      end
  end.

Definition graphParentNodes (w : Workflow) (nodeName : string) : list string :=
  collectParents (S (length (w_nodes w))) w [] [nodeName].

(** Stand-in for [Workflow.getStartNode] of the graph engine, which is not
    part of the sources at hand: the first node that is not disabled, none
    when every node is disabled. *)
Definition firstEnabledNode (w : Workflow) : option INode :=
  find (λ n, negb (disabled n)) (w_nodes w).

(** The registry: types ending in Trigger belong to the trigger group. *)
Definition group (typeName : string) (_version : Z) : list string :=
  if Js.endsWith typeName "Trigger" then ["trigger"] else ["transform"].

Definition emptyRunExecutionData : IRunExecutionData :=
  {| startData_startNodes := None; startData_destinationNode := None;
     resultData_pinData := None; resultData_runData := Some ∅;
     nodeExecutionStack := None; manualData := None |}.

(** One stored workflow, an empty execution store, a policy checker and a
    webhook service with fixed answers, a runner that accepts. *)
Definition deps (stored : IWorkflowBase) (webhookNeeded : bool)
    (policy : Outcome unit) : Deps :=
  {| array_sort := short_array_sort;
     getParentNodes := graphParentNodes;
     getStartNode := firstEnabledNode;
     nodeTypes_group := group;
     workflowRepository_findOneBy := λ id,
       Returned (if String.eqb id (wf_id stored) then Some stored else None);
     executionRepository_findSingleExecution := λ _, Returned None;
     executionRepository_createNewExecution := λ _, Returned "saved-1";
     getBase := λ _ _, Returned tt;
     testWebhooks_needsWebhook := λ _, Returned webhookNeeded;
     workflowRunner_run := λ _, Returned "exec-1";
     subworkflowPolicyChecker_check := λ _ _ _, policy;
     generateFailedExecutionFromError := λ mode _ _,
       {| run_data := emptyRunExecutionData; run_mode := mode; run_status := "error" |};
     executions_mode := "regular";
     OFFLOAD_MANUAL_EXECUTIONS_TO_WORKERS := None;
     errorTriggerType := "n8n-nodes-base.errorTrigger";
     now := 1700000000000 |}.

Definition node (nodeName typeName : string) : INode :=
  {| name := nodeName; type := typeName; typeVersion := 1; disabled := false |}.

Definition workflowOf (ns : list INode) (cs : IConnections)
    (pins : option IPinData) : IWorkflowBase :=
  {| wf_id := "wf-1"; wf_name := "sample"; active := true; nodes := ns;
     connections := cs; pinData := pins |}.

Definition blank : IWorkflowBase := workflowOf [] ∅ None.

Definition noOptions : ExecuteOptions :=
  {| o_destinationNode := None; o_executionId := None; o_dirtyNodes := None;
     o_triggerData := None |}.

Definition world (w : IWorkflowBase) : World := {| entity := w; trace := [] |}.

Definition user : User := {| user_id := "user-1" |}.

Definition pin (names : list string) : IPinData :=
  list_to_map (List.map (λ n, (n, [ {| json := [] |} ])) names).

(** Workflows used below. *)
Definition schedule : INode := node "T1" "n8n-nodes-base.scheduleTrigger".
Definition cron : INode := node "T2" "n8n-nodes-base.cronTrigger".
Definition setNode : INode := node "X" "n8n-nodes-base.set".
Definition unnamed : INode := node EmptyString "n8n-nodes-base.set".
Definition webhook : INode := node "W" "n8n-nodes-base.webhook".
Definition manual : INode := node "M" "n8n-nodes-base.manualTrigger".

(** Two pinned triggers; the second feeds a node whose name is empty. *)
Definition unnamedTarget : IWorkflowBase :=
  workflowOf [schedule; cron; unnamed] {[ "T2" := [EmptyString] ]}
    (Some (pin ["T1"; "T2"])).

(** Two pinned triggers; the second has an upstream node. *)
Definition triggerWithParent : IWorkflowBase :=
  workflowOf [schedule; setNode; cron] {[ "X" := ["T2"] ]}
    (Some (pin ["T1"; "T2"])).

(** A pinned trigger in front of an ordinary node. *)
Definition triggerThenSet : IWorkflowBase :=
  workflowOf [schedule; setNode] {[ "T1" := ["X"] ]} (Some (pin ["T1"])).

(** Three pinned activators, a webhook between two triggers. *)
Definition mixedPinned : IWorkflowBase :=
  workflowOf [schedule; webhook; cron] ∅ (Some (pin ["T1"; "W"; "T2"])).

(** More workflows: a lone webhook without pin data, a workflow without
    activators, a webhook next to a manual trigger, a trigger whose name is
    empty, and two error workflows. *)
Definition onlyWebhook : IWorkflowBase := workflowOf [webhook] ∅ None.

Definition noActivators : IWorkflowBase := workflowOf [setNode] ∅ None.

Definition webhookAndManual : IWorkflowBase := workflowOf [webhook; manual] ∅ None.

Definition unnamedTrigger : IWorkflowBase :=
  workflowOf [node EmptyString "n8n-nodes-base.scheduleTrigger"] ∅ None.

Definition errorTrigger : INode := node "On error" "n8n-nodes-base.errorTrigger".

Definition errorHandler : IWorkflowBase := workflowOf [errorTrigger] ∅ None.


Definition failure : IWorkflowErrorData :=
  {| execution := Some {| ee_id := Some "231"; ee_lastNodeExecuted := Some "HTTP";
                          ee_message := "boom" |};
     workflow := {| ew_id := Some "wf-0"; ew_name := "failing" |} |}.

Definition project : Project := {| project_id := "proj-1" |}.


Definition someRunData : IRunData := {[ "X" := [JNull] ]}.

(** Three pinned webhooks and a pinned trigger, and a pinned trigger with a
    disabled pinned twin. *)
Definition hookA : INode := node "A" "n8n-nodes-base.webhook".
Definition hookB : INode := node "B" "n8n-nodes-base.webhook".
Definition hookC : INode := node "C" "n8n-nodes-base.webhook".

Definition threeWebhooks : IWorkflowBase :=
  workflowOf [hookA; schedule; hookB; hookC] ∅
    (Some (pin ["A"; "T1"; "B"; "C"])).

(** Two pinned webhooks feeding the same node, behind a pinned trigger. *)
Definition twoAncestors : IWorkflowBase :=
  workflowOf [schedule; hookA; hookB; setNode]
    {[ "A" := ["X"]; "B" := ["X"] ]} (Some (pin ["T1"; "A"; "B"])).

(** The same environment in queue mode with manual executions offloaded
    to workers. *)
Definition queued (d : Deps) : Deps :=
  {| array_sort := array_sort d;
     getParentNodes := getParentNodes d;
     getStartNode := getStartNode d;
     nodeTypes_group := nodeTypes_group d;
     workflowRepository_findOneBy := workflowRepository_findOneBy d;
     executionRepository_findSingleExecution :=
       executionRepository_findSingleExecution d;
     executionRepository_createNewExecution :=
       executionRepository_createNewExecution d;
     getBase := getBase d;
     testWebhooks_needsWebhook := testWebhooks_needsWebhook d;
     workflowRunner_run := workflowRunner_run d;
     subworkflowPolicyChecker_check := subworkflowPolicyChecker_check d;
     generateFailedExecutionFromError := generateFailedExecutionFromError d;
     executions_mode := "queue";
     OFFLOAD_MANUAL_EXECUTIONS_TO_WORKERS := Some "true";
     errorTriggerType := errorTriggerType d;
     now := now d |}.

(** The same environment with a workflow runner that rejects every run
    with the given value. *)
Definition runnerRejecting (reason : JsValue) (d : Deps) : Deps :=
  {| array_sort := array_sort d;
     getParentNodes := getParentNodes d;
     getStartNode := getStartNode d;
     nodeTypes_group := nodeTypes_group d;
     workflowRepository_findOneBy := workflowRepository_findOneBy d;
     executionRepository_findSingleExecution :=
       executionRepository_findSingleExecution d;
     executionRepository_createNewExecution :=
       executionRepository_createNewExecution d;
     getBase := getBase d;
     testWebhooks_needsWebhook := testWebhooks_needsWebhook d;
     workflowRunner_run := λ _, Thrown reason;
     subworkflowPolicyChecker_check := subworkflowPolicyChecker_check d;
     generateFailedExecutionFromError := generateFailedExecutionFromError d;
     executions_mode := executions_mode d;
     OFFLOAD_MANUAL_EXECUTIONS_TO_WORKERS := OFFLOAD_MANUAL_EXECUTIONS_TO_WORKERS d;
     errorTriggerType := errorTriggerType d;
     now := now d |}.

(** A full execution request and a partial one starting at [X]. *)
Definition fullRequest : ManualRunPayload :=
  {| p_runData := None; p_startNodes := Some []; p_destinationNode := None;
     p_dirtyNodeNames := None; p_triggerToStartFrom := None;
     p_agentRequest := None |}.

Definition bareRequest : ManualRunPayload :=
  {| p_runData := None; p_startNodes := None; p_destinationNode := None;
     p_dirtyNodeNames := None; p_triggerToStartFrom := None;
     p_agentRequest := None |}.

(** Seventy pinned activators named N00 to N69, every third one (N01, N04,
    ...) a webhook and the others schedule triggers. *)
Definition numbered (i : nat) : string :=
  String "N"
    (String (ascii_of_nat (48 + i / 10))
       (String (ascii_of_nat (48 + i mod 10)) EmptyString)).

Definition seventy : list INode :=
  List.map
    (λ i, node (numbered i)
            (if (i mod 3 =? 1)%nat then "n8n-nodes-base.webhook"
             else "n8n-nodes-base.scheduleTrigger"))
    (seq 0 70).

Definition seventyPinned : IWorkflowBase :=
  workflowOf seventy ∅ (Some (pin (List.map name seventy))).

(** An error workflow whose error triggers are named, in the order of its
    nodes, On error, 10 and 2. *)
Definition numberedErrorTriggers : IWorkflowBase :=
  workflowOf
    [ errorTrigger; node "10" "n8n-nodes-base.errorTrigger";
      node "2" "n8n-nodes-base.errorTrigger" ] ∅ None.

End Sample.

(** ** Proof steps *)

(** Unfolds the monad down to plain state passing. *)
Ltac run_M :=
  unfold mbind, M_bind, mret, M_ret, emit, call, throw, liftO, set_entity,
    get_entity, try_catch; cbn beta iota.

(** Membership of a call in an explicit list of calls. *)
Ltac trace_member :=
  let x := fresh "x" in
  let Hin := fresh "Hin" in
  let Heq := fresh "Heq" in
  intros x Hin;
  repeat (apply elem_of_cons in Hin as [Heq|Hin];
          [first [discriminate Heq | by injection Heq as ->]|]);
  by apply elem_of_nil in Hin.

(** * Properties *)

Local Open Scope list_scope.

(** ** The engine's sort under a comparator that reads one argument *)

(** The binary search does not depend on the fuel once there is enough of
    it: [insert_pivot] always finds the place the search of the engine
    finds. *)
Lemma insertion_point_fuel {A : Type} (comparefn : A → A → Z) (sorted : list A)
    (pivot : A) (fuel1 fuel2 left right : nat) :
  (right ≤ length sorted)%nat →
  (right - left ≤ fuel1)%nat → (right - left ≤ fuel2)%nat →
  insertion_point comparefn fuel1 sorted pivot left right
  = insertion_point comparefn fuel2 sorted pivot left right.
Proof.
  revert fuel2 left right.
  induction fuel1 as [|fuel1 IH]; intros fuel2 left right Hlen H1 H2.
  - destruct fuel2 as [|fuel2]; [done|]. cbn [insertion_point].
    by destruct (Nat.ltb_spec left right) as [Hlt|]; [lia|].
  - cbn [insertion_point]. destruct (Nat.ltb_spec left right) as [Hlt|Hge].
    + destruct fuel2 as [|fuel2]; [lia|]. cbn [insertion_point].
      destruct (Nat.ltb_spec left right) as [_|]; [|lia].
      assert ((right - left) / 2 < right - left)%nat as Hmid
        by (apply Nat.div_lt; lia).
      destruct (sorted !! (left + (right - left) / 2)%nat) as [x|]; [|done].
      destruct (comparefn pivot x <? 0); apply IH; lia.
    + destruct fuel2 as [|fuel2]; [done|]. cbn [insertion_point].
      by destruct (Nat.ltb_spec left right) as [|_]; [lia|].
Qed.

Section OneSidedComparator.
Context {A : Type} (front : A → bool).


Lemma frontFirst_cons (x : A) (l : list A) :
  front x = true → frontFirst front l → frontFirst front (x :: l).
Proof.
  intros Hx (fs & bs & -> & Hf & Hb).
  exists (x :: fs), bs. split; [done|]. split; [by constructor | done].
Qed.

Lemma frontFirst_snoc (x : A) (l : list A) :
  front x = false → frontFirst front l → frontFirst front (l ++ [x]).
Proof.
  intros Hx (fs & bs & -> & Hf & Hb).
  exists fs, (bs ++ [x]). split; [by rewrite <- app_assoc|].
  split; [done|]. apply Forall_app. split; [done | by repeat constructor].
Qed.

Lemma frontFirst_order (l : list A) (i j : nat) (a b : A) :
  frontFirst front l → l !! i = Some a → l !! j = Some b →
  front a = true → front b = false → (i < j)%nat.
Proof.
  intros (fs & bs & -> & Hf & Hb) Hi Hj Ha Hb'.
  destruct (decide (i < length fs)%nat) as [Hlt|Hge].
  - destruct (decide (j < length fs)%nat) as [Hj'|Hj']; [|lia].
    rewrite lookup_app_l in Hj by done.
    apply (proj1 (Forall_lookup _ _) Hf) in Hj. congruence.
  - rewrite lookup_app_r in Hi by lia.
    apply (proj1 (Forall_lookup _ _) Hb) in Hi. congruence.
Qed.

(** A pivot that answers "smaller" to every comparison goes to the left
    end of the searched range. *)
Lemma insertion_point_smaller (pivot : A) (sorted : list A) :
  front pivot = true →
  ∀ fuel right, (right ≤ length sorted)%nat → (right ≤ fuel)%nat →
    insertion_point (oneSided front) fuel sorted pivot 0 right = 0%nat.
Proof.
  intros Hp. induction fuel as [|fuel IH]; intros right Hlen Hfuel; [done|].
  cbn [insertion_point]. destruct (Nat.ltb_spec 0 right) as [Hpos|]; [|done].
  assert ((right - 0) / 2 < right)%nat as Hmid
    by (rewrite Nat.sub_0_r; apply Nat.div_lt; lia).
  destruct (lookup_lt_is_Some_2 sorted (0 + (right - 0) / 2)) as [x ->]; [lia|].
  unfold oneSided at 1. rewrite Hp. cbn [Z.ltb Z.compare]. apply IH; lia.
Qed.

(** A pivot that answers "not smaller" to every comparison goes to the
    right end. *)
Lemma insertion_point_larger (pivot : A) (sorted : list A) :
  front pivot = false →
  ∀ fuel left right,
    (left ≤ right)%nat → (right ≤ length sorted)%nat → (right - left ≤ fuel)%nat →
    insertion_point (oneSided front) fuel sorted pivot left right = right.
Proof.
  intros Hp. induction fuel as [|fuel IH]; intros left right Hlr Hlen Hfuel.
  - simpl. lia.
  - cbn [insertion_point]. destruct (Nat.ltb_spec left right) as [Hlt|]; [|lia].
    assert ((right - left) / 2 < right - left)%nat as Hmid
      by (apply Nat.div_lt; lia).
    destruct (lookup_lt_is_Some_2 sorted (left + (right - left) / 2)) as [x ->];
      [lia|].
    unfold oneSided at 1. rewrite Hp. cbn [Z.ltb Z.compare]. apply IH; lia.
Qed.

Lemma insert_pivot_smaller (pivot : A) (sorted : list A) :
  front pivot = true →
  insert_pivot (oneSided front) sorted pivot = pivot :: sorted.
Proof.
  intros Hp. unfold insert_pivot.
  by rewrite insertion_point_smaller.
Qed.

Lemma insert_pivot_larger (pivot : A) (sorted : list A) :
  front pivot = false →
  insert_pivot (oneSided front) sorted pivot = sorted ++ [pivot].
Proof.
  intros Hp. unfold insert_pivot.
  rewrite insertion_point_larger by (done || lia).
  by rewrite firstn_all, drop_all.
Qed.

Lemma insert_pivot_frontFirst (pivot : A) (sorted : list A) :
  frontFirst front sorted →
  frontFirst front (insert_pivot (oneSided front) sorted pivot).
Proof.
  intros Hs. destruct (front pivot) eqn:Hp.
  - rewrite insert_pivot_smaller by done. by apply frontFirst_cons.
  - rewrite insert_pivot_larger by done. by apply frontFirst_snoc.
Qed.

Lemma BinaryInsertionSort_frontFirst (rest run : list A) :
  frontFirst front run →
  frontFirst front (BinaryInsertionSort (oneSided front) run rest).
Proof.
  unfold BinaryInsertionSort. revert run.
  induction rest as [|pivot rest IH]; intros run Hrun; [done|].
  simpl. apply IH. by apply insert_pivot_frontFirst.
Qed.

(** The elements that continue a descending run are all [front]; those
    that continue an ascending run are all not. *)
Lemma run_extent_descending (previous : A) (rest : list A) :
  Forall (λ x, front x = true)
    (take (run_extent (oneSided front) true previous rest) rest).
Proof.
  revert previous. induction rest as [|x rest IH]; intros previous; simpl.
  - constructor.
  - unfold oneSided at 1. destruct (front x) eqn:Hx; simpl.
    + constructor; [done | apply IH].
    + constructor.
Qed.

Lemma run_extent_ascending (previous : A) (rest : list A) :
  Forall (λ x, front x = false)
    (take (run_extent (oneSided front) false previous rest) rest).
Proof.
  revert previous. induction rest as [|x rest IH]; intros previous; simpl.
  - constructor.
  - unfold oneSided at 1. destruct (front x) eqn:Hx; simpl.
    + constructor.
    + constructor; [done | apply IH].
Qed.

Lemma CountAndMakeRun_frontFirst (l : list A) :
  frontFirst front (fst (CountAndMakeRun (oneSided front) l)).
Proof.
  destruct l as [|low [|next rest]].
  - exists [], []. by repeat split.
  - simpl. destruct (front low) eqn:Hl.
    + exists [low], []. repeat split; by repeat constructor.
    + exists [], [low]. repeat split; by repeat constructor.
  - assert (((oneSided front) next low <? 0) = front next) as Hd
      by (unfold oneSided; by destruct (front next)).
    unfold CountAndMakeRun. cbv zeta. rewrite !Hd.
    destruct (front next) eqn:Hn; cbn [fst].
    + pose proof (run_extent_descending next rest) as Hrun.
      set (k := run_extent (oneSided front) true next rest) in *.
      replace (rev (low :: next :: take k rest))
        with ((rev (take k rest) ++ [next]) ++ [low])
        by (simpl; by rewrite <- !app_assoc).
      assert (frontFirst front (rev (take k rest) ++ [next])) as Hws.
      { exists (rev (take k rest) ++ [next]), []. rewrite app_nil_r.
        split; [done|]. split; [|constructor].
        apply Forall_app. split; [|by repeat constructor].
        by apply List.Forall_rev. }
      destruct (front low) eqn:Hl.
      * destruct Hws as (fs & bs & Heq & Hf & Hb).
        exists ((rev (take k rest) ++ [next]) ++ [low]), [].
        rewrite app_nil_r. split; [done|]. split; [|constructor].
        apply Forall_app. split; [|by repeat constructor].
        apply Forall_app. split; [|by repeat constructor].
        by apply List.Forall_rev.
      * by apply frontFirst_snoc.
    + pose proof (run_extent_ascending next rest) as Hrun.
      set (k := run_extent (oneSided front) false next rest) in *.
      destruct (front low) eqn:Hl.
      * exists [low], (next :: take k rest). split; [done|].
        split; [by repeat constructor|]. by constructor.
      * exists [], (low :: next :: take k rest). split; [done|].
        split; [constructor|]. by repeat constructor.
Qed.

Lemma short_array_sort_frontFirst (l : list A) :
  frontFirst front (short_array_sort (oneSided front) l).
Proof.
  unfold short_array_sort.
  pose proof (CountAndMakeRun_frontFirst l) as Hrun.
  destruct (CountAndMakeRun (oneSided front) l) as [run rest].
  by apply BinaryInsertionSort_frontFirst.
Qed.

End OneSidedComparator.

(** ** The merges of the engine's sort under such a comparator *)

Section GallopFacts.
Local Open Scope nat_scope.

Lemma gallop_ext (fuel : nat) (f g : nat → bool) (maxOfs lastOfs offset : nat) :
  (∀ i, f i = g i) →
  gallop fuel f maxOfs lastOfs offset = gallop fuel g maxOfs lastOfs offset.
Proof.
  intros Hfg. revert lastOfs offset.
  induction fuel as [|fuel IH]; intros lastOfs offset; [done|].
  cbn [gallop]. rewrite Hfg. destruct (offset <? maxOfs); [|done].
  destruct (g offset); [done|]. apply IH.
Qed.

Lemma gallop_search_ext (fuel : nat) (f g : nat → bool) (lastOfs offset : nat) :
  (∀ i, f i = g i) →
  gallop_search fuel f lastOfs offset = gallop_search fuel g lastOfs offset.
Proof.
  intros Hfg. revert lastOfs offset.
  induction fuel as [|fuel IH]; intros lastOfs offset; [done|].
  cbn [gallop_search]. rewrite Hfg. destruct (lastOfs <? offset); [|done].
  destruct (g _); apply IH.
Qed.

(** A gallop that nothing stops runs up to the end of the range. *)
Lemma gallop_to_the_end (fuel maxOfs lastOfs offset : nat) :
  maxOfs ≤ fuel + offset →
  maxOfs ≤ snd (gallop fuel (λ _, false) maxOfs lastOfs offset).
Proof.
  revert lastOfs offset. induction fuel as [|fuel IH]; intros lastOfs offset Hfuel.
  - simpl. lia.
  - cbn [gallop]. destruct (Nat.ltb_spec offset maxOfs) as [Hlt|Hge]; [|simpl; lia].
    apply IH. lia.
Qed.

(** A gallop towards the boundary of a predicate that holds below [c]
    and fails from [c] on. *)
Lemma gallop_up (c hint fuel maxOfs lastOfs offset : nat) :
  hint + lastOfs < c → lastOfs < offset → maxOfs ≤ fuel + offset →
  let '(l, o) :=
    gallop fuel (λ ofs, negb (hint + ofs <? c)) maxOfs lastOfs offset in
  hint + l < c ∧ l < o ∧ (maxOfs ≤ o ∨ c ≤ hint + o).
Proof.
  revert lastOfs offset.
  induction fuel as [|fuel IH]; intros lastOfs offset Hlast Hlt Hfuel.
  - simpl. lia.
  - cbn [gallop]. destruct (Nat.ltb_spec offset maxOfs) as [Hin|Hout]; [|lia].
    destruct (Nat.ltb_spec (hint + offset) c) as [Hbelow|Habove]; cbn [negb]; [|lia].
    apply IH; lia.
Qed.

Lemma gallop_down (c hint fuel lastOfs offset : nat) :
  c ≤ hint - lastOfs → lastOfs ≤ hint → lastOfs < offset →
  hint + 1 ≤ fuel + offset →
  let '(l, o) :=
    gallop fuel (λ ofs, hint - ofs <? c) (hint + 1) lastOfs offset in
  c ≤ hint - l ∧ l ≤ hint ∧ l < o ∧ (hint + 1 ≤ o ∨ hint - o < c).
Proof.
  revert lastOfs offset.
  induction fuel as [|fuel IH]; intros lastOfs offset Hlast Hle Hlt Hfuel.
  - simpl. lia.
  - cbn [gallop]. destruct (Nat.ltb_spec offset (hint + 1)) as [Hin|Hout]; [|lia].
    destruct (Nat.ltb_spec (hint - offset) c) as [Hbelow|Habove]; [lia|].
    apply IH; lia.
Qed.

(** The binary search finds the boundary of a predicate that holds below
    [c] and fails from [c] on. *)
Lemma gallop_search_boundary (f : nat → bool) (c fuel lastOfs offset : nat) :
  (∀ m, lastOfs ≤ m < offset → f m = (m <? c)) →
  lastOfs ≤ c → c ≤ offset → offset - lastOfs ≤ fuel →
  gallop_search fuel f lastOfs offset = c.
Proof.
  revert lastOfs offset.
  induction fuel as [|fuel IH]; intros lastOfs offset Hf Hlo Hhi Hfuel.
  - simpl. lia.
  - cbn [gallop_search]. destruct (Nat.ltb_spec lastOfs offset) as [Hlt|Hge]; [|lia].
    assert ((offset - lastOfs) / 2 < offset - lastOfs) as Hmid
      by (apply Nat.div_lt; lia).
    rewrite Hf by lia.
    destruct (Nat.ltb_spec (lastOfs + (offset - lastOfs) / 2) c);
      (apply IH; [intros m Hm; apply Hf|..]; lia).
Qed.

Lemma gallop_search_right (fuel lastOfs offset : nat) :
  gallop_search fuel (λ _, true) lastOfs offset = offset.
Proof.
  revert lastOfs. induction fuel as [|fuel IH]; intros lastOfs; [done|].
  cbn [gallop_search]. destruct (lastOfs <? offset); [apply IH | done].
Qed.

End GallopFacts.


Section GallopSearches.
Local Open Scope nat_scope.

Lemma GallopLeft_search_ext (f g : nat → bool) (length hint : nat) :
  (∀ i, f i = g i) → GallopLeft_search f length hint = GallopLeft_search g length hint.
Proof.
  intros Hfg. unfold GallopLeft_search. rewrite Hfg.
  rewrite (gallop_ext _ (λ ofs, negb (f (hint + ofs))) (λ ofs, negb (g (hint + ofs))))
    by (intros i; by rewrite Hfg).
  rewrite (gallop_ext _ (λ ofs, f (hint - ofs)) (λ ofs, g (hint - ofs)))
    by (intros i; by rewrite Hfg).
  destruct (g hint); destruct (gallop _ _ _ _ _); by apply gallop_search_ext.
Qed.

Lemma GallopRight_search_ext (f g : nat → bool) (length hint : nat) :
  (∀ i, f i = g i) →
  GallopRight_search f length hint = GallopRight_search g length hint.
Proof.
  intros Hfg. unfold GallopRight_search. rewrite Hfg.
  rewrite (gallop_ext _ (λ ofs, negb (f (hint - ofs))) (λ ofs, negb (g (hint - ofs))))
    by (intros i; by rewrite Hfg).
  rewrite (gallop_ext _ (λ ofs, f (hint + ofs)) (λ ofs, g (hint + ofs)))
    by (intros i; by rewrite Hfg).
  destruct (g hint); destruct (gallop _ _ _ _ _); apply gallop_search_ext;
    intros i; by rewrite Hfg.
Qed.

(** When the comparison holds exactly below position [c], [GallopLeft]
    answers [c]. *)
Lemma GallopLeft_search_boundary (c length hint : nat) :
  c ≤ length → hint < length →
  GallopLeft_search (λ i, i <? c) length hint = c.
Proof.
  intros Hc Hhint. unfold GallopLeft_search.
  destruct (Nat.ltb_spec hint c) as [Hbelow|Habove].
  - pose proof (gallop_up c hint (length - hint) (length - hint) 0 1
                  ltac:(lia) ltac:(lia) ltac:(lia)) as Hgallop.
    destruct (gallop _ _ _ _ _) as [l o]. destruct Hgallop as (Hl & Hlo & Ho).
    apply gallop_search_boundary; (done || lia).
  - pose proof (gallop_down c hint (hint + 1) 0 1
                  ltac:(lia) ltac:(lia) ltac:(lia) ltac:(lia)) as Hgallop.
    destruct (gallop _ _ _ _ _) as [l o]. destruct Hgallop as (Hl & Hle & Hlo & Ho).
    apply gallop_search_boundary; (done || lia).
Qed.

(** A key that is smaller than every element goes to the front, one that
    is smaller than none to the end. *)
Lemma GallopRight_search_all (length hint : nat) :
  hint < length → GallopRight_search (λ i, i <? length) length hint = 0.
Proof.
  intros Hhint. unfold GallopRight_search.
  rewrite (proj2 (Nat.ltb_lt _ _) Hhint).
  rewrite (gallop_ext _ _ (λ _, false)).
  2:{ intros i. apply negb_false_iff, Nat.ltb_lt. lia. }
  pose proof (gallop_to_the_end (hint + 1) (hint + 1) 0 1 ltac:(lia)) as Hend.
  destruct (gallop (hint + 1) (λ _, false) (hint + 1) 0 1) as [l o].
  cbn [snd] in Hend. rewrite Nat.min_r by done.
  replace (hint + 1 - (hint + 1)) with 0 by lia.
  apply gallop_search_boundary; [|lia..].
  intros m Hm. rewrite (proj2 (Nat.ltb_lt m length)) by lia.
  symmetry. apply Nat.ltb_ge. lia.
Qed.

Lemma GallopRight_search_none (length hint : nat) :
  hint < length → GallopRight_search (λ _, false) length hint = length.
Proof.
  intros Hhint. unfold GallopRight_search.
  pose proof (gallop_to_the_end (length - hint) (length - hint) 0 1 ltac:(lia))
    as Hend.
  destruct (gallop (length - hint) (λ _, false) (length - hint) 0 1) as [l o].
  cbn [snd] in Hend. rewrite Nat.min_r by done.
  replace (length - hint + hint) with length by lia.
  apply gallop_search_right.
Qed.

End GallopSearches.

Section OneSidedMerge.
Context {A : Type} (front : A → bool).
Local Open Scope nat_scope.

Abbreviation cmp := (oneSided front).

Lemma oneSided_lt (a b : A) : (cmp a b <? 0)%Z = front a.
Proof. unfold oneSided. by destruct (front a). Qed.

Lemma GallopRight_front (array : list A) (key : A) (hint : nat) :
  front key = true → hint < length array →
  GallopRight cmp array key hint = 0.
Proof.
  intros Hkey Hhint. unfold GallopRight.
  rewrite (GallopRight_search_ext _ (λ i, i <? length array));
    [by apply GallopRight_search_all|].
  intros i. destruct (array !! i) as [x|] eqn:Hi.
  - rewrite oneSided_lt, Hkey. symmetry. apply Nat.ltb_lt.
    by apply lookup_lt_Some in Hi.
  - symmetry. apply Nat.ltb_ge. by apply lookup_ge_None in Hi.
Qed.

Lemma GallopRight_back (array : list A) (key : A) (hint : nat) :
  front key = false → hint < length array →
  GallopRight cmp array key hint = length array.
Proof.
  intros Hkey Hhint. unfold GallopRight.
  rewrite (GallopRight_search_ext _ (λ _, false));
    [by apply GallopRight_search_none|].
  intros i. destruct (array !! i) as [x|]; [|done]. by rewrite oneSided_lt, Hkey.
Qed.

(** In a list that has its [front] elements first, [GallopLeft] answers
    how many of them there are, whatever the key. *)
Lemma GallopLeft_frontFirst (fs bs : list A) (key : A) (hint : nat) :
  Forall (λ x, front x = true) fs → Forall (λ x, front x = false) bs →
  hint < length (fs ++ bs) →
  GallopLeft cmp (fs ++ bs) key hint = length fs.
Proof.
  intros Hfs Hbs Hhint. unfold GallopLeft.
  rewrite (GallopLeft_search_ext _ (λ i, i <? length fs)).
  - apply GallopLeft_search_boundary; [rewrite length_app; lia | done].
  - intros i. destruct (Nat.ltb_spec i (length fs)) as [Hlt|Hge].
    + rewrite lookup_app_l by done.
      destruct (lookup_lt_is_Some_2 fs i Hlt) as [x Hx]. rewrite Hx, oneSided_lt.
      by apply (proj1 (Forall_lookup _ _) Hfs i).
    + rewrite lookup_app_r by done.
      destruct (bs !! (i - length fs)) as [x|] eqn:Hx; [|done].
      rewrite oneSided_lt. by apply (proj1 (Forall_lookup _ _) Hbs (i - length fs)).
Qed.


(** Merging with a run [runB] of [front] elements only: its elements win
    every comparison, so the merge is [runB] followed by the other run. *)
Lemma MergeLow_gallop_front (fuel minGallop : nat) (out tempA runB : list A) :
  Forall (λ x, front x = true) runB → runB ≠ [] → tempA ≠ [] → 1 ≤ fuel →
  fst (MergeLow_gallop cmp fuel minGallop out tempA runB) = out ++ runB ++ tempA.
Proof.
  intros HB HBne HAne Hfuel.
  destruct fuel as [|fuel]; [lia|]. destruct runB as [|b runB']; [done|].
  destruct tempA as [|a tempA']; [done|].
  apply Forall_cons in HB as [Hb HB'].
  cbn [MergeLow_gallop]. cbv zeta.
  rewrite GallopRight_front by (done || (simpl; lia)).
  cbn [take drop Nat.ltb Nat.leb andb]. rewrite app_nil_r.
  destruct runB' as [|b' runB''].
  - cbn [fst]. by rewrite <- app_assoc.
  - pose proof (GallopLeft_frontFirst (b' :: runB'') [] a 0 HB' ltac:(constructor))
      as Hgallop.
    rewrite app_nil_r in Hgallop. rewrite Hgallop by (simpl; lia).
    rewrite firstn_all, drop_all. cbn [length Nat.ltb Nat.leb Nat.eqb andb fst].
    rewrite <- !app_assoc. done.
Qed.

Lemma MergeLow_linear_front (fuel minGallop nofWinsA nofWinsB : nat)
    (out tempA runB : list A) :
  Forall (λ x, front x = true) runB → runB ≠ [] → tempA ≠ [] →
  length runB ≤ fuel →
  fst (MergeLow_linear cmp fuel minGallop nofWinsA nofWinsB out tempA runB)
  = out ++ runB ++ tempA.
Proof.
  revert nofWinsA nofWinsB out runB.
  induction fuel as [|fuel IH]; intros nofWinsA nofWinsB out runB HB HBne HAne Hfuel.
  - destruct runB; [done | simpl in Hfuel; lia].
  - destruct runB as [|b runB']; [done|]. destruct tempA as [|a tempA']; [done|].
    apply Forall_cons in HB as [Hb HB'].
    cbn [MergeLow_linear]. rewrite oneSided_lt, Hb. cbv zeta.
    destruct runB' as [|b' runB''].
    + cbn [fst]. by rewrite <- app_assoc.
    + simpl in Hfuel. destruct (minGallop <=? S nofWinsB).
      * rewrite MergeLow_gallop_front by (done || (simpl; lia)).
        by rewrite <- ?app_assoc.
      * rewrite IH by (done || (simpl; lia)). by rewrite <- ?app_assoc.
Qed.

Lemma MergeLow_front (minGallop : nat) (runA runB : list A) :
  Forall (λ x, front x = true) runB → runB ≠ [] → runA ≠ [] →
  fst (MergeLow cmp minGallop runA runB) = runB ++ runA.
Proof.
  intros HB HBne HAne. unfold MergeLow.
  destruct runB as [|b runB']; [done|]. apply Forall_cons in HB as [Hb HB'].
  destruct runB' as [|b' runB'']; [by destruct runA|].
  destruct runA as [|a [|a' runA'']]; [done| |].
  - cbn [fst]. done.
  - rewrite MergeLow_linear_front by (done || (simpl; lia)). done.
Qed.

Lemma MergeHigh_gallop_front (fuel minGallop : nat) (revA tempB out : list A) :
  Forall (λ x, front x = true) tempB → tempB ≠ [] → revA ≠ [] → 1 ≤ fuel →
  fst (MergeHigh_gallop cmp fuel minGallop revA tempB out)
  = rev tempB ++ rev revA ++ out.
Proof.
  intros HB HBne HAne Hfuel.
  destruct fuel as [|fuel]; [lia|]. destruct tempB as [|b tempB']; [done|].
  apply Forall_cons in HB as [Hb HB'].
  cbn [MergeHigh_gallop]. cbv zeta.
  assert (0 < length (rev revA)) as Hlen.
  { rewrite length_rev. destruct revA; [done | simpl; lia]. }
  rewrite GallopRight_front by (done || lia).
  cbn [take drop]. rewrite Nat.sub_0_r.
  rewrite (proj2 (Nat.ltb_lt 0 (length (rev revA)))) by done.
  cbn [length Nat.eqb andb fst]. done.
Qed.

Lemma MergeHigh_linear_front (fuel minGallop nofWinsA nofWinsB : nat)
    (revA tempB out : list A) :
  Forall (λ x, front x = true) tempB → tempB ≠ [] → revA ≠ [] →
  length revA ≤ fuel →
  fst (MergeHigh_linear cmp fuel minGallop nofWinsA nofWinsB revA tempB out)
  = rev tempB ++ rev revA ++ out.
Proof.
  revert nofWinsA nofWinsB out revA.
  induction fuel as [|fuel IH]; intros nofWinsA nofWinsB out revA HB HBne HAne Hfuel.
  - destruct revA; [done | simpl in Hfuel; lia].
  - destruct revA as [|a revA']; [done|]. destruct tempB as [|b tempB']; [done|].
    pose proof HB as HB0. apply Forall_cons in HB0 as [Hb _].
    cbn [MergeHigh_linear]. rewrite oneSided_lt, Hb. cbv zeta.
    destruct revA' as [|a' revA''].
    + cbn [fst]. done.
    + simpl in Hfuel. destruct (minGallop <=? S nofWinsA).
      * rewrite MergeHigh_gallop_front by (done || lia).
        cbn [rev]. by rewrite <- !app_assoc.
      * rewrite IH by (done || (simpl; lia)). cbn [rev]. by rewrite <- !app_assoc.
Qed.

Lemma MergeHigh_front (minGallop : nat) (runA runB : list A) :
  Forall (λ x, front x = true) runB → runB ≠ [] → runA ≠ [] →
  fst (MergeHigh cmp minGallop runA runB) = runB ++ runA.
Proof.
  intros HB HBne HAne. unfold MergeHigh.
  destruct (rev runA) as [|a revA'] eqn:Hrev.
  { apply (f_equal (@rev A)) in Hrev. rewrite rev_involutive in Hrev. done. }
  assert (runA = rev revA' ++ [a]) as HA.
  { apply (f_equal (@rev A)) in Hrev. by rewrite rev_involutive in Hrev. }
  destruct revA' as [|a' revA''].
  { cbn [fst]. by rewrite HA. }
  destruct runB as [|b [|b' runB'']]; [done|done|].
  rewrite MergeHigh_linear_front.
  - rewrite rev_involutive, HA. by rewrite <- ?app_assoc.
  - by apply List.Forall_rev.
  - intros Hnil. apply (f_equal (@rev A)) in Hnil. by rewrite rev_involutive in Hnil.
  - done.
  - rewrite HA, length_app, length_rev. simpl. lia.
Qed.


Definition goodRun (run : list A) : Prop := frontFirst front run ∧ run ≠ [].

Lemma frontFirst_app (fs bs : list A) :
  Forall (λ x, front x = true) fs → Forall (λ x, front x = false) bs →
  frontFirst front (fs ++ bs).
Proof. intros Hfs Hbs. by exists fs, bs. Qed.

(** Merging two neighbouring runs that have their [front] elements first
    gives such a run again. *)
Lemma MergeAt_goodRun (minGallop : nat) (runA runB : list A) :
  goodRun runA → goodRun runB → goodRun (fst (MergeAt cmp minGallop runA runB)).
Proof.
  intros [(fsA & bsA & -> & HfA & HbA) HAne] [(fsB & bsB & -> & HfB & HbB) HBne].
  assert (0 < length (fsA ++ bsA)) as HlenA
    by (destruct (fsA ++ bsA); [done | simpl; lia]).
  destruct fsB as [|f fsB'].
  - (* the second run has no front element: both runs stay where they are *)
    destruct bsB as [|keyRight bsB']; [done|].
    pose proof HbB as HbB0. apply Forall_cons in HbB0 as [Hkey _].
    unfold MergeAt. cbn [app].
    rewrite GallopRight_back by done. rewrite drop_all. cbn [rev fst].
    split.
    + rewrite <- app_assoc. apply frontFirst_app; [done|].
      apply Forall_app. by split.
    + by destruct (fsA ++ bsA).
  - pose proof HfB as HfB0. apply Forall_cons in HfB0 as [Hkey _].
    unfold MergeAt. cbn [app].
    rewrite GallopRight_front by done. rewrite !drop_0, take_0.
    destruct (rev (fsA ++ bsA)) as [|keyLeft revA] eqn:Hrev.
    { apply (f_equal (@rev A)) in Hrev. rewrite rev_involutive in Hrev. done. }
    change (f :: fsB' ++ bsB) with ((f :: fsB') ++ bsB).
    rewrite GallopLeft_frontFirst by (done || (rewrite length_app; simpl; lia)).
    rewrite take_app_length, drop_app_length.
    cbn [app].
    assert (∀ merged : list A * nat,
              fst merged = (f :: fsB') ++ fsA ++ bsA →
              goodRun (fst (let '(merged, minGallop) := merged in
                            (merged ++ bsB, minGallop)))) as Hmerged.
    { intros [merged g] Heq. cbn [fst] in *. subst merged. split; [|done].
      replace (((f :: fsB') ++ fsA ++ bsA) ++ bsB)
        with (((f :: fsB') ++ fsA) ++ bsA ++ bsB) by (by rewrite <- !app_assoc).
      apply frontFirst_app; apply Forall_app; by split. }
    destruct (length (fsA ++ bsA) <=? length (f :: fsB')); apply Hmerged.
    + apply MergeLow_front; done.
    + apply MergeHigh_front; done.
Qed.

Lemma MergeCollapse_goodRun (fuel minGallop : nat) (pendingRuns : list (list A)) :
  Forall goodRun pendingRuns → pendingRuns ≠ [] →
  Forall goodRun (fst (MergeCollapse cmp fuel minGallop pendingRuns))
  ∧ fst (MergeCollapse cmp fuel minGallop pendingRuns) ≠ [].
Proof.
  revert minGallop pendingRuns.
  induction fuel as [|fuel IH]; intros minGallop pendingRuns Hruns Hne; [done|].
  cbn [MergeCollapse].
  destruct pendingRuns as [|runN1 [|runN below]]; [done..|].
  pose proof Hruns as Hall.
  apply Forall_cons in Hruns as [HN1 Hruns]. apply Forall_cons in Hruns as [HN Hbelow].
  assert (∀ g,
            let result :=
              let '(merged, minGallop) := MergeAt cmp g runN runN1 in
              MergeCollapse cmp fuel minGallop (merged :: below) in
            Forall goodRun (fst result) ∧ fst result ≠ []) as Htop.
  { intros g. pose proof (MergeAt_goodRun g runN runN1 HN HN1) as Hmerged.
    destruct (MergeAt cmp g runN runN1) as [merged g']. cbn [fst] in Hmerged.
    apply IH; [by constructor | done]. }
  destruct below as [|runNM below'].
  - destruct (length runN <=? length runN1); [apply Htop|].
    cbn [fst]. by split.
  - apply Forall_cons in Hbelow as [HNM Hbelow'].
    destruct (_ || _).
    + destruct (length runNM <? length runN1); [|apply Htop].
      pose proof (MergeAt_goodRun minGallop runNM runN HNM HN) as Hmerged.
      destruct (MergeAt cmp minGallop runNM runN) as [merged g']. cbn [fst] in Hmerged.
      apply IH; [|done]. apply Forall_cons. split; [done|]. by apply Forall_cons.
    + destruct (length runN <=? length runN1); [apply Htop|].
      cbn [fst]. by split.
Qed.

Lemma MergeForceCollapse_goodRun (fuel minGallop : nat)
    (pendingRuns : list (list A)) :
  Forall goodRun pendingRuns → pendingRuns ≠ [] → length pendingRuns ≤ S fuel →
  ∃ run, fst (MergeForceCollapse cmp fuel minGallop pendingRuns) = [run]
         ∧ goodRun run.
Proof.
  revert minGallop pendingRuns.
  induction fuel as [|fuel IH]; intros minGallop pendingRuns Hruns Hne Hfuel.
  - destruct pendingRuns as [|run [|? ?]]; [done| |simpl in Hfuel; lia].
    exists run. split; [done|]. by apply Forall_cons in Hruns as [? _].
  - cbn [MergeForceCollapse].
    destruct pendingRuns as [|runN1 [|runN below]]; [done| |].
    { exists runN1. split; [done|]. by apply Forall_cons in Hruns as [? _]. }
    apply Forall_cons in Hruns as [HN1 Hruns].
    apply Forall_cons in Hruns as [HN Hbelow].
    simpl in Hfuel.
    assert (∀ g,
              ∃ run,
                fst (let '(merged, minGallop) := MergeAt cmp g runN runN1 in
                     MergeForceCollapse cmp fuel minGallop (merged :: below)) = [run]
                ∧ goodRun run) as Htop.
    { intros g. pose proof (MergeAt_goodRun g runN runN1 HN HN1) as Hmerged.
      destruct (MergeAt cmp g runN runN1) as [merged g']. cbn [fst] in Hmerged.
      apply IH; [by constructor | done | simpl; lia]. }
    destruct below as [|runNM below']; [apply Htop|].
    apply Forall_cons in Hbelow as [HNM Hbelow'].
    destruct (length runNM <? length runN1); [|apply Htop].
    pose proof (MergeAt_goodRun minGallop runNM runN HNM HN) as Hmerged.
    destruct (MergeAt cmp minGallop runNM runN) as [merged g']. cbn [fst] in Hmerged.
    apply IH; [|done|simpl in *; lia].
    apply Forall_cons. split; [done|]. by apply Forall_cons.
Qed.

Lemma insert_pivot_nonempty (sorted : list A) (pivot : A) :
  insert_pivot cmp sorted pivot ≠ [].
Proof. unfold insert_pivot. by destruct (take _ sorted). Qed.

Lemma BinaryInsertionSort_nonempty (rest run : list A) :
  run ≠ [] → BinaryInsertionSort cmp run rest ≠ [].
Proof.
  unfold BinaryInsertionSort. revert run.
  induction rest as [|pivot rest IH]; intros run Hrun; [done|].
  simpl. apply IH, insert_pivot_nonempty.
Qed.

Lemma CountAndMakeRun_nonempty (l : list A) :
  l ≠ [] → fst (CountAndMakeRun cmp l) ≠ [].
Proof.
  destruct l as [|low [|next rest]]; [done..|]. intros _.
  unfold CountAndMakeRun. cbv zeta. destruct (_ <? _)%Z; cbn [fst]; [|done].
  intros Hnil. apply (f_equal (@length A)) in Hnil. rewrite length_rev in Hnil.
  done.
Qed.

Lemma ArrayTimSort_runs_goodRun (fuel minRunLength minGallop : nat)
    (pendingRuns : list (list A)) (remaining : list A) :
  Forall goodRun pendingRuns →
  Forall goodRun
    (fst (ArrayTimSort_runs cmp fuel minRunLength minGallop pendingRuns remaining))
  ∧ (pendingRuns ≠ [] ∨ (remaining ≠ [] ∧ 0 < fuel) →
     fst (ArrayTimSort_runs cmp fuel minRunLength minGallop pendingRuns remaining)
     ≠ []).
Proof.
  revert minGallop pendingRuns remaining.
  induction fuel as [|fuel IH]; intros minGallop pendingRuns remaining Hruns.
  - cbn [ArrayTimSort_runs fst]. split; [done|]. intros [?|[_ ?]]; [done | lia].
  - cbn [ArrayTimSort_runs]. destruct remaining as [|x remaining'].
    { cbn [fst]. split; [done|]. by intros [?|[? _]]. }
    pose proof (CountAndMakeRun_frontFirst front (x :: remaining')) as Hrun.
    pose proof (CountAndMakeRun_nonempty (x :: remaining') ltac:(done)) as Hne.
    destruct (CountAndMakeRun cmp (x :: remaining')) as [run rest].
    cbn [fst] in Hrun, Hne.
    assert (∀ extended : list A * list A,
              goodRun (fst extended) →
              let result :=
                let '(run, rest) := extended in
                let '(pendingRuns, minGallop) :=
                  MergeCollapse cmp (S (length pendingRuns)) minGallop
                    (run :: pendingRuns) in
                ArrayTimSort_runs cmp fuel minRunLength minGallop pendingRuns rest in
              Forall goodRun (fst result) ∧ fst result ≠ []) as Hstep.
    { intros [run' rest'] Hgood. cbn [fst] in Hgood. cbv zeta.
      pose proof (MergeCollapse_goodRun (S (length pendingRuns)) minGallop
                    (run' :: pendingRuns) ltac:(by constructor) ltac:(done))
        as [Hcollapsed Hcne].
      destruct (MergeCollapse cmp _ minGallop (run' :: pendingRuns)) as [runs g].
      cbn [fst] in Hcollapsed, Hcne.
      destruct (IH g runs rest' Hcollapsed) as [Hall Hnonempty].
      split; [done|]. apply Hnonempty. by left. }
    cbv zeta. destruct (length run <? minRunLength).
    + destruct (Hstep (BinaryInsertionSort cmp run
                         (take (minRunLength `min` length (x :: remaining')
                                - length run) rest),
                       drop (minRunLength `min` length (x :: remaining')
                             - length run) rest)) as [Hall Hnonempty].
      { split; [by apply BinaryInsertionSort_frontFirst
               | by apply BinaryInsertionSort_nonempty]. }
      split; [exact Hall | intros _; exact Hnonempty].
    + destruct (Hstep (run, rest)) as [Hall Hnonempty]; [by split|].
      split; [exact Hall | intros _; exact Hnonempty].
Qed.

(** The engine's sort under a comparator that reads its first argument
    only: the [front] elements come first, whatever the length. *)
Theorem ArrayTimSort_frontFirst (l : list A) :
  frontFirst front (ArrayTimSort cmp l).
Proof.
  unfold ArrayTimSort. destruct (Nat.ltb_spec (length l) 2) as [Hshort|Hlong].
  - destruct l as [|x [|y l]]; [| |simpl in Hshort; lia].
    + by exists [], [].
    + destruct (front x) eqn:Hx; [exists [x], [] | exists [], [x]];
        repeat split; by repeat constructor.
  - cbv zeta.
    pose proof (ArrayTimSort_runs_goodRun (length l)
                  (ComputeMinRunLength (length l)) kMinGallopWins [] l
                  ltac:(constructor)) as [Hruns Hne].
    destruct (ArrayTimSort_runs cmp _ _ _ [] l) as [runs g]. cbn [fst] in Hruns, Hne.
    assert (runs ≠ []) as Hrunsne.
    { apply Hne. right. split; [|lia]. destruct l; [simpl in Hlong; lia | done]. }
    destruct (MergeForceCollapse_goodRun (length runs) g runs Hruns Hrunsne
                ltac:(lia)) as (run & Heq & [Hfront _]).
    destruct (MergeForceCollapse cmp (length runs) g runs) as [final g'].
    cbn [fst] in Heq. subst final. cbn [rev app concat]. by rewrite app_nil_r.
Qed.

End OneSidedMerge.

(** ** The pinned-activator selector *)

Section Selector.
Variable deps : Deps.

Lemma webhookFirst_oneSided : webhookFirst = oneSided endsInWebhook.
Proof. reflexivity. Qed.

Lemma find_name_in_set (parents : list string) (acts : list INode) :
  find (λ a, bool_decide (name a ∈ (list_to_set parents : gset string))) acts
  = find (λ a, bool_decide (name a ∈ parents)) acts.
Proof.
  induction acts as [|a acts IH]; [done|]. simpl. rewrite IH.
  by rewrite (bool_decide_ext _ _ (elem_of_list_to_set (name a) parents)).
Qed.

Lemma find_unique (P : INode → bool) (acts : list INode) (a : INode) :
  a ∈ acts → P a = true → (∀ b, b ∈ acts → P b = true → b = a) →
  find P acts = Some a.
Proof.
  induction acts as [|x acts IH]; intros Hin Ha Huniq.
  - by apply elem_of_nil in Hin.
  - simpl. destruct (P x) eqn:Hx.
    + f_equal. apply Huniq; [left | done].
    + apply IH; [|done|].
      * apply elem_of_cons in Hin as [->|Hin]; [congruence | done].
      * intros b Hb. apply Huniq. by right.
Qed.

Lemma find_all_false (P : INode → bool) (acts : list INode) :
  (∀ b, b ∈ acts → P b = false) → find P acts = None.
Proof.
  induction acts as [|x acts IH]; intros Hall; [done|].
  simpl. rewrite (Hall x) by left. apply IH. intros b Hb. apply Hall. by right.
Qed.

(** The selector on a full execution, spelled out. *)
Lemma selectPinnedActivatorStarter_full (workflow : IWorkflowBase)
    (pinData : IPinData) (destinationNode : option string) :
  selectPinnedActivatorStarter deps workflow (Some []) (Some pinData) destinationNode
  = match findAllPinnedActivators deps workflow (Some pinData) with
    | [] => None
    | first :: others =>
        match destinationNode with
        | Some dest =>
            if Js.truthy destinationNode then
              match find (λ a, bool_decide
                                 (name a ∈ getParentNodes deps
                                             (new_Workflow None None workflow) dest))
                      (first :: others) with
              | Some a => Some a
              | None => Some first
              end
            else Some first
        | None => Some first
        end
    end.
Proof.
  unfold selectPinnedActivatorStarter.
  destruct (findAllPinnedActivators deps workflow (Some pinData)) as [|first others];
    [done|].
  destruct destinationNode as [dest|]; [|done].
  destruct (Js.truthy (Some dest)); [|done].
  by rewrite find_name_in_set.
Qed.

Lemma truthy_nonempty (s : string) : s ≠ EmptyString → Js.truthy (Some s) = true.
Proof.
  intros Hs. simpl. destruct (String.eqb_spec s EmptyString); [done | done].
Qed.

(** The selector on a partial execution, spelled out. *)
Lemma selectPinnedActivatorStarter_partial (workflow : IWorkflowBase)
    (pinData : IPinData) (firstStart : string) (others : list string)
    (destinationNode : option string) :
  selectPinnedActivatorStarter deps workflow (Some (firstStart :: others))
    (Some pinData) destinationNode
  = match findAllPinnedActivators deps workflow (Some pinData) with
    | [] => None
    | first :: rest =>
        match getParentNodes deps (new_Workflow None None workflow) firstStart with
        | [] => find (λ pa, String.eqb (name pa) firstStart) (first :: rest)
        | parent :: parents =>
            if bool_decide (name first ∈ parent :: parents) then Some first else None
        end
    end.
Proof.
  unfold selectPinnedActivatorStarter.
  destruct (findAllPinnedActivators deps workflow (Some pinData)) as [|first rest];
    [done|].
  destruct (getParentNodes deps (new_Workflow None None workflow) firstStart)
    as [|parent parents]; [done|].
  set (ps := parent :: parents).
  destruct (find (λ p, String.eqb p (name first)) ps) as [p|] eqn:Hfind.
  - apply find_some in Hfind as [Hin Heq]. apply String.eqb_eq in Heq. subst p.
    rewrite bool_decide_eq_true_2 by (by apply list_elem_of_In).
    simpl. by rewrite String.eqb_refl.
  - rewrite bool_decide_eq_false_2; [done|].
    intros Hin. apply list_elem_of_In in Hin.
    apply (List.find_none _ _ Hfind) in Hin. by rewrite String.eqb_refl in Hin.
Qed.

End Selector.

Lemma filter_without_pinData (ns : list INode) :
  List.filter (isPinnedActivator None) ns = [].
Proof.
  induction ns as [|n ns IH]; [done|].
  simpl. unfold isPinnedActivator at 1. simpl. by rewrite andb_false_r.
Qed.

(** C7.  On Node.js, whatever the workflow and its pin data, the pinned
    activators come out with every node whose type ends in webhook before
    every node whose type does not, and their first element is what a full
    execution without destination starts from.  The comparator reads its
    first argument only, so the order is the work of the engine's sort; it
    is followed here through the runs and merges of that sort, for any
    number of pinned activators. *)
Theorem findAllPinnedActivators_webhook_first (deps : Deps)
    (workflow : IWorkflowBase) (pinData : option IPinData) :
  let ordered := findAllPinnedActivators (onNode deps) workflow pinData in
  (∀ i j a b, ordered !! i = Some a → ordered !! j = Some b →
     endsInWebhook a = true → endsInWebhook b = false → (i < j)%nat)
  ∧ selectPinnedActivatorStarter (onNode deps) workflow (Some []) pinData None
    = head ordered.
Proof.
  intros ordered. split.
  - intros i j a b Hi Hj Ha Hb.
    apply (frontFirst_order endsInWebhook ordered i j a b); try done.
    subst ordered. unfold findAllPinnedActivators. cbn [array_sort onNode].
    rewrite webhookFirst_oneSided. apply ArrayTimSort_frontFirst.
  - destruct pinData as [pd|].
    + rewrite selectPinnedActivatorStarter_full. fold ordered.
      clearbody ordered. by destruct ordered.
    + subst ordered. unfold findAllPinnedActivators.
      by rewrite filter_without_pinData.
Qed.

(** C2, as the code has it.  On a full execution with a destination whose
    name is not empty, a pinned activator that is the only one among the
    destination's ancestors is selected; whatever the destination, when no
    pinned activator is among its ancestors the first pinned activator in
    tie-break order is selected. *)
Theorem selectPinnedActivatorStarter_full_execution (deps : Deps)
    (workflow : IWorkflowBase) (pinData : IPinData) (D : string) :
  let acts := findAllPinnedActivators deps workflow (Some pinData) in
  let ancestors := getParentNodes deps (new_Workflow None None workflow) D in
  let selected :=
    selectPinnedActivatorStarter deps workflow (Some []) (Some pinData) (Some D) in
  (D ≠ EmptyString →
   ∀ A, A ∈ acts → name A ∈ ancestors →
        (∀ B, B ∈ acts → name B ∈ ancestors → B = A) →
        selected = Some A)
  ∧ ((∀ B, B ∈ acts → name B ∉ ancestors) → selected = head acts).
Proof.
  intros acts ancestors selected. subst selected.
  rewrite selectPinnedActivatorStarter_full. fold acts. fold ancestors.
  split.
  - intros HD A HA Hanc Huniq. rewrite truthy_nonempty by done.
    destruct acts as [|first others]; [by apply elem_of_nil in HA|].
    rewrite (find_unique _ _ A); [done | done | by apply bool_decide_eq_true_2 |].
    intros B HB HBanc. apply Huniq; [done|]. by apply bool_decide_eq_true_1 in HBanc.
  - intros Hnone. destruct acts as [|first others]; [done|].
    destruct (Js.truthy (Some D)); [|done].
    rewrite find_all_false; [done|].
    intros B HB. apply bool_decide_eq_false_2. by apply Hnone.
Qed.

(** C3, as the code has it.  A partial execution looks at the ancestors of
    the first start node only.  When that node has ancestors, the first
    pinned activator in tie-break order is selected if its name is among
    them, and nothing otherwise; when it has none, the pinned activator
    carrying the start node's own name is selected, if there is one. *)
Theorem selectPinnedActivatorStarter_partial_execution (deps : Deps)
    (workflow : IWorkflowBase) (pinData : IPinData)
    (firstStart : string) (others : list string) (D : option string) :
  let acts := findAllPinnedActivators deps workflow (Some pinData) in
  let ancestors := getParentNodes deps (new_Workflow None None workflow) firstStart in
  let selected :=
    selectPinnedActivatorStarter deps workflow (Some (firstStart :: others))
      (Some pinData) D in
  selected
  = selectPinnedActivatorStarter deps workflow (Some [firstStart]) (Some pinData) D
  ∧ (acts = [] → selected = None)
  ∧ (∀ first rest, acts = first :: rest →
       (name first ∈ ancestors → selected = Some first)
       ∧ (ancestors ≠ [] → name first ∉ ancestors → selected = None)
       ∧ (ancestors = [] →
          selected = find (λ pa, String.eqb (name pa) firstStart) acts)).
Proof.
  intros acts ancestors selected. subst selected.
  rewrite !selectPinnedActivatorStarter_partial. fold acts. fold ancestors.
  split; [done|]. split.
  - by intros ->.
  - intros first rest ->. repeat split.
    + intros Hin. destruct ancestors as [|parent parents];
        [by apply elem_of_nil in Hin|].
      by rewrite bool_decide_eq_true_2.
    + intros Hne Hnotin. destruct ancestors as [|parent parents]; [done|].
      by rewrite bool_decide_eq_false_2.
    + by intros ->.
Qed.

Lemma findAllPinnedActivators_webhook_first_witness :
  let d := Sample.deps Sample.seventyPinned false (Returned tt) in
  let ordered :=
    findAllPinnedActivators (onNode d) Sample.seventyPinned
      (pinData Sample.seventyPinned) in
  List.map name ordered
  = [ "N67"; "N64"; "N61"; "N58"; "N55"; "N52"; "N49"; "N46"; "N43"; "N40";
      "N37"; "N34"; "N31"; "N28"; "N25"; "N22"; "N19"; "N16"; "N13"; "N10";
      "N07"; "N04"; "N01"; "N00"; "N02"; "N03"; "N05"; "N06"; "N08"; "N09";
      "N11"; "N12"; "N14"; "N15"; "N17"; "N18"; "N20"; "N21"; "N23"; "N24";
      "N26"; "N27"; "N29"; "N30"; "N32"; "N33"; "N35"; "N36"; "N38"; "N39";
      "N41"; "N42"; "N44"; "N45"; "N47"; "N48"; "N50"; "N51"; "N53"; "N54";
      "N56"; "N57"; "N59"; "N60"; "N62"; "N63"; "N65"; "N66"; "N68"; "N69" ]
  ∧ (∀ i j a b, ordered !! i = Some a → ordered !! j = Some b →
       endsInWebhook a = true → endsInWebhook b = false → (i < j)%nat)
  ∧ selectPinnedActivatorStarter (onNode d) Sample.seventyPinned (Some [])
      (pinData Sample.seventyPinned) None = head ordered.
Proof.
  intros d ordered. split; [by vm_compute|].
  apply (findAllPinnedActivators_webhook_first d Sample.seventyPinned
           (pinData Sample.seventyPinned)).
Defined.

Lemma selectPinnedActivatorStarter_full_execution_witness :
  let d := Sample.deps Sample.triggerThenSet false (Returned tt) in
  "X" ≠ EmptyString
  ∧ Sample.schedule ∈ findAllPinnedActivators d Sample.triggerThenSet
                        (Some (Sample.pin ["T1"]))
  ∧ name Sample.schedule
      ∈ getParentNodes d (new_Workflow None None Sample.triggerThenSet) "X"
  ∧ selectPinnedActivatorStarter d Sample.triggerThenSet (Some [])
      (Some (Sample.pin ["T1"])) (Some "X") = Some Sample.schedule.
Proof.
  intros d.
  assert (findAllPinnedActivators d Sample.triggerThenSet (Some (Sample.pin ["T1"]))
          = [Sample.schedule]) as Hacts by (by vm_compute).
  assert (getParentNodes d (new_Workflow None None Sample.triggerThenSet) "X"
          = ["T1"]) as Hanc by (by vm_compute).
  split; [done|]. split; [rewrite Hacts; by left|].
  split; [rewrite Hanc; by left|].
  apply (proj1 (selectPinnedActivatorStarter_full_execution d Sample.triggerThenSet
                  (Sample.pin ["T1"]) "X")).
  - done.
  - rewrite Hacts. by left.
  - rewrite Hanc. by left.
  - rewrite Hacts. intros B HB _. by apply list_elem_of_singleton in HB.
Defined.

(** A destination whose name is the empty string counts as no destination:
    the only pinned activator among its ancestors is passed over. *)
Lemma selectPinnedActivatorStarter_empty_destination :
  ¬ (∀ (deps : Deps) (workflow : IWorkflowBase) (pinData : IPinData)
       (D : string) (A : INode),
       let acts := findAllPinnedActivators deps workflow (Some pinData) in
       let ancestors := getParentNodes deps (new_Workflow None None workflow) D in
       A ∈ acts → name A ∈ ancestors →
       (∀ B, B ∈ acts → name B ∈ ancestors → B = A) →
       selectPinnedActivatorStarter deps workflow (Some []) (Some pinData) (Some D)
       = Some A).
Proof.
  intros Hclaim.
  pose (d := Sample.deps Sample.unnamedTarget false (Returned tt)).
  assert (findAllPinnedActivators d Sample.unnamedTarget
            (Some (Sample.pin ["T1"; "T2"]))
          = [Sample.schedule; Sample.cron]) as Hacts by (by vm_compute).
  assert (getParentNodes d (new_Workflow None None Sample.unnamedTarget) EmptyString
          = ["T2"]) as Hanc by (by vm_compute).
  specialize (Hclaim d Sample.unnamedTarget (Sample.pin ["T1"; "T2"])
                EmptyString Sample.cron).
  cbv zeta in Hclaim. rewrite Hacts, Hanc in Hclaim.
  assert (selectPinnedActivatorStarter d Sample.unnamedTarget (Some [])
            (Some (Sample.pin ["T1"; "T2"])) (Some EmptyString)
          = Some Sample.schedule) as Hcode by (by vm_compute).
  rewrite Hcode in Hclaim.
  assert (Some Sample.schedule = Some Sample.cron) as Habs; [|discriminate Habs].
  apply Hclaim.
  - right. by left.
  - by left.
  - intros B HB HBanc.
    apply list_elem_of_singleton in HBanc.
    apply elem_of_cons in HB as [->|HB]; [discriminate HBanc|].
    by apply list_elem_of_singleton in HB.
Qed.

Lemma selectPinnedActivatorStarter_partial_execution_witness :
  let d := Sample.deps Sample.triggerThenSet false (Returned tt) in
  findAllPinnedActivators d Sample.triggerThenSet (Some (Sample.pin ["T1"]))
  = [Sample.schedule]
  ∧ name Sample.schedule
      ∈ getParentNodes d (new_Workflow None None Sample.triggerThenSet) "X"
  ∧ selectPinnedActivatorStarter d Sample.triggerThenSet (Some ["X"; "T1"])
      (Some (Sample.pin ["T1"])) (Some "X") = Some Sample.schedule.
Proof.
  intros d.
  assert (findAllPinnedActivators d Sample.triggerThenSet (Some (Sample.pin ["T1"]))
          = [Sample.schedule]) as Hacts by (by vm_compute).
  assert (name Sample.schedule
            ∈ getParentNodes d (new_Workflow None None Sample.triggerThenSet) "X")
    as Hanc by (vm_compute; by left).
  split; [exact Hacts|]. split; [exact Hanc|].
  destruct (selectPinnedActivatorStarter_partial_execution d Sample.triggerThenSet
              (Sample.pin ["T1"]) "X" ["T1"] (Some "X")) as (_ & _ & Hcases).
  destruct (Hcases Sample.schedule [] Hacts) as (Hfirst & _ & _).
  exact (Hfirst Hanc).
Defined.

(** A start node that is itself a pinned activator is not selected once it
    has ancestors, none of which is the first pinned activator. *)
Lemma selectPinnedActivatorStarter_start_node_with_parents :
  ¬ (∀ (deps : Deps) (workflow : IWorkflowBase) (pinData : IPinData)
       (firstStart : string) (others : list string) (first a : INode)
       (rest : list INode),
       let acts := findAllPinnedActivators deps workflow (Some pinData) in
       let ancestors :=
         getParentNodes deps (new_Workflow None None workflow) firstStart in
       acts = first :: rest → name first ∉ ancestors →
       a ∈ acts → name a = firstStart →
       selectPinnedActivatorStarter deps workflow (Some (firstStart :: others))
         (Some pinData) None = Some a).
Proof.
  intros Hclaim.
  pose (d := Sample.deps Sample.triggerWithParent false (Returned tt)).
  specialize (Hclaim d Sample.triggerWithParent (Sample.pin ["T1"; "T2"])
                "T2" [] Sample.schedule Sample.cron [Sample.cron]).
  cbv zeta in Hclaim.
  assert (selectPinnedActivatorStarter d Sample.triggerWithParent (Some ["T2"])
            (Some (Sample.pin ["T1"; "T2"])) None = None) as Hcode by (by vm_compute).
  rewrite Hcode in Hclaim.
  assert (@None INode = Some Sample.cron) as Habs; [|discriminate Habs].
  apply Hclaim.
  - by vm_compute.
  - assert (getParentNodes d (new_Workflow None None Sample.triggerWithParent) "T2"
            = ["X"]) as -> by (by vm_compute).
    intros Hin. by apply list_elem_of_singleton in Hin.
  - assert (findAllPinnedActivators d Sample.triggerWithParent
              (Some (Sample.pin ["T1"; "T2"]))
            = [Sample.schedule; Sample.cron]) as -> by (by vm_compute).
    right. by left.
  - done.
Qed.

(** ** The payload builder *)

Lemma getNode_absent (inst : Workflow) (nodeName : string) :
  (∀ n, n ∈ w_nodes inst → name n ≠ nodeName) → getNode inst nodeName = None.
Proof.
  intros Habsent. unfold getNode. apply find_all_false.
  intros n Hn. apply String.eqb_neq. by apply Habsent.
Qed.

Lemma events_since_app (w : World) (e : IWorkflowBase) (evs : list Event) :
  events_since w {| entity := e; trace := trace w ++ evs |} = evs.
Proof. unfold events_since. simpl. by rewrite drop_app_length. Qed.

(** C4.  A custom-trigger request naming a node the workflow does not have
    makes the builder throw a bad-request error, and the workflow object is
    then as it was before the call, its pin data included. *)
Theorem buildExecutionPayload_unknown_trigger (inst : Workflow)
    (inputData : option IDataObject) (options : ExecuteOptions)
    (previousRunData : option IRunData) (previousPinData : option IPinData)
    (triggerData : TriggerData) (w : World) :
  o_triggerData options = Some triggerData →
  (∀ n, n ∈ w_nodes inst → name n ≠ triggerName triggerData) →
  let result :=
    buildExecutionPayload inst inputData options previousRunData
      previousPinData w in
  (∃ msg, fst result = Thrown (new_error BadRequestError msg))
  ∧ entity (snd result) = entity w
  ∧ pinData (entity (snd result)) = pinData (entity w)
  ∧ ranWorkflow w (snd result) = false.
Proof.
  intros Htrigger Habsent result. subst result.
  unfold buildExecutionPayload. run_M. rewrite Htrigger.
  rewrite (getNode_absent _ _ Habsent). cbn [fst snd entity].
  split; [by eexists|]. split; [done|]. split; [done|].
  unfold ranWorkflow. by rewrite events_since_app.
Qed.

Lemma buildExecutionPayload_unknown_trigger_witness :
  let options :=
    {| o_destinationNode := None; o_executionId := None; o_dirtyNodes := None;
       o_triggerData := Some {| triggerName := "Missing"; payload := [] |} |} in
  let result :=
    buildExecutionPayload
      (new_Workflow (Some "wf-1") (Some "sample") Sample.mixedPinned)
      None options None None (Sample.world Sample.mixedPinned) in
  (∃ msg, fst result = Thrown (new_error BadRequestError msg))
  ∧ entity (snd result) = Sample.mixedPinned
  ∧ pinData (entity (snd result)) = pinData Sample.mixedPinned
  ∧ ranWorkflow (Sample.world Sample.mixedPinned) (snd result) = false.
Proof.
  intros options.
  apply (buildExecutionPayload_unknown_trigger _ None options None None
           {| triggerName := "Missing"; payload := [] |}
           (Sample.world Sample.mixedPinned)).
  - reflexivity.
  - intros n Hn. simpl in Hn.
    repeat (apply elem_of_cons in Hn as [->|Hn]; [discriminate|]).
    by apply elem_of_nil in Hn.
Defined.

(** What the builder does on a full execution with input data. *)
Lemma buildExecutionPayload_with_input (inst : Workflow) (input : IDataObject)
    (options : ExecuteOptions) (previousRunData : option IRunData)
    (previousPinData : option IPinData) (w : World) :
  o_triggerData options = None →
  isNone previousRunData = true ∨ Js.truthy (o_destinationNode options) = false →
  buildExecutionPayload inst (Some input) options previousRunData previousPinData w
  = match List.filter isActivator (nodes (entity w)) with
    | [] =>
        (Thrown (new_error BadRequestError "Workflow has no trigger or webhook nodes"),
         {| entity := entity w;
            trace := trace w
                     ++ [Log Debug "Building payload: Full execution with input data"] |})
    | first :: rest =>
        let startNode :=
          match find isManualTrigger (first :: rest) with
          | Some node => node
          | None =>
              match find isWebhookLike (first :: rest) with
              | Some node => node
              | None => first
              end
          end in
        (Returned
           {| p_runData := None;
              p_startNodes := Some [];
              p_destinationNode :=
                if Js.truthy (o_destinationNode options)
                then o_destinationNode options else None;
              p_dirtyNodeNames := None;
              p_triggerToStartFrom :=
                Some {| trigger_name := name startNode; trigger_data := None |};
              p_agentRequest := None |},
         {| entity :=
              set_pinData (entity w)
                (Some (<[name startNode := [ {| json := input |} ]]>
                         (default ∅ (pinData (entity w)))));
            trace := (trace w
                      ++ [Log Debug "Building payload: Full execution with input data"])
                     ++ [Log Debug "Selected start node"] |})
    end.
Proof.
  intros Htrigger Hresume. unfold buildExecutionPayload. run_M. rewrite Htrigger.
  assert (negb (isNone previousRunData) && Js.truthy (o_destinationNode options)
          = false) as ->.
  { destruct Hresume as [-> | ->]; [done | by rewrite andb_false_r]. }
  by destruct (List.filter isActivator (nodes (entity w))).
Qed.

Lemma ranWorkflow_app (w : World) (e : IWorkflowBase) (evs : list Event) :
  ranWorkflow w {| entity := e; trace := trace w ++ evs |} = existsb isRun evs.
Proof. unfold ranWorkflow. by rewrite events_since_app. Qed.

(** C5.  A request with input data for a stored workflow without any
    activator node, neither a custom-trigger request nor a partial resume,
    ends in the bad-request error, and the workflow runner is not invoked. *)
Theorem executeWorkflow_without_activators (deps : Deps) (workflowId : string)
    (workflow : IWorkflowBase) (input : IDataObject) (options : ExecuteOptions)
    (user : User) (w0 : World) :
  workflowRepository_findOneBy deps workflowId = Returned (Some workflow) →
  List.filter isActivator (nodes workflow) = [] →
  o_triggerData options = None →
  (Js.truthy (o_executionId options) = false
   ∨ ∃ executionId previous,
       o_executionId options = Some executionId
       ∧ executionRepository_findSingleExecution deps executionId
         = Returned (Some previous)
       ∧ (ex_runData previous = None
          ∨ Js.truthy (o_destinationNode options) = false)) →
  let result := executeWorkflow deps workflowId (Some input) options user w0 in
  fst result
  = Thrown (new_error BadRequestError "Workflow has no trigger or webhook nodes")
  ∧ ranWorkflow w0 (snd result) = false.
Proof.
  intros Hload Hnone Htrigger Hresume result. subst result.
  assert (∀ previousRunData previousPinData evs,
            isNone previousRunData = true
            ∨ Js.truthy (o_destinationNode options) = false →
            buildExecutionPayload
              (new_Workflow (Some (wf_id workflow)) (Some (wf_name workflow)) workflow)
              (Some input) options previousRunData previousPinData
              {| entity := workflow; trace := trace w0 ++ evs |}
            = (Thrown (new_error BadRequestError
                         "Workflow has no trigger or webhook nodes"),
               {| entity := workflow;
                  trace := trace w0
                           ++ evs
                           ++ [Log Debug
                                 "Building payload: Full execution with input data"] |}))
    as Hbuild.
  { intros previousRunData previousPinData evs Hcase.
    rewrite buildExecutionPayload_with_input by done.
    cbn [entity trace]. rewrite Hnone. by rewrite <- app_assoc. }
  unfold executeWorkflow. run_M. rewrite Hload. cbn beta iota.
  destruct (o_executionId options) as [executionId|] eqn:Hid.
  - destruct (Js.truthy (Some executionId)) eqn:Htruthy.
    + destruct Hresume as [Hfresh | (eid & previous & Heid & Hfound & Hpartial)];
        [congruence|].
      injection Heid as <-. rewrite Hfound. cbn beta iota. cbn [fst snd entity trace].
      rewrite <- !app_assoc. rewrite Hbuild.
      * cbn [fst snd]. split; [done|]. by rewrite ranWorkflow_app.
      * destruct Hpartial as [-> | ->]; [by left | by right].
    + cbn [fst snd entity trace]. rewrite Hbuild by (by left).
      cbn [fst snd]. split; [done|]. by rewrite ranWorkflow_app.
  - cbn [fst snd entity trace]. rewrite Hbuild by (by left).
    cbn [fst snd]. split; [done|]. by rewrite ranWorkflow_app.
Qed.

Lemma executeWorkflow_without_activators_witness :
  let d := Sample.deps Sample.noActivators false (Returned tt) in
  let result :=
    executeWorkflow d "wf-1" (Some []) Sample.noOptions Sample.user
      (Sample.world Sample.blank) in
  List.filter isActivator (nodes Sample.noActivators) = []
  ∧ fst result
    = Thrown (new_error BadRequestError "Workflow has no trigger or webhook nodes")
  ∧ ranWorkflow (Sample.world Sample.blank) (snd result) = false.
Proof.
  intros d. split; [reflexivity|].
  apply (executeWorkflow_without_activators d "wf-1" Sample.noActivators []
           Sample.noOptions Sample.user (Sample.world Sample.blank)).
  - reflexivity.
  - reflexivity.
  - reflexivity.
  - left. reflexivity.
Defined.

Lemma find_first_match (P : INode → bool) (acts : list INode) :
  (∃ x, x ∈ acts ∧ P x = true) →
  ∃ s, find P acts = Some s ∧ s ∈ acts ∧ P s = true.
Proof.
  intros (x & Hx & HPx).
  destruct (find P acts) as [s|] eqn:Hfind.
  - exists s. split; [done|]. apply find_some in Hfind as [Hin HP].
    split; [by apply list_elem_of_In | done].
  - apply list_elem_of_In in Hx. apply (List.find_none _ _ Hfind) in Hx. congruence.
Qed.

(** C6.  On a full execution with input data the builder starts from a
    manual trigger if the activators contain one, else from a webhook-like
    activator if there is one, else from the first activator; the start node
    is recorded as the trigger to start from and receives the input as pin
    data.  In particular, when the activators contain one manual trigger it
    is chosen whatever webhooks stand beside it. *)
Theorem buildExecutionPayload_start_priority (inst : Workflow) (input : IDataObject)
    (options : ExecuteOptions) (previousRunData : option IRunData)
    (previousPinData : option IPinData) (w : World)
    (first : INode) (rest : list INode) :
  o_triggerData options = None →
  isNone previousRunData = true ∨ Js.truthy (o_destinationNode options) = false →
  List.filter isActivator (nodes (entity w)) = first :: rest →
  let acts := first :: rest in
  let result :=
    buildExecutionPayload inst (Some input) options previousRunData
      previousPinData w in
  ∃ start p,
    fst result = Returned p
    ∧ p_triggerToStartFrom p
      = Some {| trigger_name := name start; trigger_data := None |}
    ∧ p_startNodes p = Some []
    ∧ pinData (entity (snd result))
      = Some (<[name start := [ {| json := input |} ]]>
                (default ∅ (pinData (entity w))))
    ∧ start ∈ acts
    ∧ ((∃ m, m ∈ acts ∧ isManualTrigger m = true) → isManualTrigger start = true)
    ∧ ((∀ m, m ∈ acts → isManualTrigger m = false) →
       (∃ x, x ∈ acts ∧ isWebhookLike x = true) → isWebhookLike start = true)
    ∧ ((∀ m, m ∈ acts → isManualTrigger m = false) →
       (∀ x, x ∈ acts → isWebhookLike x = false) → start = first)
    ∧ (∀ M, M ∈ acts → isManualTrigger M = true →
         (∀ m, m ∈ acts → isManualTrigger m = true → m = M) → start = M).
Proof.
  intros Htrigger Hresume Hacts acts result. subst result.
  rewrite buildExecutionPayload_with_input by done. rewrite Hacts. fold acts.
  set (start :=
         match find isManualTrigger acts with
         | Some node => node
         | None =>
             match find isWebhookLike acts with
             | Some node => node
             | None => first
             end
         end).
  exists start. eexists. cbn [fst snd entity pinData set_pinData].
  split; [reflexivity|]. cbn [p_triggerToStartFrom p_startNodes].
  split; [done|]. split; [done|]. split; [done|].
  assert (start ∈ acts) as Hin.
  { subst start. destruct (find isManualTrigger acts) as [m|] eqn:Hm.
    - apply find_some in Hm as [Hm _]. by apply list_elem_of_In.
    - destruct (find isWebhookLike acts) as [x|] eqn:Hx.
      + apply find_some in Hx as [Hx _]. by apply list_elem_of_In.
      + by left. }
  split; [done|]. split; [|split; [|split]].
  - intros Hex. destruct (find_first_match _ _ Hex) as (s & Hfind & _ & Hs).
    subst start. by rewrite Hfind.
  - intros Hnoman Hex. subst start.
    rewrite (find_all_false _ _ Hnoman).
    destruct (find_first_match _ _ Hex) as (s & Hfind & _ & Hs). by rewrite Hfind.
  - intros Hnoman Hnoweb. subst start.
    by rewrite (find_all_false _ _ Hnoman), (find_all_false _ _ Hnoweb).
  - intros M HM HMman Huniq.
    destruct (find_first_match isManualTrigger acts) as (s & Hfind & Hs & Hsman);
      [by exists M|].
    subst start. rewrite Hfind. by apply Huniq.
Qed.

Lemma buildExecutionPayload_start_priority_witness :
  let result :=
    buildExecutionPayload
      (new_Workflow (Some "wf-1") (Some "sample") Sample.webhookAndManual)
      (Some [("a", JNumber 1)]) Sample.noOptions None None
      (Sample.world Sample.webhookAndManual) in
  List.filter isActivator (nodes Sample.webhookAndManual)
  = [Sample.webhook; Sample.manual]
  ∧ ∃ p, fst result = Returned p
         ∧ p_triggerToStartFrom p
           = Some {| trigger_name := "M"; trigger_data := None |}.
Proof.
  intros result. split; [reflexivity|].
  destruct (buildExecutionPayload_start_priority
              (new_Workflow (Some "wf-1") (Some "sample") Sample.webhookAndManual)
              [("a", JNumber 1)] Sample.noOptions None None
              (Sample.world Sample.webhookAndManual)
              Sample.webhook [Sample.manual])
    as (start & p & Hp & Htrigger & _ & _ & _ & _ & _ & _ & Hmanual).
  - reflexivity.
  - left. reflexivity.
  - reflexivity.
  - exists p. split; [exact Hp|].
    rewrite Htrigger.
    rewrite (Hmanual Sample.manual); [reflexivity | | reflexivity |].
    + right. left.
    + intros m Hm Hman.
      apply elem_of_cons in Hm as [->|Hm]; [discriminate Hman|].
      by apply list_elem_of_singleton in Hm.
Defined.

(** ** Manual executions *)


(** The run data [executeManually] works with once the destination has been
    looked at. *)
Lemma executeManually_events (deps : Deps) (p : ManualRunPayload) (user : User)
    (pushRef : option string) (streamingEnabled : option bool) (w : World) :
  let runData :=
    match p_destinationNode p with
    | Some dest =>
        if Js.truthy (p_destinationNode p)
           && isDestinationNodeATrigger deps dest (entity w)
        then None else p_runData p
    | None => p_runData p
    end in
  let result := executeManually deps p user pushRef streamingEnabled w in
  (∀ data, Run data ∈ events_since w (snd result) → d_runData data = runData)
  ∧ (∀ q, NeedsWebhook q ∈ events_since w (snd result) → q_runData q = runData)
  ∧ (∀ res, fst result = Returned res → waitingForWebhook res = None →
       ∃ data, Run data ∈ events_since w (snd result))
  ∧ (∀ res, fst result = Returned res → waitingForWebhook res = Some true →
       executionId res = None ∧ ranWorkflow w (snd result) = false).
Proof.
  intros runData result. subst result. unfold executeManually. run_M.
  fold runData.
  set (pinnedTrigger :=
         match
           selectPinnedActivatorStarter deps (entity w)
             (List.map start_name <$> p_startNodes p) (pinData (entity w))
             (p_destinationNode p), p_triggerToStartFrom p
         with
         | Some pt, Some t =>
             if negb (String.eqb (name pt) (trigger_name t)) then None
             else selectPinnedActivatorStarter deps (entity w)
                    (List.map start_name <$> p_startNodes p) (pinData (entity w))
                    (p_destinationNode p)
         | _, _ =>
             selectPinnedActivatorStarter deps (entity w)
               (List.map start_name <$> p_startNodes p) (pinData (entity w))
               (p_destinationNode p)
         end).
  set (data_startNodes :=
         match pinnedTrigger with
         | Some pt =>
             if negb match runData with
                     | Some rd => bool_decide (is_Some (rd !! name pt))
                     | None => false
                     end
             then Some [ {| start_name := name pt; sourceData := None |} ]
             else p_startNodes p
         | None => p_startNodes p
         end).
  set (executionData := if _ && _ then Some _ else None).
  assert (∀ (e : IWorkflowBase) (evs : list Event) (out : Outcome ManualResult),
            (∀ data, Run data ∈ evs → d_runData data = runData) →
            (∀ q, NeedsWebhook q ∈ evs → q_runData q = runData) →
            match out with
            | Returned res =>
                match waitingForWebhook res with
                | None => ∃ data, Run data ∈ evs
                | Some true => executionId res = None ∧ existsb isRun evs = false
                | Some false => True
                end
            | Thrown _ => True
            end →
            let result := (out, {| entity := e; trace := trace w ++ evs |}) in
            (∀ data, Run data ∈ events_since w (snd result) → d_runData data = runData)
            ∧ (∀ q, NeedsWebhook q ∈ events_since w (snd result)
                    → q_runData q = runData)
            ∧ (∀ res, fst result = Returned res → waitingForWebhook res = None →
                 ∃ data, Run data ∈ events_since w (snd result))
            ∧ (∀ res, fst result = Returned res → waitingForWebhook res = Some true →
                 executionId res = None ∧ ranWorkflow w (snd result) = false))
    as Hshape.
  { intros e evs out Hrun Hneeds Hout result. subst result. cbn [fst snd].
    unfold ranWorkflow. rewrite events_since_app.
    split; [done|]. split; [done|]. split.
    - intros res -> Hwait. by rewrite Hwait in Hout.
    - intros res -> Hwait. by rewrite Hwait in Hout. }
  destruct (isNone pinnedTrigger && _) eqn:Hask; cbn beta iota.
  - destruct (getBase deps (user_id user) (wf_id (entity w))) as [[]|e];
      cbn beta iota; cbn [entity trace].
    + destruct (testWebhooks_needsWebhook deps _) as [[|]|e]; cbn beta iota;
        cbn [entity trace fst snd].
      * rewrite <- !app_assoc. apply Hshape; [by trace_member ..|done].
      * destruct (workflowRunner_run deps _) as [id|e]; cbn beta iota;
          cbn [entity trace fst snd]; rewrite <- !app_assoc;
          (apply Hshape; [by trace_member ..|]); cbn.
        -- eexists. right. right. left.
        -- done.
      * rewrite <- !app_assoc. apply Hshape; [by trace_member ..|done].
    + apply Hshape; [by trace_member ..|done].
  - cbn [entity trace].
    destruct (workflowRunner_run deps _) as [id|e]; cbn beta iota;
      cbn [entity trace fst snd]; (apply Hshape; [by trace_member ..|]); cbn.
    + eexists. left.
    + done.
Qed.

Lemma isDestinationNodeATrigger_true (deps : Deps) (D : string)
    (workflow : IWorkflowBase) :
  (∃ n, n ∈ nodes workflow ∧ name n = D) →
  (∀ n, n ∈ nodes workflow → name n = D → inTriggerGroup deps n = true) →
  isDestinationNodeATrigger deps D workflow = true.
Proof.
  intros Hex Hall. unfold isDestinationNodeATrigger.
  destruct (find_first_match (λ n, String.eqb (name n) D) (nodes workflow))
    as (node & -> & Hin & Hname).
  - destruct Hex as (n & Hn & <-). exists n. split; [done|]. apply String.eqb_refl.
  - apply Hall; [done|]. by apply String.eqb_eq.
Qed.

Lemma isDestinationNodeATrigger_false (deps : Deps) (D : string)
    (workflow : IWorkflowBase) :
  (∀ n, n ∈ nodes workflow → name n = D → inTriggerGroup deps n = false) →
  isDestinationNodeATrigger deps D workflow = false.
Proof.
  intros Hall. unfold isDestinationNodeATrigger.
  destruct (find _ (nodes workflow)) as [node|] eqn:Hfind; [|done].
  apply find_some in Hfind as [Hin Hname].
  apply Hall; [by apply list_elem_of_In | by apply String.eqb_eq].
Qed.

(** C10, as the code has it.  When the destination has a non-empty name
    and names trigger nodes only, the run data of the request is dropped:
    the webhook service and the workflow runner are handed none, and a
    request that gets an execution id did reach the runner.  When no node
    of that name is a trigger, the run data goes through as supplied. *)
Theorem executeManually_trigger_destination (deps : Deps) (p : ManualRunPayload)
    (user : User) (pushRef : option string) (streamingEnabled : option bool)
    (w : World) (D : string) :
  p_destinationNode p = Some D →
  let result := executeManually deps p user pushRef streamingEnabled w in
  let started :=
    ∀ res, fst result = Returned res → waitingForWebhook res = None →
           ∃ data, Run data ∈ events_since w (snd result) in
  (D ≠ EmptyString →
   (∃ n, n ∈ nodes (entity w) ∧ name n = D) →
   (∀ n, n ∈ nodes (entity w) → name n = D → inTriggerGroup deps n = true) →
   (∀ data, Run data ∈ events_since w (snd result) → d_runData data = None)
   ∧ (∀ q, NeedsWebhook q ∈ events_since w (snd result) → q_runData q = None)
   ∧ started)
  ∧ ((∀ n, n ∈ nodes (entity w) → name n = D → inTriggerGroup deps n = false) →
     (∀ data, Run data ∈ events_since w (snd result) → d_runData data = p_runData p)
     ∧ started).
Proof.
  intros Hdest result started. subst started result.
  destruct (executeManually_events deps p user pushRef streamingEnabled w)
    as (Hrun & Hneeds & Hstarted & _).
  rewrite Hdest in Hrun, Hneeds. split.
  - intros Hname Hex Hall.
    rewrite truthy_nonempty, isDestinationNodeATrigger_true in Hrun, Hneeds by done.
    done.
  - intros Hall.
    rewrite isDestinationNodeATrigger_false, andb_false_r in Hrun by done.
    done.
Qed.

Lemma executeManually_trigger_destination_witness :
  let d := Sample.deps Sample.triggerThenSet false (Returned tt) in
  let p :=
    {| p_runData := Some Sample.someRunData;
       p_startNodes := None;
       p_destinationNode := Some "T1";
       p_dirtyNodeNames := None;
       p_triggerToStartFrom := None;
       p_agentRequest := None |} in
  let result :=
    executeManually d p Sample.user None None (Sample.world Sample.triggerThenSet) in
  (∃ id, fst result
         = Returned {| waitingForWebhook := None; executionId := Some id |})
  ∧ (∀ data, Run data ∈ events_since (Sample.world Sample.triggerThenSet) (snd result)
             → d_runData data = None)
  ∧ ∃ data, Run data ∈ events_since (Sample.world Sample.triggerThenSet) (snd result).
Proof.
  intros d p result.
  assert (fst result
          = Returned {| waitingForWebhook := None; executionId := Some "exec-1" |})
    as Hresult by (by vm_compute).
  destruct (executeManually_trigger_destination d p Sample.user None None
              (Sample.world Sample.triggerThenSet) "T1" eq_refl)
    as [Htrigger _].
  destruct Htrigger as (Hrun & _ & Hstarted).
  - discriminate.
  - exists Sample.schedule. split; [by left | reflexivity].
  - intros n Hn Hname. simpl in Hn.
    apply elem_of_cons in Hn as [->|Hn]; [reflexivity|].
    apply list_elem_of_singleton in Hn. subst n. discriminate Hname.
  - split; [by eexists|]. split; [exact Hrun|].
    by apply (Hstarted _ Hresult).
Defined.

(** A trigger whose name is the empty string is a destination that does
    not count: the run data of the request reaches the workflow runner. *)
Lemma executeManually_empty_destination_keeps_run_data :
  ¬ (∀ (deps : Deps) (p : ManualRunPayload) (user : User)
       (pushRef : option string) (streamingEnabled : option bool)
       (w : World) (D : string),
       p_destinationNode p = Some D →
       (∃ n, n ∈ nodes (entity w) ∧ name n = D) →
       (∀ n, n ∈ nodes (entity w) → name n = D → inTriggerGroup deps n = true) →
       ∀ data,
         Run data
           ∈ events_since w
               (snd (executeManually deps p user pushRef streamingEnabled w)) →
         d_runData data = None).
Proof.
  intros Hclaim.
  pose (d := Sample.deps Sample.unnamedTrigger false (Returned tt)).
  pose (p := {| p_runData := Some Sample.someRunData;
                p_startNodes := None;
                p_destinationNode := Some EmptyString;
                p_dirtyNodeNames := None;
                p_triggerToStartFrom := None;
                p_agentRequest := None |}).
  pose (w := Sample.world Sample.unnamedTrigger).
  destruct (executeManually_events d p Sample.user None None w)
    as (Hrun & _ & Hstarted & _).
  assert (fst (executeManually d p Sample.user None None w)
          = Returned {| waitingForWebhook := None; executionId := Some "exec-1" |})
    as Hresult by (by vm_compute).
  destruct (Hstarted _ Hresult eq_refl) as [data Hdata].
  assert (d_runData data = None) as Hnone.
  { apply (Hclaim d p Sample.user None None w EmptyString); [done| | |done].
    - eexists. split; [by left | reflexivity].
    - intros n Hn _. apply list_elem_of_singleton in Hn. by subst n. }
  apply Hrun in Hdata. rewrite Hnone in Hdata. by vm_compute in Hdata.
Qed.

(** An answer with status waiting never carries an execution id: the
    manual result it is read from has none. *)
Lemma executeWorkflow_waiting_answer (deps : Deps) (workflowId : string)
    (inputData : option IDataObject) (options : ExecuteOptions) (user : User)
    (w0 : World) (res : ExecuteResult) :
  fst (executeWorkflow deps workflowId inputData options user w0) = Returned res →
  res_status res = Some "waiting" →
  res_executionId res = None.
Proof.
  unfold executeWorkflow. run_M.
  destruct (workflowRepository_findOneBy deps workflowId) as [[workflow|]|e];
    cbn beta iota; [|done..].
  assert (∀ previous w,
            fst match
                  buildExecutionPayload
                    (new_Workflow (Some (wf_id workflow)) (Some (wf_name workflow))
                       workflow)
                    inputData options (fst previous) (snd previous) w
                with
                | (Returned p, w') =>
                    (λ p,
                       emit (Log Debug "Execution payload built");;
                       result ← executeManually deps p user None None;
                       emit (Log Debug "Workflow execution started");;
                       if default false (waitingForWebhook result)
                       then mret {| res_executionId := executionId result;
                                    res_status := Some "waiting" |}
                       else mret {| res_executionId := executionId result;
                                    res_status := None |}) p w'
                | (Thrown e, w') => (Thrown e, w')
                end = Returned res →
            res_status res = Some "waiting" → res_executionId res = None) as Htail.
  { intros previous w.
    destruct (buildExecutionPayload _ _ _ _ _ _) as [[p|e] w']; [|done].
    run_M.
    destruct (executeManually_events deps p user None None
                {| entity := entity w';
                   trace := trace w' ++ [Log Debug "Execution payload built"] |})
      as (_ & _ & _ & Hwaiting).
    destruct (executeManually deps p user None None _) as [[result|e] w''];
      cbn beta iota; [|done].
    destruct (waitingForWebhook result) as [[|]|] eqn:Hwait; cbn [default fst].
    - intros [= <-] _. cbn. by apply (Hwaiting result).
    - by intros [= <-].
    - by intros [= <-]. }
  destruct (o_executionId options) as [executionId|]; cbn beta iota.
  - destruct (Js.truthy (Some executionId)); cbn beta iota.
    + destruct (executionRepository_findSingleExecution deps executionId)
        as [[previous|]|e]; cbn beta iota; [|done..].
      apply (Htail (ex_runData previous, pinData workflow)).
    + apply (Htail (None, None)).
  - apply (Htail (None, None)).
Qed.

(** C1, on the code.  With a stored workflow that has a webhook and no pin
    data, and a webhook service that asks to wait, [executeWorkflow] answers
    with status waiting and without invoking the workflow runner, but the
    execution id of its answer is [undefined]. *)
Theorem executeWorkflow_waiting_without_executionId :
  let d := Sample.deps Sample.onlyWebhook true (Returned tt) in
  let result :=
    executeWorkflow d "wf-1" None Sample.noOptions Sample.user
      (Sample.world Sample.blank) in
  fst result = Returned {| res_executionId := None; res_status := Some "waiting" |}
  ∧ ranWorkflow (Sample.world Sample.blank) (snd result) = false.
Proof. by vm_compute. Qed.

(** ** The error workflow *)

(** C9, on the code.  The error workflow is found, the policy checker
    accepts the call and the workflow runner rejects with [undefined].  The
    outer catch hands the value to the error reporter and then reads its
    [message] to write the log: that read throws, nothing is logged, and the
    [TypeError] reaches the caller of [executeErrorWorkflow]. *)
Theorem executeErrorWorkflow_rejection_with_undefined :
  let d :=
    Sample.runnerRejecting Undefined
      (Sample.deps Sample.errorHandler false (Returned tt)) in
  let result :=
    executeErrorWorkflow d "wf-1" Sample.failure Sample.project
      (Sample.world Sample.blank) in
  fst result
  = Thrown (new_error TypeError
              "Cannot read properties of undefined (reading 'message')")
  ∧ ∃ checked data,
      events_since (Sample.world Sample.blank) (snd result)
      = [checked; Run data; ReportError Undefined]
      ∧ workflowRunner_run d data = Thrown Undefined.
Proof.
  intros d result. split; [by vm_compute|].
  eexists. eexists. split; [by vm_compute | reflexivity].
Qed.





(** * Further properties *)

(** ** The engine's sort keeps the elements *)

Section ArraySortFacts.
Context {A : Type} (comparefn : A → A → Z).

Lemma insert_pivot_perm (sorted : list A) (pivot : A) :
  insert_pivot comparefn sorted pivot ≡ₚ pivot :: sorted.
Proof.
  unfold insert_pivot.
  set (pos := insertion_point comparefn (length sorted) sorted pivot 0 (length sorted)).
  rewrite <- (take_drop pos sorted) at 3. symmetry. apply Permutation_middle.
Qed.

Lemma BinaryInsertionSort_perm (rest run : list A) :
  BinaryInsertionSort comparefn run rest ≡ₚ run ++ rest.
Proof.
  unfold BinaryInsertionSort. revert run.
  induction rest as [|pivot rest IH]; intros run.
  - by rewrite app_nil_r.
  - simpl. rewrite IH, insert_pivot_perm. simpl. apply Permutation_middle.
Qed.

Lemma CountAndMakeRun_perm (l : list A) :
  fst (CountAndMakeRun comparefn l) ++ snd (CountAndMakeRun comparefn l) ≡ₚ l.
Proof.
  destruct l as [|low [|next rest]]; [done..|].
  unfold CountAndMakeRun. cbv zeta.
  set (k := run_extent comparefn _ next rest).
  cbn [fst snd].
  transitivity ((low :: next :: take k rest) ++ drop k rest).
  - apply Permutation_app_tail.
    destruct (comparefn next low <? 0); [|done].
    symmetry. apply Permutation_rev.
  - simpl. by rewrite take_drop.
Qed.

Lemma short_array_sort_perm (l : list A) : short_array_sort comparefn l ≡ₚ l.
Proof.
  unfold short_array_sort.
  pose proof (CountAndMakeRun_perm l) as Hrun.
  destruct (CountAndMakeRun comparefn l) as [run rest].
  by rewrite BinaryInsertionSort_perm.
Qed.

End ArraySortFacts.

Section ArrayTimSortFacts.
Context {A : Type} (comparefn : A → A → Z).
Local Open Scope nat_scope.

(** Whatever the comparator answers, the merges keep the elements. *)
Lemma MergeLow_loops_perm (fuel : nat) :
  (∀ minGallop nofWinsA nofWinsB (out tempA runB : list A),
     fst (MergeLow_linear comparefn fuel minGallop nofWinsA nofWinsB out tempA runB)
     ≡ₚ out ++ tempA ++ runB)
  ∧ (∀ minGallop (out tempA runB : list A),
       fst (MergeLow_gallop comparefn fuel minGallop out tempA runB)
       ≡ₚ out ++ tempA ++ runB).
Proof.
  induction fuel as [|fuel [IHlinear IHgallop]]; [by split|]. split.
  - intros minGallop nofWinsA nofWinsB out tempA runB. cbn [MergeLow_linear].
    destruct tempA as [|a tempA']; [done|]. destruct runB as [|b runB']; [done|].
    cbv zeta. destruct (comparefn b a <? 0)%Z.
    + destruct runB' as [|b' runB'']; [cbn [fst]; solve_Permutation|].
      destruct (minGallop <=? S nofWinsB);
        [rewrite IHgallop | rewrite IHlinear]; solve_Permutation.
    + destruct tempA' as [|a' [|a'' rest]];
        try (cbn [fst]; solve_Permutation);
        (destruct (minGallop <=? S nofWinsA);
           [rewrite IHgallop | rewrite IHlinear]; solve_Permutation).
  - intros minGallop out tempA runB. cbn [MergeLow_gallop]. cbv zeta.
    destruct runB as [|b runB']; [cbn [fst]; solve_Permutation|].
    set (k := GallopRight comparefn tempA b 0). clearbody k.
    pose proof (take_drop k tempA) as HsplitA.
    set (wonA := take k tempA) in *. set (leftA := drop k tempA) in *.
    clearbody wonA leftA. subst tempA.
    destruct leftA as [|a leftA'].
    { cbn [length Nat.eqb]. rewrite andb_false_r, andb_true_r.
      destruct (0 <? k); [cbn [fst]; solve_Permutation|].
      destruct runB'; cbn [fst]; solve_Permutation. }
    destruct ((0 <? k) && (length (a :: leftA') =? 1));
      [cbn [fst]; solve_Permutation|].
    cbn [length Nat.eqb]. rewrite andb_false_r.
    destruct runB' as [|b' runB'']; [cbn [fst]; solve_Permutation|].
    set (runB1 := b' :: runB'') in *.
    set (k' := GallopLeft comparefn runB1 a 0). clearbody k'.
    pose proof (take_drop k' runB1) as HsplitB.
    set (wonB := take k' runB1) in *. set (leftB := drop k' runB1) in *.
    clearbody wonB leftB runB1. subst runB1.
    destruct leftB as [|b'' leftB'].
    { cbn [length Nat.eqb]. rewrite andb_true_r.
      destruct (0 <? k'); [cbn [fst]; solve_Permutation|].
      destruct (length leftA' =? 1); [cbn [fst]; solve_Permutation|].
      destruct (_ || _); [rewrite IHgallop | rewrite IHlinear]; solve_Permutation. }
    cbn [length Nat.eqb]. rewrite andb_false_r.
    destruct (length leftA' =? 1); [cbn [fst]; solve_Permutation|].
    destruct (_ || _); [rewrite IHgallop | rewrite IHlinear]; solve_Permutation.
Qed.


Lemma MergeHigh_loops_perm (fuel : nat) :
  (∀ minGallop nofWinsA nofWinsB (revA tempB out : list A),
     fst (MergeHigh_linear comparefn fuel minGallop nofWinsA nofWinsB revA tempB out)
     ≡ₚ revA ++ tempB ++ out)
  ∧ (∀ minGallop (revA tempB out : list A),
       fst (MergeHigh_gallop comparefn fuel minGallop revA tempB out)
       ≡ₚ revA ++ tempB ++ out).
Proof.
  induction fuel as [|fuel [IHlinear IHgallop]].
  { split; intros; cbn [MergeHigh_linear MergeHigh_gallop fst];
      rewrite <- !Permutation_rev; done. }
  split.
  - intros minGallop nofWinsA nofWinsB revA tempB out. cbn [MergeHigh_linear].
    destruct revA as [|a revA'];
      [cbn [fst]; by rewrite <- !Permutation_rev|].
    destruct tempB as [|b tempB'];
      [cbn [fst]; by rewrite <- !Permutation_rev|].
    cbv zeta. destruct (comparefn b a <? 0)%Z.
    + destruct revA' as [|a' revA''];
        [cbn [fst]; rewrite <- !Permutation_rev; solve_Permutation|].
      destruct (minGallop <=? S nofWinsA);
        [rewrite IHgallop | rewrite IHlinear]; solve_Permutation.
    + destruct tempB' as [|b' [|b'' rest]];
        try (cbn [fst]; rewrite <- !Permutation_rev; solve_Permutation);
        (destruct (minGallop <=? S nofWinsB);
           [rewrite IHgallop | rewrite IHlinear]; solve_Permutation).
  - intros minGallop revA tempB out. cbn [MergeHigh_gallop]. cbv zeta.
    destruct tempB as [|b tempB'];
      [cbn [fst]; rewrite <- !Permutation_rev; solve_Permutation|].
    transitivity (rev revA ++ (b :: tempB') ++ out);
      [|by rewrite <- Permutation_rev].
    set (runA := rev revA). clearbody runA. clear revA.
    set (k := GallopRight comparefn runA b (length runA - 1)). clearbody k.
    pose proof (take_drop k runA) as HsplitA.
    set (leftA := take k runA) in *. set (wonA := drop k runA) in *.
    set (n := length runA - k). clearbody leftA wonA n. subst runA.
    destruct leftA as [|a0 leftA0].
    { cbn [length Nat.eqb]. rewrite andb_true_r.
      destruct (0 <? n); [cbn [fst]; rewrite <- !Permutation_rev; solve_Permutation|].
      destruct (length tempB' =? 1);
        cbn [rev fst]; rewrite <- ?Permutation_rev; solve_Permutation. }
    cbn [length Nat.eqb]. rewrite andb_false_r.
    destruct (length tempB' =? 1);
      [cbn [fst]; rewrite <- ?Permutation_rev; solve_Permutation|].
    destruct (rev (a0 :: leftA0)) as [|a revA'] eqn:Hrev.
    { apply (f_equal (@length A)) in Hrev. rewrite length_rev in Hrev. done. }
    assert (a0 :: leftA0 ≡ₚ a :: revA') as HpermA
      by (rewrite <- Hrev; apply Permutation_rev).
    set (runA := a0 :: leftA0) in *. clearbody runA. clear Hrev.
    transitivity ((runA ++ wonA) ++ (b :: rev tempB') ++ out);
      [|rewrite <- Permutation_rev; solve_Permutation].
    set (runB := rev tempB'). clearbody runB.
    set (k2 := GallopLeft comparefn runB a (length runB - 1)). clearbody k2.
    pose proof (take_drop k2 runB) as HsplitB.
    set (leftB := take k2 runB) in *. set (wonB := drop k2 runB) in *.
    set (n2 := length runB - k2). clearbody leftB wonB n2. subst runB.
    assert (∀ (leftB : list A) (result : list A * nat),
              fst result ≡ₚ leftB ++ a :: wonB ++ b :: wonA ++ out →
              revA' = [] →
              fst result ≡ₚ (runA ++ wonA) ++ (b :: leftB ++ wonB) ++ out)
      as Hlast.
    { intros leftB' result Hresult ->. rewrite Hresult, HpermA. solve_Permutation. }
    assert (∀ leftB : list A,
              fst (if (kMinGallopWins <=? n) || (kMinGallopWins <=? n2)
                   then MergeHigh_gallop comparefn fuel (1 `max` (minGallop - 1))
                          revA' (rev leftB) (a :: wonB ++ b :: wonA ++ out)
                   else MergeHigh_linear comparefn fuel
                          (S (1 `max` (minGallop - 1))) 0 0 revA' (rev leftB)
                          (a :: wonB ++ b :: wonA ++ out))
              ≡ₚ (runA ++ wonA) ++ (b :: leftB ++ wonB) ++ out) as Hnext.
    { intros leftB'. destruct (_ || _); [rewrite IHgallop | rewrite IHlinear];
        rewrite <- Permutation_rev, HpermA; solve_Permutation. }
    destruct leftB as [|b0 [|b1 leftB1]]; cbn [length Nat.eqb];
      rewrite ?andb_true_r, ?andb_false_r.
    + destruct (0 <? n2); [cbn [fst]; solve_Permutation|].
      destruct revA' as [|a' revA'']; [by apply (Hlast [] (_, _))|]. apply Hnext.
    + destruct (0 <? n2); [cbn [fst]; solve_Permutation|].
      destruct revA' as [|a' revA'']; [by apply (Hlast [b0] (_, _))|]. apply Hnext.
    + destruct revA' as [|a' revA''];
        [by apply (Hlast (b0 :: b1 :: leftB1) (_, _))|]. apply Hnext.
Qed.

Lemma MergeLow_perm (minGallop : nat) (runA runB : list A) :
  fst (MergeLow comparefn minGallop runA runB) ≡ₚ runA ++ runB.
Proof.
  unfold MergeLow. destruct runB as [|b [|b' runB'']].
  - cbn [fst]. by rewrite app_nil_r.
  - destruct runA; cbn [fst]; solve_Permutation.
  - destruct runA as [|a [|a' runA'']];
      try (cbn [fst]; solve_Permutation);
      rewrite (proj1 (MergeLow_loops_perm _)); solve_Permutation.
Qed.

Lemma MergeHigh_perm (minGallop : nat) (runA runB : list A) :
  fst (MergeHigh comparefn minGallop runA runB) ≡ₚ runA ++ runB.
Proof.
  unfold MergeHigh. destruct (rev runA) as [|a revA'] eqn:Hrev.
  { apply (f_equal (@rev A)) in Hrev. rewrite rev_involutive in Hrev. by subst. }
  assert (runA ≡ₚ a :: revA') as HpermA by (rewrite <- Hrev; apply Permutation_rev).
  destruct revA' as [|a' revA''].
  { cbn [fst]. rewrite HpermA. solve_Permutation. }
  destruct runB as [|b [|b' runB'']];
    try (cbn [fst]; solve_Permutation);
    rewrite (proj1 (MergeHigh_loops_perm _)), <- ?Permutation_rev, HpermA;
    solve_Permutation.
Qed.

Lemma MergeAt_perm (minGallop : nat) (runA runB : list A) :
  fst (MergeAt comparefn minGallop runA runB) ≡ₚ runA ++ runB.
Proof.
  unfold MergeAt. destruct runB as [|keyRight runB']; [cbn [fst]; by rewrite app_nil_r|].
  set (runB := keyRight :: runB').
  set (k := GallopRight comparefn runA keyRight 0). clearbody k.
  destruct (rev (drop k runA)) as [|keyLeft revA]; [done|].
  set (lengthB := GallopLeft comparefn runB keyLeft (length runB - 1)).
  clearbody lengthB.
  destruct (take lengthB runB) as [|b restB] eqn:HrestB; [done|]. rewrite <- HrestB.
  transitivity ((take k runA ++ drop k runA)
                ++ (take lengthB runB ++ drop lengthB runB));
    [|by rewrite !take_drop].
  destruct (length (drop k runA) <=? length (take lengthB runB)).
  - pose proof (MergeLow_perm minGallop (drop k runA) (take lengthB runB)) as Hmerged.
    destruct (MergeLow comparefn minGallop _ _) as [merged g]. cbn [fst] in *.
    rewrite Hmerged. solve_Permutation.
  - pose proof (MergeHigh_perm minGallop (drop k runA) (take lengthB runB)) as Hmerged.
    destruct (MergeHigh comparefn minGallop _ _) as [merged g]. cbn [fst] in *.
    rewrite Hmerged. solve_Permutation.
Qed.

Lemma MergeCollapse_perm (fuel minGallop : nat) (pendingRuns : list (list A)) :
  concat (rev (fst (MergeCollapse comparefn fuel minGallop pendingRuns)))
  ≡ₚ concat (rev pendingRuns).
Proof.
  revert minGallop pendingRuns.
  induction fuel as [|fuel IH]; intros minGallop pendingRuns; [done|].
  cbn [MergeCollapse]. destruct pendingRuns as [|runN1 [|runN below]]; [done..|].
  assert (∀ g,
            concat (rev (fst (let '(merged, minGallop) :=
                                MergeAt comparefn g runN runN1 in
                              MergeCollapse comparefn fuel minGallop
                                (merged :: below))))
            ≡ₚ concat (rev (runN1 :: runN :: below))) as Htop.
  { intros g. pose proof (MergeAt_perm g runN runN1) as Hmerged.
    destruct (MergeAt comparefn g runN runN1) as [merged g']. cbn [fst] in Hmerged.
    rewrite IH. cbn [rev]. rewrite !concat_app. cbn [concat].
    rewrite Hmerged. solve_Permutation. }
  destruct below as [|runNM below'].
  - destruct (length runN <=? length runN1); [apply Htop | done].
  - destruct (_ || _).
    + destruct (length runNM <? length runN1); [|apply Htop].
      pose proof (MergeAt_perm minGallop runNM runN) as Hmerged.
      destruct (MergeAt comparefn minGallop runNM runN) as [merged g'].
      cbn [fst] in Hmerged.
      rewrite IH. cbn [rev]. rewrite !concat_app. cbn [concat].
      rewrite Hmerged. solve_Permutation.
    + destruct (length runN <=? length runN1); [apply Htop | done].
Qed.

Lemma MergeForceCollapse_perm (fuel minGallop : nat) (pendingRuns : list (list A)) :
  concat (rev (fst (MergeForceCollapse comparefn fuel minGallop pendingRuns)))
  ≡ₚ concat (rev pendingRuns).
Proof.
  revert minGallop pendingRuns.
  induction fuel as [|fuel IH]; intros minGallop pendingRuns; [done|].
  cbn [MergeForceCollapse].
  destruct pendingRuns as [|runN1 [|runN below]]; [done..|].
  assert (∀ g,
            concat (rev (fst (let '(merged, minGallop) :=
                                MergeAt comparefn g runN runN1 in
                              MergeForceCollapse comparefn fuel minGallop
                                (merged :: below))))
            ≡ₚ concat (rev (runN1 :: runN :: below))) as Htop.
  { intros g. pose proof (MergeAt_perm g runN runN1) as Hmerged.
    destruct (MergeAt comparefn g runN runN1) as [merged g']. cbn [fst] in Hmerged.
    rewrite IH. cbn [rev]. rewrite !concat_app. cbn [concat].
    rewrite Hmerged. solve_Permutation. }
  destruct below as [|runNM below']; [apply Htop|].
  destruct (length runNM <? length runN1); [|apply Htop].
  pose proof (MergeAt_perm minGallop runNM runN) as Hmerged.
  destruct (MergeAt comparefn minGallop runNM runN) as [merged g'].
  cbn [fst] in Hmerged.
  rewrite IH. cbn [rev]. rewrite !concat_app. cbn [concat].
  rewrite Hmerged. solve_Permutation.
Qed.

Lemma CountAndMakeRun_length (l : list A) :
  length (fst (CountAndMakeRun comparefn l)) + length (snd (CountAndMakeRun comparefn l))
  = length l.
Proof.
  rewrite <- length_app. apply Permutation_length, CountAndMakeRun_perm.
Qed.

Lemma CountAndMakeRun_progress (x : A) (l : list A) :
  0 < length (fst (CountAndMakeRun comparefn (x :: l))).
Proof.
  destruct l as [|y l]; [simpl; lia|].
  unfold CountAndMakeRun. cbv zeta. destruct (_ <? _)%Z; cbn [fst];
    rewrite ?length_rev; simpl; lia.
Qed.

(** With as many rounds as there are elements, the runs found and merged
    hold every element. *)
Lemma ArrayTimSort_runs_perm (fuel minRunLength minGallop : nat)
    (pendingRuns : list (list A)) (remaining : list A) :
  length remaining ≤ fuel →
  concat (rev (fst (ArrayTimSort_runs comparefn fuel minRunLength minGallop
                      pendingRuns remaining)))
  ≡ₚ concat (rev pendingRuns) ++ remaining.
Proof.
  revert minGallop pendingRuns remaining.
  induction fuel as [|fuel IH]; intros minGallop pendingRuns remaining Hfuel.
  - destruct remaining; [|simpl in Hfuel; lia]. cbn [ArrayTimSort_runs fst].
    by rewrite app_nil_r.
  - cbn [ArrayTimSort_runs]. destruct remaining as [|x remaining'].
    { cbn [fst]. by rewrite app_nil_r. }
    pose proof (CountAndMakeRun_perm comparefn (x :: remaining')) as Hperm.
    pose proof (CountAndMakeRun_length (x :: remaining')) as Hlength.
    pose proof (CountAndMakeRun_progress x remaining') as Hprogress.
    destruct (CountAndMakeRun comparefn (x :: remaining')) as [run rest].
    cbn [fst snd] in Hperm, Hlength, Hprogress.
    assert (∀ extended : list A * list A,
              fst extended ++ snd extended ≡ₚ run ++ rest →
              length (snd extended) ≤ length rest →
              concat (rev (fst (let '(run, rest) := extended in
                                let '(pendingRuns, minGallop) :=
                                  MergeCollapse comparefn (S (length pendingRuns))
                                    minGallop (run :: pendingRuns) in
                                ArrayTimSort_runs comparefn fuel minRunLength
                                  minGallop pendingRuns rest)))
              ≡ₚ concat (rev pendingRuns) ++ x :: remaining') as Hstep.
    { intros [run' rest'] Hextended Hshorter. cbn [fst snd] in Hextended, Hshorter.
      pose proof (MergeCollapse_perm (S (length pendingRuns)) minGallop
                    (run' :: pendingRuns)) as Hcollapsed.
      destruct (MergeCollapse comparefn _ minGallop (run' :: pendingRuns))
        as [runs g].
      cbn [fst] in Hcollapsed. rewrite IH by (simpl in *; lia).
      rewrite Hcollapsed. cbn [rev]. rewrite concat_app. cbn [concat].
      rewrite app_nil_r, <- Hperm, <- Hextended. solve_Permutation. }
    cbv zeta. destruct (length run <? minRunLength).
    + apply (Hstep (BinaryInsertionSort comparefn run
                      (take (minRunLength `min` length (x :: remaining')
                             - length run) rest),
                    drop (minRunLength `min` length (x :: remaining')
                          - length run) rest)); cbn [fst snd].
      * rewrite BinaryInsertionSort_perm, <- app_assoc. by rewrite take_drop.
      * rewrite length_drop. lia.
    + by apply (Hstep (run, rest)).
Qed.

(** The sort returns the elements it was given. *)
Lemma ArrayTimSort_perm (l : list A) : ArrayTimSort comparefn l ≡ₚ l.
Proof.
  unfold ArrayTimSort. destruct (length l <? 2); [done|]. cbv zeta.
  pose proof (ArrayTimSort_runs_perm (length l) (ComputeMinRunLength (length l))
                kMinGallopWins [] l ltac:(done)) as Hruns.
  destruct (ArrayTimSort_runs comparefn _ _ _ [] l) as [runs g]. cbn [fst] in Hruns.
  pose proof (MergeForceCollapse_perm (length runs) g runs) as Hcollapsed.
  destruct (MergeForceCollapse comparefn (length runs) g runs) as [final g'].
  cbn [fst] in Hcollapsed. by rewrite Hcollapsed, Hruns.
Qed.

(** Below 64 elements the sort is the single run of [short_array_sort]. *)
Lemma ArrayTimSort_runs_short (fuel minGallop : nat) (x : A) (l : list A) :
  fst (ArrayTimSort_runs comparefn (S fuel) (length (x :: l)) minGallop [] (x :: l))
  = [short_array_sort comparefn (x :: l)].
Proof.
  cbn [ArrayTimSort_runs]. unfold short_array_sort.
  pose proof (CountAndMakeRun_length (x :: l)) as Hlength.
  destruct (CountAndMakeRun comparefn (x :: l)) as [run rest].
  cbn [fst snd] in Hlength. cbv zeta. rewrite Nat.min_id.
  assert ((if length run <? length (x :: l)
           then (BinaryInsertionSort comparefn run
                   (take (length (x :: l) - length run) rest),
                 drop (length (x :: l) - length run) rest)
           else (run, rest))
          = (BinaryInsertionSort comparefn run rest, [])) as ->.
  { destruct (Nat.ltb_spec (length run) (length (x :: l))) as [Hlt|Hge].
    - rewrite firstn_all2, drop_ge by (cbn [length] in *; lia). done.
    - destruct rest; [done | cbn [length] in *; lia]. }
  cbn [length MergeCollapse]. by destruct fuel.
Qed.

Lemma ArrayTimSort_short (l : list A) :
  length l < 64 → ArrayTimSort comparefn l = short_array_sort comparefn l.
Proof.
  intros Hshort. unfold ArrayTimSort.
  destruct (Nat.ltb_spec (length l) 2) as [Htiny|Hlong].
  { destruct l as [|x [|y l]]; [done..|simpl in Htiny; lia]. }
  assert (ComputeMinRunLength (length l) = length l) as ->.
  { unfold ComputeMinRunLength. destruct (length l) as [|n] eqn:Hn; [done|].
    cbn [min_run_length]. rewrite (proj2 (Nat.leb_gt 64 (S n))) by lia. lia. }
  destruct l as [|x l']; [simpl in Hlong; lia|].
  pose proof (ArrayTimSort_runs_short (length l') kMinGallopWins x l') as Hruns.
  change (S (length l')) with (length (x :: l')) in Hruns at 1.
  cbv zeta. destruct (ArrayTimSort_runs comparefn _ _ _ [] (x :: l')) as [runs g].
  cbn [fst] in Hruns. subst runs. cbn [length MergeForceCollapse rev app concat].
  by rewrite app_nil_r.
Qed.

End ArrayTimSortFacts.

Section OneSidedOrder.
Context {A : Type} (front : A → bool).

Lemma BinaryInsertionSort_oneSided (rest run : list A) :
  BinaryInsertionSort (oneSided front) run rest
  = rev (List.filter front rest) ++ run ++ List.filter (λ x, negb (front x)) rest.
Proof.
  unfold BinaryInsertionSort. revert run.
  induction rest as [|pivot rest IH]; intros run.
  - simpl. by rewrite app_nil_r.
  - simpl. rewrite IH. destruct (front pivot) eqn:Hp; simpl.
    + rewrite insert_pivot_smaller by done. by rewrite <- !app_assoc.
    + rewrite insert_pivot_larger by done. by rewrite <- !app_assoc.
Qed.

Lemma filter_all (P : A → bool) (l : list A) :
  Forall (λ x, P x = true) l → List.filter P l = l.
Proof.
  induction 1 as [|x l Hx _ IH]; [done|]. simpl. by rewrite Hx, IH.
Qed.

Lemma filter_none (P : A → bool) (l : list A) :
  Forall (λ x, P x = false) l → List.filter P l = [].
Proof.
  induction 1 as [|x l Hx _ IH]; [done|]. simpl. by rewrite Hx, IH.
Qed.

(** The order the single-run sort gives under a one-sided comparator: the
    [front] elements after the first one in reverse, the first element,
    the other elements in their order. *)
Lemma short_array_sort_oneSided (first : A) (rest : list A) :
  short_array_sort (oneSided front) (first :: rest)
  = rev (List.filter front rest)
    ++ first :: List.filter (λ x, negb (front x)) rest.
Proof.
  destruct rest as [|next rest]; [done|].
  unfold short_array_sort, CountAndMakeRun. cbv zeta.
  assert ((oneSided front next first <? 0) = front next) as ->
    by (unfold oneSided; by destruct (front next)).
  rewrite BinaryInsertionSort_oneSided.
  destruct (front next) eqn:Hn.
  - pose proof (run_extent_descending front next rest) as Hrun.
    set (k := run_extent (oneSided front) true next rest) in *.
    assert (List.filter front rest
            = take k rest ++ List.filter front (drop k rest)) as Hfront.
    { rewrite <- (take_drop k rest) at 1.
      by rewrite List.filter_app, (filter_all front _ Hrun). }
    assert (List.filter (λ x, negb (front x)) rest
            = List.filter (λ x, negb (front x)) (drop k rest)) as Hback.
    { rewrite <- (take_drop k rest) at 1. rewrite List.filter_app.
      rewrite (filter_none (λ x, negb (front x)) (take k rest)); [done|].
      eapply Forall_impl; [exact Hrun|]. by intros x ->. }
    cbn [fst snd List.filter]. rewrite Hn. cbn [negb]. rewrite Hfront, Hback.
    simpl. rewrite !rev_app_distr. simpl. by rewrite <- !app_assoc.
  - pose proof (run_extent_ascending front next rest) as Hrun.
    set (k := run_extent (oneSided front) false next rest) in *.
    assert (List.filter front rest = List.filter front (drop k rest)) as Hfront.
    { rewrite <- (take_drop k rest) at 1.
      by rewrite List.filter_app, (filter_none front _ Hrun). }
    assert (List.filter (λ x, negb (front x)) rest
            = take k rest ++ List.filter (λ x, negb (front x)) (drop k rest))
      as Hback.
    { rewrite <- (take_drop k rest) at 1. rewrite List.filter_app.
      rewrite (filter_all (λ x, negb (front x)) (take k rest)); [done|].
      eapply Forall_impl; [exact Hrun|]. by intros x ->. }
    cbn [fst snd List.filter]. rewrite Hn. cbn [negb]. rewrite Hfront, Hback.
    simpl. by rewrite <- ?app_assoc.
Qed.

End OneSidedOrder.

(** ** More on the selector *)

Lemma head_rev_app {A : Type} (l : list A) (x : A) (r : list A) :
  head (rev l ++ x :: r) = Some (default x (last l)).
Proof.
  induction l as [|y l IH] using rev_ind; [done|].
  rewrite rev_app_distr, last_snoc. done.
Qed.

(** X1.  With the sort of Node.js and fewer than 64 pinned activators,
    [findAllPinnedActivators] lists the webhook-typed pinned activators that
    come after the first pinned activator in reverse workflow order, then
    the first pinned activator, then the others in workflow order; a full
    execution without destination therefore starts from the last
    webhook-typed pinned activator after the first one, and from the first
    pinned activator when there is no such webhook. *)
Theorem findAllPinnedActivators_order (deps : Deps) (workflow : IWorkflowBase)
    (pinData : IPinData) (first : INode) (rest : list INode) :
  (∀ l : list INode, (length l < 64)%nat →
     array_sort deps webhookFirst l = short_array_sort webhookFirst l) →
  List.filter (isPinnedActivator (Some pinData)) (nodes workflow) = first :: rest →
  (length (first :: rest) < 64)%nat →
  findAllPinnedActivators deps workflow (Some pinData)
  = rev (List.filter endsInWebhook rest)
    ++ first :: List.filter (λ n, negb (endsInWebhook n)) rest
  ∧ selectPinnedActivatorStarter deps workflow (Some []) (Some pinData) None
    = Some (default first (last (List.filter endsInWebhook rest))).
Proof.
  intros Hengine Hpinned Hshort.
  assert (findAllPinnedActivators deps workflow (Some pinData)
          = rev (List.filter endsInWebhook rest)
            ++ first :: List.filter (λ n, negb (endsInWebhook n)) rest) as Horder.
  { unfold findAllPinnedActivators. rewrite Hpinned, Hengine by done.
    rewrite webhookFirst_oneSided. apply short_array_sort_oneSided. }
  split; [done|].
  rewrite selectPinnedActivatorStarter_full, Horder.
  pose proof (head_rev_app (List.filter endsInWebhook rest) first
                (List.filter (λ n, negb (endsInWebhook n)) rest)) as Hhead.
  destruct (rev (List.filter endsInWebhook rest)
            ++ first :: List.filter (λ n, negb (endsInWebhook n)) rest)
    as [|x others]; [done|].
  by injection Hhead as ->.
Qed.

Lemma findAllPinnedActivators_order_witness :
  let d := Sample.deps Sample.threeWebhooks false (Returned tt) in
  List.filter (isPinnedActivator (pinData Sample.threeWebhooks))
    (nodes Sample.threeWebhooks)
  = [Sample.hookA; Sample.schedule; Sample.hookB; Sample.hookC]
  ∧ findAllPinnedActivators d Sample.threeWebhooks
      (Some (Sample.pin ["A"; "T1"; "B"; "C"]))
    = [Sample.hookC; Sample.hookB; Sample.hookA; Sample.schedule]
  ∧ selectPinnedActivatorStarter d Sample.threeWebhooks (Some [])
      (Some (Sample.pin ["A"; "T1"; "B"; "C"])) None = Some Sample.hookC.
Proof.
  intros d.
  assert (List.filter
            (isPinnedActivator (Some (Sample.pin ["A"; "T1"; "B"; "C"])))
            (nodes Sample.threeWebhooks)
          = [Sample.hookA; Sample.schedule; Sample.hookB; Sample.hookC]) as Hpinned
    by (by vm_compute).
  split; [exact Hpinned|].
  refine (findAllPinnedActivators_order d Sample.threeWebhooks
            (Sample.pin ["A"; "T1"; "B"; "C"]) Sample.hookA
            [Sample.schedule; Sample.hookB; Sample.hookC] _ Hpinned _).
  - intros l _. reflexivity.
  - simpl. lia.
Defined.

Lemma selectPinnedActivatorStarter_member (deps : Deps) (workflow : IWorkflowBase)
    (startNodes : option (list string)) (pinData : option IPinData)
    (destinationNode : option string) (a : INode) :
  selectPinnedActivatorStarter deps workflow startNodes pinData destinationNode
  = Some a →
  ∃ pd, pinData = Some pd ∧ a ∈ findAllPinnedActivators deps workflow (Some pd).
Proof.
  destruct pinData as [pd|]; [|done]. destruct startNodes as [[|s others]|]; [| |done].
  - rewrite selectPinnedActivatorStarter_full.
    destruct (findAllPinnedActivators deps workflow (Some pd)) as [|first rest]
      eqn:Hacts; [done|].
    intros Hsel. exists pd. split; [done|]. rewrite Hacts.
    assert (∀ o : option INode,
              match o with Some x => Some x | None => Some first end = Some a →
              (∀ x, o = Some x → x ∈ first :: rest) → a ∈ first :: rest) as Hcase.
    { intros [x|] [= <-] Hin; [by apply Hin | by left]. }
    destruct destinationNode as [dest|]; [|injection Hsel as <-; by left].
    destruct (Js.truthy (Some dest)); [|injection Hsel as <-; by left].
    apply (Hcase _ Hsel). intros x Hx. apply find_some in Hx as [Hx _].
    by apply list_elem_of_In.
  - rewrite selectPinnedActivatorStarter_partial.
    destruct (findAllPinnedActivators deps workflow (Some pd)) as [|first rest]
      eqn:Hacts; [done|].
    intros Hsel. exists pd. split; [done|]. rewrite Hacts.
    destruct (getParentNodes deps _ s) as [|parent parents].
    + apply find_some in Hsel as [Hx _]. by apply list_elem_of_In.
    + destruct (bool_decide _); [|done]. injection Hsel as <-. by left.
Qed.

Lemma truthy_at_cases {V : Type} (obj : gmap string V) (key : string) :
  Js.truthy_at obj key = true → is_Some (obj !! key) ∨ key ∈ Js.Object_prototype.
Proof.
  unfold Js.truthy_at, Js.inherited. intros [Hown|Hinherited]%orb_prop.
  - left. by apply bool_decide_eq_true_1 in Hown.
  - right. apply existsb_exists in Hinherited as (k & Hin & Heq).
    apply String.eqb_eq in Heq as ->. by apply list_elem_of_In.
Qed.

(** X2.  Whatever the request, a node chosen by
    [selectPinnedActivatorStarter] is a node of the workflow that is not
    disabled, reads as pinned (it has a pin-data entry, or its name is one
    of the properties every object inherits), has a type ending in trigger
    or webhook (whatever the case) and is not the respond-to-webhook node;
    this needs only that the engine's sort returns the elements it was
    given. *)
Theorem selectPinnedActivatorStarter_sound (deps : Deps) (workflow : IWorkflowBase)
    (startNodes : option (list string)) (pinData : option IPinData)
    (destinationNode : option string) (a : INode) :
  (∀ l : list INode, array_sort deps webhookFirst l ≡ₚ l) →
  selectPinnedActivatorStarter deps workflow startNodes pinData destinationNode
  = Some a →
  a ∈ nodes workflow
  ∧ disabled a = false
  ∧ (∃ pd, pinData = Some pd
           ∧ (is_Some (pd !! name a) ∨ name a ∈ Js.Object_prototype))
  ∧ (Js.endsWith (Js.toLowerCase (type a)) "trigger" = true
     ∨ Js.endsWith (Js.toLowerCase (type a)) "webhook" = true)
  ∧ type a ≠ "n8n-nodes-base.respondToWebhook".
Proof.
  intros Hperm Hsel.
  apply selectPinnedActivatorStarter_member in Hsel as (pd & -> & Hin).
  unfold findAllPinnedActivators in Hin. rewrite Hperm in Hin.
  apply list_elem_of_In, filter_In in Hin as [Hnode Hpinned].
  unfold isPinnedActivator in Hpinned.
  apply andb_prop in Hpinned as [Hpinned Hrespond].
  apply andb_prop in Hpinned as [Hpinned Hsuffix].
  apply andb_prop in Hpinned as [Hdisabled Hpin].
  split; [by apply list_elem_of_In|].
  split; [by destruct (disabled a)|].
  split; [exists pd; split; [done|]; by apply truthy_at_cases|].
  split.
  - simpl in Hsuffix. rewrite orb_false_r in Hsuffix.
    apply orb_prop in Hsuffix as [->| ->]; auto.
  - apply negb_true_iff, String.eqb_neq in Hrespond. done.
Qed.

Lemma selectPinnedActivatorStarter_sound_witness :
  let d := Sample.deps Sample.triggerThenSet false (Returned tt) in
  selectPinnedActivatorStarter d Sample.triggerThenSet (Some ["X"])
    (Some (Sample.pin ["T1"])) None = Some Sample.schedule
  ∧ Sample.schedule ∈ nodes Sample.triggerThenSet
  ∧ disabled Sample.schedule = false
  ∧ (∃ pd, Some (Sample.pin ["T1"]) = Some pd
           ∧ (is_Some (pd !! name Sample.schedule)
              ∨ name Sample.schedule ∈ Js.Object_prototype))
  ∧ (Js.endsWith (Js.toLowerCase (type Sample.schedule)) "trigger" = true
     ∨ Js.endsWith (Js.toLowerCase (type Sample.schedule)) "webhook" = true)
  ∧ type Sample.schedule ≠ "n8n-nodes-base.respondToWebhook".
Proof.
  intros d.
  assert (selectPinnedActivatorStarter d Sample.triggerThenSet (Some ["X"])
            (Some (Sample.pin ["T1"])) None = Some Sample.schedule) as Hsel
    by (by vm_compute).
  split; [exact Hsel|].
  refine (selectPinnedActivatorStarter_sound d Sample.triggerThenSet (Some ["X"])
            (Some (Sample.pin ["T1"])) None Sample.schedule _ Hsel).
  intros l. apply short_array_sort_perm.
Defined.

Lemma find_first_index (P : INode → bool) (acts : list INode) (a : INode) :
  find P acts = Some a →
  ∃ i, acts !! i = Some a ∧ P a = true
       ∧ ∀ j c, (j < i)%nat → acts !! j = Some c → P c = false.
Proof.
  induction acts as [|x acts IH]; [done|]. simpl.
  destruct (P x) eqn:Hx.
  - intros [= <-]. exists 0%nat. split; [done|]. split; [done|]. intros j c Hj. lia.
  - intros Hfind. destruct (IH Hfind) as (i & Hi & Ha & Hbefore).
    exists (S i). split; [done|]. split; [done|].
    intros [|j] c Hj Hc.
    + by injection Hc as <-.
    + apply (Hbefore j); [lia | done].
Qed.

(** X3.  On a full execution with a destination of non-empty name, as soon
    as some pinned activator is among the destination's ancestors the
    selector returns the first such activator in tie-break order: the node
    it returns is an ancestor, and no pinned activator before it is. *)
Theorem selectPinnedActivatorStarter_first_ancestor (deps : Deps)
    (workflow : IWorkflowBase) (pinData : IPinData) (D : string) :
  let acts := findAllPinnedActivators deps workflow (Some pinData) in
  let ancestors := getParentNodes deps (new_Workflow None None workflow) D in
  D ≠ EmptyString →
  (∃ b, b ∈ acts ∧ name b ∈ ancestors) →
  ∃ i a,
    selectPinnedActivatorStarter deps workflow (Some []) (Some pinData) (Some D)
    = Some a
    ∧ acts !! i = Some a
    ∧ name a ∈ ancestors
    ∧ ∀ j c, (j < i)%nat → acts !! j = Some c → name c ∉ ancestors.
Proof.
  intros acts ancestors HD (b & Hb & Hanc).
  rewrite selectPinnedActivatorStarter_full. fold acts. fold ancestors.
  rewrite truthy_nonempty by done.
  destruct acts as [|first others] eqn:Hacts; [by apply elem_of_nil in Hb|].
  destruct (find_first_match (λ a, bool_decide (name a ∈ ancestors)) (first :: others))
    as (a & Hfind & _ & _).
  { exists b. split; [done|]. by apply bool_decide_eq_true_2. }
  rewrite Hfind.
  destruct (find_first_index _ _ _ Hfind) as (i & Hi & Ha & Hbefore).
  exists i, a. split; [done|]. split; [done|].
  split; [by apply bool_decide_eq_true_1 in Ha|].
  intros j c Hj Hc Hin. specialize (Hbefore j c Hj Hc).
  by rewrite bool_decide_eq_true_2 in Hbefore.
Qed.

Lemma selectPinnedActivatorStarter_first_ancestor_witness :
  let d := Sample.deps Sample.twoAncestors false (Returned tt) in
  findAllPinnedActivators d Sample.twoAncestors (Some (Sample.pin ["T1"; "A"; "B"]))
  = [Sample.hookB; Sample.hookA; Sample.schedule]
  ∧ ∃ i a,
      selectPinnedActivatorStarter d Sample.twoAncestors (Some [])
        (Some (Sample.pin ["T1"; "A"; "B"])) (Some "X") = Some a
      ∧ findAllPinnedActivators d Sample.twoAncestors
          (Some (Sample.pin ["T1"; "A"; "B"])) !! i = Some a
      ∧ name a ∈ getParentNodes d (new_Workflow None None Sample.twoAncestors) "X"
      ∧ ∀ j c, (j < i)%nat →
          findAllPinnedActivators d Sample.twoAncestors
            (Some (Sample.pin ["T1"; "A"; "B"])) !! j = Some c →
          name c ∉ getParentNodes d (new_Workflow None None Sample.twoAncestors) "X".
Proof.
  intros d.
  assert (findAllPinnedActivators d Sample.twoAncestors
            (Some (Sample.pin ["T1"; "A"; "B"]))
          = [Sample.hookB; Sample.hookA; Sample.schedule]) as Hacts
    by (by vm_compute).
  split; [exact Hacts|].
  apply (selectPinnedActivatorStarter_first_ancestor d Sample.twoAncestors
           (Sample.pin ["T1"; "A"; "B"]) "X").
  - discriminate.
  - exists Sample.hookA. rewrite Hacts. split; [right; left|].
    assert (getParentNodes d (new_Workflow None None Sample.twoAncestors) "X"
            = ["A"; "B"]) as -> by (by vm_compute).
    by left.
Defined.

(** ** More on manual executions *)

(** [executeManually] without the monad: the decisions it takes and the
    calls it makes, in order. *)
Lemma executeManually_cases (deps : Deps) (p : ManualRunPayload) (user : User)
    (pushRef : option string) (streamingEnabled : option bool) (w : World) :
  let selected :=
    selectPinnedActivatorStarter deps (entity w)
      (List.map start_name <$> p_startNodes p) (pinData (entity w))
      (p_destinationNode p) in
  let runData :=
    match p_destinationNode p with
    | Some dest =>
        if Js.truthy (p_destinationNode p)
           && isDestinationNodeATrigger deps dest (entity w)
        then None else p_runData p
    | None => p_runData p
    end in
  let pinnedTrigger :=
    match selected, p_triggerToStartFrom p with
    | Some pt, Some t =>
        if negb (String.eqb (name pt) (trigger_name t)) then None else selected
    | _, _ => selected
    end in
  let ask :=
    isNone pinnedTrigger
    && (isNone runData || isNone (p_startNodes p)
        || match p_startNodes p with Some [] => true | _ => false end
        || isNone (p_destinationNode p)) in
  let q :=
    {| q_userId := user_id user; q_workflowEntity := entity w;
       q_runData := runData; q_pushRef := pushRef;
       q_destinationNode := p_destinationNode p;
       q_triggerToStartFrom := p_triggerToStartFrom p |} in
  let data_startNodes :=
    match pinnedTrigger with
    | Some pt =>
        if negb match runData with
                | Some rd => Js.truthy_at rd (name pt)
                | None => false
                end
        then Some [ {| start_name := name pt; sourceData := None |} ]
        else p_startNodes p
    | None => p_startNodes p
    end in
  let data :=
    {| d_destinationNode := p_destinationNode p;
       d_executionMode := "manual";
       d_runData := runData;
       d_pinData := pinData (entity w);
       d_pushRef := pushRef;
       d_startNodes := data_startNodes;
       d_workflowData := set_active (entity w) false;
       d_userId := Some (user_id user);
       d_dirtyNodeNames := p_dirtyNodeNames p;
       d_triggerToStartFrom := p_triggerToStartFrom p;
       d_agentRequest := p_agentRequest p;
       d_streamingEnabled := streamingEnabled;
       d_executionData :=
         if String.eqb (executions_mode deps) "queue"
            && match OFFLOAD_MANUAL_EXECUTIONS_TO_WORKERS deps with
               | Some v => String.eqb v "true"
               | None => false
               end
         then Some {| startData_startNodes := data_startNodes;
                      startData_destinationNode := p_destinationNode p;
                      resultData_pinData := pinData (entity w);
                      resultData_runData := runData;
                      nodeExecutionStack := None;
                      manualData :=
                        Some {| md_userId := user_id user;
                                md_dirtyNodeNames := p_dirtyNodeNames p;
                                md_triggerToStartFrom := p_triggerToStartFrom p |} |}
         else None;
       d_projectId := None |} in
  let started (before : list Event) : Outcome ManualResult * World :=
    (match workflowRunner_run deps data with
     | Returned id =>
         Returned {| waitingForWebhook := None; executionId := Some id |}
     | Thrown e => Thrown e
     end,
     {| entity := set_active (entity w) false;
        trace := trace w ++ before ++ [Run data] |}) in
  let stopped (out : Outcome ManualResult) (evs : list Event) :=
    (out, {| entity := entity w; trace := trace w ++ evs |}) in
  executeManually deps p user pushRef streamingEnabled w
  = if ask then
      match getBase deps (user_id user) (wf_id (entity w)) with
      | Thrown e => stopped (Thrown e) [GetBase (user_id user) (wf_id (entity w))]
      | Returned _ =>
          match testWebhooks_needsWebhook deps q with
          | Thrown e =>
              stopped (Thrown e)
                [GetBase (user_id user) (wf_id (entity w)); NeedsWebhook q]
          | Returned true =>
              stopped
                (Returned {| waitingForWebhook := Some true; executionId := None |})
                [GetBase (user_id user) (wf_id (entity w)); NeedsWebhook q]
          | Returned false =>
              started [GetBase (user_id user) (wf_id (entity w)); NeedsWebhook q]
          end
      end
    else started [].
Proof.
  intros selected runData pinnedTrigger ask q data_startNodes data started stopped.
  unfold executeManually. run_M.
  fold selected. fold runData. fold pinnedTrigger. fold ask.
  destruct ask.
  - destruct (getBase deps (user_id user) (wf_id (entity w))) as [[]|e];
      cbn beta iota; cbn [entity trace]; [|done].
    fold q. destruct (testWebhooks_needsWebhook deps q) as [[|]|e];
      cbn beta iota; cbn [entity trace].
    + subst stopped. cbn beta. by rewrite <- app_assoc.
    + subst started. cbn beta. fold data_startNodes. fold data.
      destruct (workflowRunner_run deps data); cbn beta iota; cbn [entity trace];
        by rewrite <- !app_assoc.
    + subst stopped. cbn beta. by rewrite <- app_assoc.
  - subst started. cbn beta iota. cbn [entity trace]. fold data_startNodes. fold data.
    destruct (workflowRunner_run deps data); cbn beta iota; cbn [entity trace]; done.
Qed.

Ltac manual_cases deps p user pushRef streamingEnabled w :=
  let Hc := fresh "Hc" in
  pose proof (executeManually_cases deps p user pushRef streamingEnabled w) as Hc;
  cbv zeta in Hc; rewrite Hc; clear Hc.

Ltac manual_split deps :=
  destruct (isNone _ && _);
  [ destruct (getBase deps _ _) as [[]|?];
    [ destruct (testWebhooks_needsWebhook deps _) as [[|]|?] | ] | ];
  cbn [fst snd entity trace]; unfold ranWorkflow; rewrite ?events_since_app.

(** X4.  Whatever the request and the collaborators do, what
    [executeManually] hands to the workflow runner is a manual execution of
    the workflow with its active flag cleared, carrying the workflow's pin
    data, the caller's user id and the destination, dirty nodes and trigger
    of the request; the workflow object is deactivated exactly when the
    runner is invoked and is left as it was otherwise. *)
Theorem executeManually_hands_over_inactive_workflow (deps : Deps)
    (p : ManualRunPayload) (user : User) (pushRef : option string)
    (streamingEnabled : option bool) (w : World) :
  let result := executeManually deps p user pushRef streamingEnabled w in
  (∀ data, Run data ∈ events_since w (snd result) →
     d_executionMode data = "manual"
     ∧ d_workflowData data = set_active (entity w) false
     ∧ d_pinData data = pinData (entity w)
     ∧ d_userId data = Some (user_id user)
     ∧ d_destinationNode data = p_destinationNode p
     ∧ d_dirtyNodeNames data = p_dirtyNodeNames p
     ∧ d_triggerToStartFrom data = p_triggerToStartFrom p)
  ∧ entity (snd result)
    = if ranWorkflow w (snd result) then set_active (entity w) false else entity w.
Proof.
  intros result. subst result.
  manual_cases deps p user pushRef streamingEnabled w.
  manual_split deps; (split; [by trace_member | done]).
Qed.

(** X5.  The execution data for workers is attached to what the runner
    receives exactly when the executions mode is queue and
    OFFLOAD_MANUAL_EXECUTIONS_TO_WORKERS is the string true; it then repeats
    the start nodes, destination, pin data and run data of the run itself
    and names the caller as the manual user. *)
Theorem executeManually_queue_execution_data (deps : Deps)
    (p : ManualRunPayload) (user : User) (pushRef : option string)
    (streamingEnabled : option bool) (w : World) (data : IWorkflowExecutionDataProcess) :
  Run data
    ∈ events_since w (snd (executeManually deps p user pushRef streamingEnabled w)) →
  if String.eqb (executions_mode deps) "queue"
     && match OFFLOAD_MANUAL_EXECUTIONS_TO_WORKERS deps with
        | Some v => String.eqb v "true"
        | None => false
        end
  then ∃ executionData,
         d_executionData data = Some executionData
         ∧ startData_startNodes executionData = d_startNodes data
         ∧ startData_destinationNode executionData = d_destinationNode data
         ∧ resultData_pinData executionData = d_pinData data
         ∧ resultData_runData executionData = d_runData data
         ∧ nodeExecutionStack executionData = None
         ∧ manualData executionData
           = Some {| md_userId := user_id user;
                     md_dirtyNodeNames := d_dirtyNodeNames data;
                     md_triggerToStartFrom := d_triggerToStartFrom data |}
  else d_executionData data = None.
Proof.
  manual_cases deps p user pushRef streamingEnabled w.
  manual_split deps; intros Hin;
    repeat (apply elem_of_cons in Hin as [Heq|Hin]; [try discriminate Heq|]);
    try (by apply elem_of_nil in Hin);
    injection Heq as ->; cbn;
    (destruct (String.eqb (executions_mode deps) "queue" && _);
       [eexists; by repeat split | done]).
Qed.

Lemma executeManually_queue_execution_data_witness :
  let d := Sample.queued (Sample.deps Sample.triggerThenSet false (Returned tt)) in
  ∃ data executionData,
    Run data
      ∈ events_since (Sample.world Sample.triggerThenSet)
          (snd (executeManually d Sample.fullRequest Sample.user None None
                  (Sample.world Sample.triggerThenSet)))
    ∧ d_executionData data = Some executionData
    ∧ startData_startNodes executionData
      = Some [ {| start_name := "T1"; sourceData := None |} ].
Proof.
  intros d.
  destruct (executeManually_events d Sample.fullRequest Sample.user None None
              (Sample.world Sample.triggerThenSet)) as (_ & _ & Hstarted & _).
  destruct (Hstarted {| waitingForWebhook := None; executionId := Some "exec-1" |})
    as [data Hdata]; [by vm_compute | done |].
  pose proof (executeManually_queue_execution_data d Sample.fullRequest Sample.user
                None None (Sample.world Sample.triggerThenSet) data Hdata) as Hqueue.
  cbn in Hqueue. destruct Hqueue as (executionData & Hsome & Hstart & _).
  exists data, executionData. split; [exact Hdata|]. split; [exact Hsome|].
  rewrite Hstart. clear -Hdata. vm_compute in Hdata.
  apply list_elem_of_singleton in Hdata. by injection Hdata as ->.
Defined.

(** X6.  When the selector finds a pinned activator and the request names
    no other trigger to start from, [executeManually] does not consult the
    webhook service at all: its only call is the workflow runner, whose
    answer it returns, and the run starts from the pinned activator unless
    the run data in use reads as having something under its name: an entry
    of its own, or a property every object inherits. *)
Theorem executeManually_pinned_trigger (deps : Deps) (p : ManualRunPayload)
    (user : User) (pushRef : option string) (streamingEnabled : option bool)
    (w : World) (pt : INode) :
  selectPinnedActivatorStarter deps (entity w)
    (List.map start_name <$> p_startNodes p) (pinData (entity w))
    (p_destinationNode p) = Some pt →
  (∀ t, p_triggerToStartFrom p = Some t → trigger_name t = name pt) →
  let result := executeManually deps p user pushRef streamingEnabled w in
  ∃ data,
    events_since w (snd result) = [Run data]
    ∧ fst result
      = match workflowRunner_run deps data with
        | Returned id => Returned {| waitingForWebhook := None; executionId := Some id |}
        | Thrown e => Thrown e
        end
    ∧ d_startNodes data
      = if match d_runData data with
           | Some rd => Js.truthy_at rd (name pt)
           | None => false
           end
        then p_startNodes p
        else Some [ {| start_name := name pt; sourceData := None |} ].
Proof.
  intros Hsel Htrigger result. subst result.
  manual_cases deps p user pushRef streamingEnabled w.
  rewrite Hsel.
  assert (match p_triggerToStartFrom p with
          | Some t => if negb (String.eqb (name pt) (trigger_name t))
                      then None else Some pt
          | None => Some pt
          end = Some pt) as ->.
  { destruct (p_triggerToStartFrom p) as [t|]; [|done].
    by rewrite (Htrigger t eq_refl), String.eqb_refl. }
  cbn [isNone andb fst snd entity trace]. rewrite events_since_app.
  eexists. split; [reflexivity|]. split; [reflexivity|].
  cbn [d_startNodes d_runData].
  by destruct (match _ with Some rd => Js.truthy_at rd (name pt)
                          | None => false end).
Qed.

Lemma executeManually_pinned_trigger_witness :
  let d := Sample.deps Sample.triggerThenSet true (Returned tt) in
  ∃ data,
    events_since (Sample.world Sample.triggerThenSet)
      (snd (executeManually d Sample.fullRequest Sample.user None None
              (Sample.world Sample.triggerThenSet))) = [Run data]
    ∧ fst (executeManually d Sample.fullRequest Sample.user None None
             (Sample.world Sample.triggerThenSet))
      = Returned {| waitingForWebhook := None; executionId := Some "exec-1" |}
    ∧ d_startNodes data = Some [ {| start_name := "T1"; sourceData := None |} ].
Proof.
  intros d.
  destruct (executeManually_pinned_trigger d Sample.fullRequest Sample.user None None
              (Sample.world Sample.triggerThenSet) Sample.schedule)
    as (data & Hevents & Hresult & Hstart).
  - by vm_compute.
  - intros t Ht. discriminate Ht.
  - exists data. split; [exact Hevents|]. split; [exact Hresult|].
    rewrite Hstart. clear Hstart Hresult. vm_compute in Hevents.
    by injection Hevents as <-.
Defined.

(** X7.  When no pinned activator is kept, because the selector found none
    or because the request names another trigger to start from, the start
    nodes reach the workflow runner exactly as the request supplied them. *)
Theorem executeManually_start_nodes_as_supplied (deps : Deps)
    (p : ManualRunPayload) (user : User) (pushRef : option string)
    (streamingEnabled : option bool) (w : World) :
  let selected :=
    selectPinnedActivatorStarter deps (entity w)
      (List.map start_name <$> p_startNodes p) (pinData (entity w))
      (p_destinationNode p) in
  selected = None
  ∨ (∃ pt t, selected = Some pt ∧ p_triggerToStartFrom p = Some t
             ∧ trigger_name t ≠ name pt) →
  ∀ data,
    Run data
      ∈ events_since w (snd (executeManually deps p user pushRef streamingEnabled w)) →
    d_startNodes data = p_startNodes p.
Proof.
  intros selected Hkept. subst selected.
  manual_cases deps p user pushRef streamingEnabled w.
  assert (match
            selectPinnedActivatorStarter deps (entity w)
              (List.map start_name <$> p_startNodes p) (pinData (entity w))
              (p_destinationNode p), p_triggerToStartFrom p
          with
          | Some pt, Some t =>
              if negb (String.eqb (name pt) (trigger_name t)) then None
              else selectPinnedActivatorStarter deps (entity w)
                     (List.map start_name <$> p_startNodes p) (pinData (entity w))
                     (p_destinationNode p)
          | _, _ =>
              selectPinnedActivatorStarter deps (entity w)
                (List.map start_name <$> p_startNodes p) (pinData (entity w))
                (p_destinationNode p)
          end = None) as ->.
  { destruct Hkept as [-> | (pt & t & -> & -> & Hne)]; [done|].
    apply not_eq_sym, String.eqb_neq in Hne. by rewrite Hne. }
  manual_split deps; by trace_member.
Qed.

Lemma executeManually_start_nodes_as_supplied_witness :
  let d := Sample.deps Sample.triggerThenSet false (Returned tt) in
  let p :=
    {| p_runData := None; p_startNodes := Some []; p_destinationNode := None;
       p_dirtyNodeNames := None;
       p_triggerToStartFrom := Some {| trigger_name := "X"; trigger_data := None |};
       p_agentRequest := None |} in
  ∃ data,
    Run data
      ∈ events_since (Sample.world Sample.triggerThenSet)
          (snd (executeManually d p Sample.user None None
                  (Sample.world Sample.triggerThenSet)))
    ∧ d_startNodes data = Some [].
Proof.
  intros d p.
  destruct (executeManually_events d p Sample.user None None
              (Sample.world Sample.triggerThenSet)) as (_ & _ & Hstarted & _).
  destruct (Hstarted {| waitingForWebhook := None; executionId := Some "exec-1" |})
    as [data Hdata]; [by vm_compute | done |].
  exists data. split; [exact Hdata|].
  apply (executeManually_start_nodes_as_supplied d p Sample.user None None
           (Sample.world Sample.triggerThenSet)); [|exact Hdata].
  right. exists Sample.schedule, {| trigger_name := "X"; trigger_data := None |}.
  split; [by vm_compute|]. split; [reflexivity | discriminate].
Defined.

(** X8.  When no pinned activator is kept and the request lacks start
    nodes or a destination, [executeManually] first fetches the base data,
    then asks the webhook service about the workflow as it is, with the
    caller's user id, push reference, destination and trigger.  An
    exception of either call reaches the caller; in that case and when the
    service asks to wait, the workflow runner is not invoked and the
    workflow object is left untouched.  Only a negative answer leads to the
    runner. *)
Theorem executeManually_webhook_gate (deps : Deps) (p : ManualRunPayload)
    (user : User) (pushRef : option string) (streamingEnabled : option bool)
    (w : World) :
  let selected :=
    selectPinnedActivatorStarter deps (entity w)
      (List.map start_name <$> p_startNodes p) (pinData (entity w))
      (p_destinationNode p) in
  selected = None
  ∨ (∃ pt t, selected = Some pt ∧ p_triggerToStartFrom p = Some t
             ∧ trigger_name t ≠ name pt) →
  p_startNodes p = None ∨ p_startNodes p = Some [] ∨ p_destinationNode p = None →
  let result := executeManually deps p user pushRef streamingEnabled w in
  let fetched := GetBase (user_id user) (wf_id (entity w)) in
  ∃ q,
    q_userId q = user_id user
    ∧ q_workflowEntity q = entity w
    ∧ q_pushRef q = pushRef
    ∧ q_destinationNode q = p_destinationNode p
    ∧ q_triggerToStartFrom q = p_triggerToStartFrom p
    ∧ match getBase deps (user_id user) (wf_id (entity w)) with
      | Thrown e =>
          fst result = Thrown e
          ∧ events_since w (snd result) = [fetched]
          ∧ entity (snd result) = entity w
      | Returned _ =>
          match testWebhooks_needsWebhook deps q with
          | Thrown e =>
              fst result = Thrown e
              ∧ events_since w (snd result) = [fetched; NeedsWebhook q]
              ∧ entity (snd result) = entity w
          | Returned true =>
              fst result
              = Returned {| waitingForWebhook := Some true; executionId := None |}
              ∧ events_since w (snd result) = [fetched; NeedsWebhook q]
              ∧ entity (snd result) = entity w
          | Returned false =>
              ∃ data,
                events_since w (snd result) = [fetched; NeedsWebhook q; Run data]
          end
      end.
Proof.
  intros selected Hkept Hmissing result fetched. subst selected result fetched.
  manual_cases deps p user pushRef streamingEnabled w.
  assert (match
            selectPinnedActivatorStarter deps (entity w)
              (List.map start_name <$> p_startNodes p) (pinData (entity w))
              (p_destinationNode p), p_triggerToStartFrom p
          with
          | Some pt, Some t =>
              if negb (String.eqb (name pt) (trigger_name t)) then None
              else selectPinnedActivatorStarter deps (entity w)
                     (List.map start_name <$> p_startNodes p) (pinData (entity w))
                     (p_destinationNode p)
          | _, _ =>
              selectPinnedActivatorStarter deps (entity w)
                (List.map start_name <$> p_startNodes p) (pinData (entity w))
                (p_destinationNode p)
          end = None) as ->.
  { destruct Hkept as [-> | (pt & t & -> & -> & Hne)]; [done|].
    apply not_eq_sym, String.eqb_neq in Hne. by rewrite Hne. }
  assert (∀ b : bool,
            b || isNone (p_startNodes p)
            || match p_startNodes p with Some [] => true | _ => false end
            || isNone (p_destinationNode p) = true) as Hask.
  { intros b. destruct Hmissing as [-> | [-> | ->]]; cbn;
      rewrite ?orb_true_r; done. }
  cbn [isNone andb]. rewrite Hask.
  match goal with
  | |- context [testWebhooks_needsWebhook deps {| q_userId := ?a; q_workflowEntity := ?b;
                  q_runData := ?c; q_pushRef := ?d; q_destinationNode := ?e;
                  q_triggerToStartFrom := ?f |}] =>
      exists {| q_userId := a; q_workflowEntity := b; q_runData := c; q_pushRef := d;
                q_destinationNode := e; q_triggerToStartFrom := f |}
  end.
  do 5 (split; [reflexivity|]).
  destruct (getBase deps _ _) as [[]|e];
    [destruct (testWebhooks_needsWebhook deps _) as [[|]|e]|];
    cbn [fst snd entity trace]; rewrite events_since_app; try done.
  by eexists.
Qed.

Lemma executeManually_webhook_gate_witness :
  let d := Sample.deps Sample.onlyWebhook true (Returned tt) in
  let result :=
    executeManually d Sample.bareRequest Sample.user None None
      (Sample.world Sample.onlyWebhook) in
  ∃ q,
    fst result = Returned {| waitingForWebhook := Some true; executionId := None |}
    ∧ events_since (Sample.world Sample.onlyWebhook) (snd result)
      = [GetBase "user-1" "wf-1"; NeedsWebhook q]
    ∧ entity (snd result) = Sample.onlyWebhook.
Proof.
  intros d result.
  destruct (executeManually_webhook_gate d Sample.bareRequest Sample.user None None
              (Sample.world Sample.onlyWebhook)) as (q & _ & _ & _ & _ & _ & Hgate).
  - left. reflexivity.
  - left. reflexivity.
  - exists q. exact Hgate.
Defined.

(** ** More on the payload builder *)

(** The builder without the monad. *)
Lemma buildExecutionPayload_cases (inst : Workflow) (inputData : option IDataObject)
    (options : ExecuteOptions) (previousRunData : option IRunData)
    (previousPinData : option IPinData) (w : World) :
  let carried :=
    if Js.truthy (o_destinationNode options) then o_destinationNode options else None in
  let restored :=
    match previousPinData with
    | Some _ => set_pinData (entity w) previousPinData
    | None => entity w
    end in
  let pinned (node : INode) (items : IDataObject) :=
    set_pinData (entity w)
      (Some (<[name node := [ {| json := items |} ]]> (default ∅ (pinData (entity w))))) in
  let fromTrigger (node : INode) :=
    {| p_runData := None; p_startNodes := Some []; p_destinationNode := carried;
       p_dirtyNodeNames := None;
       p_triggerToStartFrom := Some {| trigger_name := name node; trigger_data := None |};
       p_agentRequest := None |} in
  buildExecutionPayload inst inputData options previousRunData previousPinData w
  = match o_triggerData options with
    | Some triggerData =>
        match getNode inst (triggerName triggerData) with
        | None =>
            (Thrown (new_error BadRequestError
                       ("Trigger node " +:+ quote +:+ triggerName triggerData
                        +:+ quote +:+ " not found in workflow")),
             {| entity := entity w;
                trace := trace w ++ [Log Debug "Building payload: Custom trigger data"] |})
        | Some triggerNode =>
            (Returned (fromTrigger triggerNode),
             {| entity := pinned triggerNode (payload triggerData);
                trace := trace w ++ [Log Debug "Building payload: Custom trigger data"] |})
        end
    | None =>
        if negb (isNone previousRunData) && Js.truthy (o_destinationNode options)
        then
          (Returned {| p_runData := previousRunData;
                       p_startNodes := None;
                       p_destinationNode := o_destinationNode options;
                       p_dirtyNodeNames := Some (default [] (o_dirtyNodes options));
                       p_triggerToStartFrom := None;
                       p_agentRequest := None |},
           {| entity := restored;
              trace := trace w ++ [Log Debug "Building payload: Partial execution"] |})
        else
          match inputData with
          | Some input =>
              match List.filter isActivator (nodes (entity w)) with
              | [] =>
                  (Thrown (new_error BadRequestError
                             "Workflow has no trigger or webhook nodes"),
                   {| entity := entity w;
                      trace := trace w
                               ++ [Log Debug
                                     "Building payload: Full execution with input data"] |})
              | first :: rest =>
                  let startNode :=
                    match find isManualTrigger (first :: rest) with
                    | Some node => node
                    | None =>
                        match find isWebhookLike (first :: rest) with
                        | Some node => node
                        | None => first
                        end
                    end in
                  (Returned (fromTrigger startNode),
                   {| entity := pinned startNode input;
                      trace := trace w
                               ++ [Log Debug
                                     "Building payload: Full execution with input data";
                                   Log Debug "Selected start node"] |})
              end
          | None =>
              (Returned {| p_runData := None; p_startNodes := None;
                           p_destinationNode := carried;
                           p_dirtyNodeNames := None; p_triggerToStartFrom := None;
                           p_agentRequest := None |},
               {| entity := restored;
                  trace := trace w
                           ++ [Log Debug
                                 "Building payload: Full execution without input data"] |})
          end
    end.
Proof.
  intros carried restored pinned fromTrigger.
  destruct (o_triggerData options) as [triggerData|] eqn:Htrigger.
  - unfold buildExecutionPayload. run_M. rewrite Htrigger.
    by destruct (getNode inst (triggerName triggerData)).
  - destruct (negb (isNone previousRunData) && Js.truthy (o_destinationNode options))
      eqn:Hresume.
    + unfold buildExecutionPayload. run_M. rewrite Htrigger, Hresume.
      subst restored. by destruct previousPinData.
    + destruct inputData as [input|].
      * rewrite buildExecutionPayload_with_input; [|done|].
        -- destruct (List.filter isActivator (nodes (entity w))); [done|].
           cbv zeta. by rewrite <- app_assoc.
        -- apply andb_false_iff in Hresume as [Hrun|Hdest]; [left|by right].
           by destruct previousRunData.
      * unfold buildExecutionPayload. run_M. rewrite Htrigger, Hresume.
        subst restored. by destruct previousPinData.
Qed.

(** X9.  A custom-trigger request whose trigger node exists takes
    precedence over input data and previous run data: the payload asks for
    a full execution (empty start-node list, no run data) starting from
    that trigger; the trigger's pin becomes the given payload and every
    other pin of the workflow is kept. *)
Theorem buildExecutionPayload_custom_trigger (inst : Workflow)
    (inputData : option IDataObject) (options : ExecuteOptions)
    (previousRunData : option IRunData) (previousPinData : option IPinData)
    (w : World) (triggerData : TriggerData) (triggerNode : INode) :
  o_triggerData options = Some triggerData →
  getNode inst (triggerName triggerData) = Some triggerNode →
  let result :=
    buildExecutionPayload inst inputData options previousRunData
      previousPinData w in
  ∃ p pins,
    fst result = Returned p
    ∧ p_triggerToStartFrom p
      = Some {| trigger_name := name triggerNode; trigger_data := None |}
    ∧ name triggerNode = triggerName triggerData
    ∧ p_startNodes p = Some []
    ∧ p_runData p = None
    ∧ pinData (entity (snd result)) = Some pins
    ∧ pins !! name triggerNode = Some [ {| json := payload triggerData |} ]
    ∧ ∀ other, other ≠ name triggerNode →
        pins !! other = default ∅ (pinData (entity w)) !! other.
Proof.
  intros Htrigger Hnode result. subst result.
  pose proof (buildExecutionPayload_cases inst inputData options previousRunData
                previousPinData w) as Hcases.
  cbv zeta in Hcases. rewrite Hcases, Htrigger, Hnode. cbn [fst snd entity].
  eexists. eexists. split; [reflexivity|]. cbn.
  split; [done|]. split.
  { unfold getNode in Hnode. apply find_some in Hnode as [_ Hname].
    by apply String.eqb_eq. }
  split; [done|]. split; [done|]. split; [reflexivity|].
  split; [apply lookup_insert_eq|].
  intros other Hother. by apply lookup_insert_ne.
Qed.

Lemma buildExecutionPayload_custom_trigger_witness :
  let options :=
    {| o_destinationNode := None; o_executionId := None; o_dirtyNodes := None;
       o_triggerData := Some {| triggerName := "W"; payload := [("k", JNull)] |} |} in
  let result :=
    buildExecutionPayload
      (new_Workflow (Some "wf-1") (Some "sample") Sample.mixedPinned)
      (Some []) options (Some Sample.someRunData) None
      (Sample.world Sample.mixedPinned) in
  ∃ p pins,
    fst result = Returned p
    ∧ p_triggerToStartFrom p = Some {| trigger_name := "W"; trigger_data := None |}
    ∧ pinData (entity (snd result)) = Some pins
    ∧ pins !! "W" = Some [ {| json := [("k", JNull)] |} ]
    ∧ pins !! "T1" = Some [ {| json := [] |} ].
Proof.
  intros options result.
  destruct (buildExecutionPayload_custom_trigger
              (new_Workflow (Some "wf-1") (Some "sample") Sample.mixedPinned)
              (Some []) options (Some Sample.someRunData) None
              (Sample.world Sample.mixedPinned)
              {| triggerName := "W"; payload := [("k", JNull)] |} Sample.webhook
              eq_refl eq_refl)
    as (p & pins & Hp & Htrigger & _ & _ & _ & Hpins & Hown & Hother).
  exists p, pins. split; [exact Hp|]. split; [exact Htrigger|].
  split; [exact Hpins|]. split; [exact Hown|].
  rewrite Hother by discriminate. by vm_compute.
Defined.

(** X10.  A request with previous run data and a destination of non-empty
    name, and no trigger data, is a partial resume whatever input data it
    carries: the payload holds the previous run data, the destination and
    the dirty nodes (none listed means the empty list), no start nodes and
    no trigger; no pin is injected, the pin data being the previous pin
    data when there is one and the workflow's own otherwise; the builder
    does not fail even when the workflow has no activator. *)
Theorem buildExecutionPayload_partial_resume (inst : Workflow)
    (inputData : option IDataObject) (options : ExecuteOptions)
    (previousRunData : IRunData) (previousPinData : option IPinData)
    (w : World) (D : string) :
  o_triggerData options = None →
  o_destinationNode options = Some D → D ≠ EmptyString →
  let result :=
    buildExecutionPayload inst inputData options (Some previousRunData)
      previousPinData w in
  fst result
  = Returned {| p_runData := Some previousRunData;
                p_startNodes := None;
                p_destinationNode := Some D;
                p_dirtyNodeNames := Some (default [] (o_dirtyNodes options));
                p_triggerToStartFrom := None;
                p_agentRequest := None |}
  ∧ pinData (entity (snd result))
    = match previousPinData with
      | Some pins => Some pins
      | None => pinData (entity w)
      end.
Proof.
  intros Htrigger Hdest HD result. subst result.
  pose proof (buildExecutionPayload_cases inst inputData options
                (Some previousRunData) previousPinData w) as Hcases.
  cbv zeta in Hcases. rewrite Hcases, Htrigger, Hdest.
  rewrite (truthy_nonempty D HD). cbn [isNone negb andb fst snd entity].
  split; [done|]. by destruct previousPinData.
Qed.

Lemma buildExecutionPayload_partial_resume_witness :
  let options :=
    {| o_destinationNode := Some "X"; o_executionId := Some "E123";
       o_dirtyNodes := Some ["A"]; o_triggerData := None |} in
  let result :=
    buildExecutionPayload
      (new_Workflow (Some "wf-1") (Some "sample") Sample.noActivators)
      (Some []) options (Some Sample.someRunData) None
      (Sample.world Sample.noActivators) in
  fst result
  = Returned {| p_runData := Some Sample.someRunData;
                p_startNodes := None;
                p_destinationNode := Some "X";
                p_dirtyNodeNames := Some ["A"];
                p_triggerToStartFrom := None;
                p_agentRequest := None |}
  ∧ pinData (entity (snd result)) = None.
Proof.
  intros options.
  apply (buildExecutionPayload_partial_resume
           (new_Workflow (Some "wf-1") (Some "sample") Sample.noActivators)
           (Some []) options Sample.someRunData None
           (Sample.world Sample.noActivators) "X").
  - reflexivity.
  - reflexivity.
  - discriminate.
Defined.

Ltac builder_cases inst inputData options previousRunData previousPinData w :=
  let Hc := fresh "Hc" in
  pose proof (buildExecutionPayload_cases inst inputData options previousRunData
                previousPinData w) as Hc;
  cbv zeta in Hc; rewrite Hc; clear Hc;
  destruct (o_triggerData options) as [?triggerData|];
  [ destruct (getNode inst _) as [?triggerNode|]
  | destruct (negb (isNone previousRunData) && Js.truthy (o_destinationNode options))
      eqn:?Hresume;
    [ | destruct inputData as [?input|];
        [ destruct (List.filter isActivator (nodes (entity w)))
            as [|?first ?rest] eqn:?Hactivators | ] ] ];
  cbn [fst snd entity trace].

(** X11.  Whatever the request, the builder changes nothing of the
    workflow object but its pin data, makes no call other than debug
    logging, and fails with a bad-request error only, in which case the
    workflow object is exactly as before. *)
Theorem buildExecutionPayload_frame (inst : Workflow)
    (inputData : option IDataObject) (options : ExecuteOptions)
    (previousRunData : option IRunData) (previousPinData : option IPinData)
    (w : World) :
  let result :=
    buildExecutionPayload inst inputData options previousRunData
      previousPinData w in
  (wf_id (entity (snd result)) = wf_id (entity w)
   ∧ wf_name (entity (snd result)) = wf_name (entity w)
   ∧ active (entity (snd result)) = active (entity w)
   ∧ nodes (entity (snd result)) = nodes (entity w)
   ∧ connections (entity (snd result)) = connections (entity w))
  ∧ (∀ e, e ∈ events_since w (snd result) → ∃ text, e = Log Debug text)
  ∧ (∀ err, fst result = Thrown err →
       (∃ e : JsError, err = e ∧ error_class e = BadRequestError)
       ∧ entity (snd result) = entity w).
Proof.
  intros result. subst result.
  builder_cases inst inputData options previousRunData previousPinData w;
    rewrite events_since_app;
    (split; [by try destruct previousPinData|]);
    (split; [|intros err [= <-]; by (split; [eexists|])]);
    intros e He;
    repeat (apply elem_of_cons in He as [->|He]; [by eexists|]);
    by apply elem_of_nil in He.
Qed.

Lemma set_pinData_twice (e : IWorkflowBase) (p1 p2 : option IPinData) :
  set_pinData (set_pinData e p1) p2 = set_pinData e p2.
Proof. done. Qed.

(** X12.  Building the payload again with the same arguments, on the
    workflow object the first call left behind, gives the same outcome and
    leaves the same workflow object: the injected pin is written over
    itself. *)
Theorem buildExecutionPayload_idempotent (inst : Workflow)
    (inputData : option IDataObject) (options : ExecuteOptions)
    (previousRunData : option IRunData) (previousPinData : option IPinData)
    (w : World) :
  let once :=
    buildExecutionPayload inst inputData options previousRunData
      previousPinData w in
  let twice :=
    buildExecutionPayload inst inputData options previousRunData
      previousPinData (snd once) in
  fst twice = fst once ∧ entity (snd twice) = entity (snd once).
Proof.
  intros once twice. subst twice once.
  pose proof (buildExecutionPayload_cases inst inputData options previousRunData
                previousPinData) as Hcases.
  cbv zeta in Hcases. rewrite !Hcases. clear Hcases.
  destruct (o_triggerData options) as [triggerData|].
  - destruct (getNode inst (triggerName triggerData)) as [triggerNode|];
      cbn [fst snd entity]; [|done].
    split; [done|]. rewrite set_pinData_twice.
    cbn [pinData set_pinData default from_option id]. by rewrite insert_insert_eq.
  - destruct (negb (isNone previousRunData) && Js.truthy (o_destinationNode options)).
    + cbn [fst snd entity]. split; [done|]. by destruct previousPinData.
    + destruct inputData as [input|].
      * destruct (List.filter isActivator (nodes (entity w))) as [|first rest]
          eqn:Hactivators; cbn [fst snd entity].
        -- by rewrite Hactivators.
        -- cbn [nodes set_pinData]. rewrite Hactivators. cbn [fst snd entity].
           split; [done|]. rewrite set_pinData_twice.
           cbn [pinData set_pinData default from_option id].
           by rewrite insert_insert_eq.
      * cbn [fst snd entity]. split; [done|]. by destruct previousPinData.
Qed.

(** X13.  Every payload the builder returns is consistent: an empty
    start-node list goes with a trigger to start from and the other way
    round; run data comes with a destination and a dirty-node list and
    without trigger; and the destination, when there is one, is the
    destination of the request and its name is not empty. *)
Theorem buildExecutionPayload_consistent (inst : Workflow)
    (inputData : option IDataObject) (options : ExecuteOptions)
    (previousRunData : option IRunData) (previousPinData : option IPinData)
    (w : World) (p : ManualRunPayload) :
  fst (buildExecutionPayload inst inputData options previousRunData
         previousPinData w) = Returned p →
  (p_startNodes p = Some [] ↔ is_Some (p_triggerToStartFrom p))
  ∧ (is_Some (p_runData p) →
     p_runData p = previousRunData
     ∧ p_triggerToStartFrom p = None
     ∧ is_Some (p_dirtyNodeNames p)
     ∧ is_Some (p_destinationNode p))
  ∧ (∀ D, p_destinationNode p = Some D →
       D ≠ EmptyString ∧ o_destinationNode options = Some D)
  ∧ p_agentRequest p = None.
Proof.
  assert (∀ D, (if Js.truthy (o_destinationNode options)
                then o_destinationNode options else None) = Some D →
               D ≠ EmptyString ∧ o_destinationNode options = Some D) as Hcarried.
  { intros D. destruct (Js.truthy (o_destinationNode options)) eqn:Htruthy; [|done].
    intros HD. split; [|done]. rewrite HD in Htruthy. intros ->. done. }
  builder_cases inst inputData options previousRunData previousPinData w;
    intros [= <-]; cbn.
  - split; [split; [by eexists | done]|]. split; [by intros [? [=]]|]. done.
  - apply andb_prop in Hresume as [Hrun Hdest].
    split; [split; [done | by intros [? [=]]]|].
    split.
    + intros _. split; [done|]. split; [done|]. split; [by eexists|].
      destruct (o_destinationNode options); [by eexists | done].
    + split; [|done]. intros D HD. split; [|done].
      rewrite HD in Hdest. intros ->. done.
  - split; [split; [by eexists | done]|]. split; [by intros [? [=]]|]. done.
  - split; [split; [done | by intros [? [=]]]|]. split; [by intros [? [=]]|]. done.
Qed.

Lemma buildExecutionPayload_consistent_witness :
  let options :=
    {| o_destinationNode := Some EmptyString; o_executionId := None;
       o_dirtyNodes := None; o_triggerData := None |} in
  let p :=
    {| p_runData := None; p_startNodes := Some []; p_destinationNode := None;
       p_dirtyNodeNames := None;
       p_triggerToStartFrom := Some {| trigger_name := "M"; trigger_data := None |};
       p_agentRequest := None |} in
  fst (buildExecutionPayload
         (new_Workflow (Some "wf-1") (Some "sample") Sample.webhookAndManual)
         (Some []) options None None (Sample.world Sample.webhookAndManual))
  = Returned p
  ∧ (p_startNodes p = Some [] ↔ is_Some (p_triggerToStartFrom p))
  ∧ (∀ D, p_destinationNode p = Some D →
       D ≠ EmptyString ∧ o_destinationNode options = Some D).
Proof.
  intros options p.
  assert (fst (buildExecutionPayload
                 (new_Workflow (Some "wf-1") (Some "sample") Sample.webhookAndManual)
                 (Some []) options None None (Sample.world Sample.webhookAndManual))
          = Returned p) as Hbuilt by reflexivity.
  split; [exact Hbuilt|].
  destruct (buildExecutionPayload_consistent _ _ _ _ _ _ _ Hbuilt)
    as (Hstart & _ & Hdest & _).
  split; [exact Hstart | exact Hdest].
Defined.

(** ** More on the orchestrator *)

(** [executeWorkflow] without the monad, down to the calls of the builder
    and of [executeManually]. *)
Lemma executeWorkflow_cases (deps : Deps) (workflowId : string)
    (inputData : option IDataObject) (options : ExecuteOptions) (user : User)
    (w0 : World) :
  let received := Log Debug "Executing workflow via public API" in
  let stopped (e : JsValue) (wf : IWorkflowBase) (evs : list Event)
      : Outcome ExecuteResult * World :=
    (Thrown e, {| entity := wf; trace := trace w0 ++ received :: evs |}) in
  let proceed (workflow : IWorkflowBase)
      (previous : option IRunData * option IPinData) (evs : list Event) :=
    match
      buildExecutionPayload
        (new_Workflow (Some (wf_id workflow)) (Some (wf_name workflow)) workflow)
        inputData options (fst previous) (snd previous)
        {| entity := workflow; trace := trace w0 ++ received :: evs |}
    with
    | (Thrown e, w') => (Thrown e, w')
    | (Returned p, w') =>
        match
          executeManually deps p user None None
            {| entity := entity w';
               trace := trace w' ++ [Log Debug "Execution payload built"] |}
        with
        | (Thrown e, w'') => (Thrown e, w'')
        | (Returned result, w'') =>
            (Returned
               {| res_executionId := executionId result;
                  res_status :=
                    if default false (waitingForWebhook result)
                    then Some "waiting" else None |},
             {| entity := entity w'';
                trace := trace w'' ++ [Log Debug "Workflow execution started"] |})
        end
    end in
  executeWorkflow deps workflowId inputData options user w0
  = match workflowRepository_findOneBy deps workflowId with
    | Thrown e => stopped e (entity w0) []
    | Returned None =>
        stopped
          (new_error NotFoundError
             ("Workflow with ID " +:+ quote +:+ workflowId +:+ quote +:+ " not found"))
          (entity w0) []
    | Returned (Some workflow) =>
        match o_executionId options with
        | Some executionId =>
            if Js.truthy (o_executionId options) then
              let loading := Log Debug "Loading previous execution for partial run" in
              let asked := FindSingleExecution executionId in
              match executionRepository_findSingleExecution deps executionId with
              | Thrown e => stopped e workflow [loading; asked]
              | Returned None =>
                  stopped
                    (new_error NotFoundError
                       ("Execution with ID " +:+ quote +:+ executionId
                        +:+ quote +:+ " not found"))
                    workflow [loading; asked]
              | Returned (Some previousExecution) =>
                  proceed workflow (ex_runData previousExecution, pinData workflow)
                    [loading; asked; Log Debug "Previous execution loaded"]
              end
            else proceed workflow (None, None) []
        | None => proceed workflow (None, None) []
        end
    end.
Proof.
  intros received stopped proceed.
  assert (∀ workflow previous evs (w : World),
            w = {| entity := workflow; trace := trace w0 ++ received :: evs |} →
            match
              buildExecutionPayload
                (new_Workflow (Some (wf_id workflow)) (Some (wf_name workflow)) workflow)
                inputData options (fst previous) (snd previous) w
            with
            | (Returned p, w') =>
                (λ p,
                   emit (Log Debug "Execution payload built");;
                   result ← executeManually deps p user None None;
                   emit (Log Debug "Workflow execution started");;
                   if default false (waitingForWebhook result)
                   then mret {| res_executionId := executionId result;
                                res_status := Some "waiting" |}
                   else mret {| res_executionId := executionId result;
                                res_status := None |}) p w'
            | (Thrown e, w') => (Thrown e, w')
            end = proceed workflow previous evs) as Hproceed.
  { intros workflow previous evs w ->. subst proceed. cbn beta.
    destruct (buildExecutionPayload _ _ _ _ _ _) as [[p|e] w']; [|done].
    run_M. destruct (executeManually deps p user None None _) as [[result|e] w''];
      [|done].
    cbn beta iota. by destruct (default false (waitingForWebhook result)). }
  unfold executeWorkflow. run_M.
  destruct (workflowRepository_findOneBy deps workflowId) as [[workflow|]|e];
    cbn beta iota; [|done..].
  destruct (o_executionId options) as [executionId|]; cbn beta iota.
  - destruct (Js.truthy (Some executionId)); cbn beta iota.
    + destruct (executionRepository_findSingleExecution deps executionId)
        as [[previousExecution|]|e]; cbn beta iota; cbn [entity trace].
      * apply Hproceed. by rewrite <- !app_assoc.
      * subst stopped. cbn beta. by rewrite <- !app_assoc.
      * subst stopped. cbn beta. by rewrite <- !app_assoc.
    + by apply Hproceed.
  - by apply Hproceed.
Qed.

(** X14.  When the workflow store has no workflow of the given id,
    [executeWorkflow] fails with a not-found error naming the id; when the
    store throws, that exception reaches the caller.  In both cases nothing
    but the opening debug log happened: the execution store, the webhook
    service and the workflow runner are not called, and the workflow object
    at hand does not change. *)
Theorem executeWorkflow_unknown_workflow (deps : Deps) (workflowId : string)
    (inputData : option IDataObject) (options : ExecuteOptions) (user : User)
    (w0 : World) :
  let result := executeWorkflow deps workflowId inputData options user w0 in
  let quiet :=
    events_since w0 (snd result) = [Log Debug "Executing workflow via public API"]
    ∧ entity (snd result) = entity w0 in
  (workflowRepository_findOneBy deps workflowId = Returned None →
   fst result
   = Thrown (new_error NotFoundError
               ("Workflow with ID " +:+ quote +:+ workflowId +:+ quote +:+ " not found"))
   ∧ quiet)
  ∧ (∀ e, workflowRepository_findOneBy deps workflowId = Thrown e →
          fst result = Thrown e ∧ quiet).
Proof.
  intros result quiet. subst quiet result.
  pose proof (executeWorkflow_cases deps workflowId inputData options user w0)
    as Hcases.
  cbv zeta in Hcases. rewrite Hcases. clear Hcases.
  split.
  - intros ->. cbn [fst snd entity]. by rewrite events_since_app.
  - intros e ->. cbn [fst snd entity]. by rewrite events_since_app.
Qed.

Lemma executeWorkflow_unknown_workflow_witness :
  let d := Sample.deps Sample.onlyWebhook false (Returned tt) in
  let result :=
    executeWorkflow d "other" (Some []) Sample.noOptions Sample.user
      (Sample.world Sample.blank) in
  fst result
  = Thrown (new_error NotFoundError
              ("Workflow with ID " +:+ quote +:+ "other" +:+ quote +:+ " not found"))
  ∧ events_since (Sample.world Sample.blank) (snd result)
    = [Log Debug "Executing workflow via public API"]
  ∧ entity (snd result) = Sample.blank.
Proof.
  intros d.
  exact (proj1 (executeWorkflow_unknown_workflow d "other" (Some [])
                  Sample.noOptions Sample.user (Sample.world Sample.blank))
           eq_refl).
Defined.

(** X15.  When the request names a previous execution (a non-empty id) that
    the execution store does not have, [executeWorkflow] fails with a
    not-found error naming that id, and an exception of the store reaches
    the caller.  The workflow has been loaded by then and is otherwise
    untouched: the execution store was asked once, for that id, no payload
    is built, the webhook service and the workflow runner are not called. *)
Theorem executeWorkflow_unknown_execution (deps : Deps) (workflowId : string)
    (inputData : option IDataObject) (options : ExecuteOptions) (user : User)
    (w0 : World) (workflow : IWorkflowBase) (executionId : string) :
  workflowRepository_findOneBy deps workflowId = Returned (Some workflow) →
  o_executionId options = Some executionId → executionId ≠ EmptyString →
  let result := executeWorkflow deps workflowId inputData options user w0 in
  let quiet :=
    events_since w0 (snd result)
    = [Log Debug "Executing workflow via public API";
       Log Debug "Loading previous execution for partial run";
       FindSingleExecution executionId]
    ∧ entity (snd result) = workflow in
  (executionRepository_findSingleExecution deps executionId = Returned None →
   fst result
   = Thrown (new_error NotFoundError
               ("Execution with ID " +:+ quote +:+ executionId
                +:+ quote +:+ " not found"))
   ∧ quiet)
  ∧ (∀ e, executionRepository_findSingleExecution deps executionId = Thrown e →
          fst result = Thrown e ∧ quiet).
Proof.
  intros Hload Hid Hnonempty result quiet. subst quiet result.
  pose proof (executeWorkflow_cases deps workflowId inputData options user w0)
    as Hcases.
  cbv zeta in Hcases. rewrite Hcases, Hload, Hid. clear Hcases.
  rewrite (truthy_nonempty _ Hnonempty).
  split.
  - intros ->. cbn [fst snd entity]. by rewrite events_since_app.
  - intros e ->. cbn [fst snd entity]. by rewrite events_since_app.
Qed.

Lemma executeWorkflow_unknown_execution_witness :
  let d := Sample.deps Sample.onlyWebhook false (Returned tt) in
  let options :=
    {| o_destinationNode := Some "W"; o_executionId := Some "E123";
       o_dirtyNodes := None; o_triggerData := None |} in
  let result :=
    executeWorkflow d "wf-1" None options Sample.user (Sample.world Sample.blank) in
  fst result
  = Thrown (new_error NotFoundError
              ("Execution with ID " +:+ quote +:+ "E123" +:+ quote +:+ " not found"))
  ∧ events_since (Sample.world Sample.blank) (snd result)
    = [Log Debug "Executing workflow via public API";
       Log Debug "Loading previous execution for partial run";
       FindSingleExecution "E123"]
  ∧ entity (snd result) = Sample.onlyWebhook.
Proof.
  intros d options.
  refine (proj1 (executeWorkflow_unknown_execution d "wf-1" None options Sample.user
                   (Sample.world Sample.blank) Sample.onlyWebhook "E123"
                   eq_refl eq_refl _) eq_refl).
  discriminate.
Defined.

Ltac in_list := first [ by left | right; in_list ].

(** X16.  An answer of [executeWorkflow] is of one of two kinds: status
    waiting, no execution id and no call of the workflow runner; or no
    status, and the execution id is the one the workflow runner returned
    for the run it was handed. *)
Theorem executeWorkflow_answer (deps : Deps) (workflowId : string)
    (inputData : option IDataObject) (options : ExecuteOptions) (user : User)
    (w0 : World) (res : ExecuteResult) :
  let result := executeWorkflow deps workflowId inputData options user w0 in
  fst result = Returned res →
  (res_status res = Some "waiting" ∧ res_executionId res = None
   ∧ ranWorkflow w0 (snd result) = false)
  ∨ (res_status res = None
     ∧ ∃ data id,
         Run data ∈ events_since w0 (snd result)
         ∧ workflowRunner_run deps data = Returned id
         ∧ res_executionId res = Some id).
Proof.
  intros result. subst result.
  pose proof (executeWorkflow_cases deps workflowId inputData options user w0)
    as Hcases.
  cbv zeta in Hcases. rewrite Hcases. clear Hcases.
  destruct (workflowRepository_findOneBy deps workflowId) as [[workflow|]|e];
    [|done..].
  assert (∀ previous evs,
            existsb isRun evs = false →
            ∀ w, w = {| entity := workflow;
                        trace := trace w0
                                 ++ Log Debug "Executing workflow via public API" :: evs |} →
            let result :=
              match
                buildExecutionPayload
                  (new_Workflow (Some (wf_id workflow)) (Some (wf_name workflow))
                     workflow)
                  inputData options (fst previous) (snd previous) w
              with
              | (Thrown e, w') => (Thrown e, w')
              | (Returned p, w') =>
                  match
                    executeManually deps p user None None
                      {| entity := entity w';
                         trace := trace w' ++ [Log Debug "Execution payload built"] |}
                  with
                  | (Thrown e, w'') => (Thrown e, w'')
                  | (Returned result, w'') =>
                      (Returned
                         {| res_executionId := executionId result;
                            res_status :=
                              if default false (waitingForWebhook result)
                              then Some "waiting" else None |},
                       {| entity := entity w'';
                          trace := trace w''
                                   ++ [Log Debug "Workflow execution started"] |})
                  end
              end in
            fst result = Returned res →
            (res_status res = Some "waiting" ∧ res_executionId res = None
             ∧ ranWorkflow w0 (snd result) = false)
            ∨ (res_status res = None
               ∧ ∃ data id,
                   Run data ∈ events_since w0 (snd result)
                   ∧ workflowRunner_run deps data = Returned id
                   ∧ res_executionId res = Some id)) as Hproceed.
  { intros previous evs Hevs w -> result. subst result.
    destruct (buildExecutionPayload _ _ _ _ _ _) as [[p|e] w'] eqn:Hbuilt; [|done].
    assert (∃ logs, trace w'
                    = trace w0
                      ++ Log Debug "Executing workflow via public API" :: evs ++ logs
                    ∧ existsb isRun logs = false) as (logs & Htrace & Hquiet).
    { pose proof (buildExecutionPayload_cases
                    (new_Workflow (Some (wf_id workflow)) (Some (wf_name workflow))
                       workflow)
                    inputData options (fst previous) (snd previous)
                    {| entity := workflow;
                       trace := trace w0
                                ++ Log Debug "Executing workflow via public API"
                                   :: evs |}) as Hc.
      cbv zeta in Hc. rewrite Hbuilt in Hc. cbn [entity trace] in Hc.
      destruct (o_triggerData options);
        [destruct (getNode _ _)
        |destruct (negb (isNone (fst previous)) && Js.truthy (o_destinationNode options));
         [|destruct inputData;
           [destruct (List.filter isActivator (nodes workflow))|]]];
        try discriminate Hc; injection Hc as _ ->; cbn [trace];
        rewrite <- !app_assoc; cbn [app]; eexists; (split; [reflexivity|done]). }
    clear Hbuilt.
    manual_cases deps p user (@None string) (@None bool)
      {| entity := entity w';
         trace := trace w' ++ [Log Debug "Execution payload built"] |}.
    cbn [entity trace]. rewrite Htrace.
    assert (∀ tail, existsb isRun (evs ++ logs ++ tail) = existsb isRun tail) as Hskip.
    { intros tail. by rewrite !existsb_app, Hevs, Hquiet. }
    destruct (isNone _ && _);
      [destruct (getBase deps _ _) as [[]|?];
       [destruct (testWebhooks_needsWebhook deps _) as [[|]|?]|]|];
      try done; cbn [fst snd entity trace default waitingForWebhook executionId].
    - intros [= <-]. left. split; [done|]. split; [done|].
      rewrite <- !app_assoc. cbn [app]. rewrite <- !app_assoc.
      rewrite ranWorkflow_app. cbn [existsb isRun orb]. by rewrite Hskip.
    - destruct (workflowRunner_run deps _) as [id|?] eqn:Hrun; [|done].
      cbn [fst snd entity trace default waitingForWebhook executionId].
      intros [= <-]. right. split; [done|]. eexists. exists id.
      split; [|split; [exact Hrun | done]].
      rewrite <- !app_assoc. cbn [app]. rewrite <- !app_assoc.
      rewrite events_since_app. right.
      apply elem_of_app. right. apply elem_of_app. right. in_list.
    - destruct (workflowRunner_run deps _) as [id|?] eqn:Hrun; [|done].
      cbn [fst snd entity trace default waitingForWebhook executionId].
      intros [= <-]. right. split; [done|]. eexists. exists id.
      split; [|split; [exact Hrun | done]].
      rewrite <- !app_assoc. cbn [app]. rewrite <- !app_assoc.
      rewrite events_since_app. right.
      apply elem_of_app. right. apply elem_of_app. right. in_list. }
  destruct (o_executionId options) as [executionId|].
  - destruct (Js.truthy (Some executionId)).
    + destruct (executionRepository_findSingleExecution deps executionId)
        as [[previousExecution|]|e]; [|done..].
      by apply (Hproceed (ex_runData previousExecution, pinData workflow)
                  [Log Debug "Loading previous execution for partial run";
                   FindSingleExecution executionId;
                   Log Debug "Previous execution loaded"]).
    + by apply (Hproceed (None, None) []).
  - by apply (Hproceed (None, None) []).
Qed.

Lemma executeWorkflow_answer_witness :
  let d := Sample.deps Sample.webhookAndManual false (Returned tt) in
  let result :=
    executeWorkflow d "wf-1" (Some []) Sample.noOptions Sample.user
      (Sample.world Sample.blank) in
  fst result = Returned {| res_executionId := Some "exec-1"; res_status := None |}
  ∧ ∃ data id,
      Run data ∈ events_since (Sample.world Sample.blank) (snd result)
      ∧ workflowRunner_run d data = Returned id
      ∧ Some "exec-1" = Some id.
Proof.
  intros d result.
  assert (fst result
          = Returned {| res_executionId := Some "exec-1"; res_status := None |})
    as Hresult by (by vm_compute).
  split; [exact Hresult|].
  destruct (executeWorkflow_answer d "wf-1" (Some []) Sample.noOptions Sample.user
              (Sample.world Sample.blank) _ Hresult) as [(Hwait & _) | (_ & Hrun)].
  - discriminate Hwait.
  - exact Hrun.
Defined.

(** After the builder pinned its start node in a workflow none of whose
    nodes reads as a pinned activator, be it on an empty pin-data object,
    the selector can only find a node of that name. *)
Lemma selectPinnedActivatorStarter_after_injection (deps : Deps)
    (workflow : IWorkflowBase) (start : INode) (items : list INodeExecutionData)
    (D : option string) :
  (∀ l : list INode, array_sort deps webhookFirst l ≡ₚ l) →
  start ∈ nodes workflow → isActivator start = true →
  (∀ n, n ∈ nodes workflow →
        isPinnedActivator (Some (default ∅ (pinData workflow))) n = false) →
  let pins := <[name start := items]> (default ∅ (pinData workflow)) in
  ∃ a, selectPinnedActivatorStarter deps (set_pinData workflow (Some pins))
         (Some []) (Some pins) D = Some a
       ∧ name a = name start.
Proof.
  intros Hperm Hstart Hactivator Hunpinned pins.
  assert (∀ n, n ∈ findAllPinnedActivators deps (set_pinData workflow (Some pins))
                     (Some pins) →
               name n = name start) as Hnames.
  { intros n Hn. unfold findAllPinnedActivators in Hn. rewrite Hperm in Hn.
    apply list_elem_of_In, filter_In in Hn as [Hnode Hpinned].
    destruct (decide (name n = name start)) as [|Hne]; [done|].
    apply list_elem_of_In in Hnode. cbn in Hnode.
    specialize (Hunpinned n Hnode).
    unfold isPinnedActivator, hasPin, Js.truthy_at in Hpinned, Hunpinned.
    subst pins. rewrite lookup_insert_ne in Hpinned by done. congruence. }
  assert (start ∈ findAllPinnedActivators deps (set_pinData workflow (Some pins))
                    (Some pins)) as Hin.
  { unfold findAllPinnedActivators. rewrite Hperm.
    apply list_elem_of_In, filter_In. split; [by apply list_elem_of_In|].
    unfold isActivator in Hactivator. unfold isPinnedActivator, hasPin.
    apply andb_prop in Hactivator as [Hactivator Hrespond].
    apply andb_prop in Hactivator as [Hdisabled Hsuffix].
    rewrite Hdisabled, Hsuffix, Hrespond. subst pins. unfold Js.truthy_at.
    rewrite lookup_insert_eq. by rewrite bool_decide_eq_true_2 by by eexists. }
  rewrite selectPinnedActivatorStarter_full.
  destruct (findAllPinnedActivators deps (set_pinData workflow (Some pins)) (Some pins))
    as [|first others]; [by apply elem_of_nil in Hin|].
  assert (∀ o : option INode,
            (∀ x, o = Some x → x ∈ first :: others) →
            ∃ a, match o with Some x => Some x | None => Some first end = Some a
                 ∧ name a = name start) as Hcase.
  { intros [x|] Hx.
    - exists x. split; [done|]. apply Hnames. by apply Hx.
    - exists first. split; [done|]. apply Hnames. by left. }
  destruct D as [dest|]; [|exists first; split; [done|]; apply Hnames; by left].
  destruct (Js.truthy (Some dest));
    [|exists first; split; [done|]; apply Hnames; by left].
  apply Hcase. intros x Hx. apply find_some in Hx as [Hx _]. by apply list_elem_of_In.
Qed.

(** X17.  A request with input data, without trigger data and without a
    previous execution, on a stored workflow that has an activator and none
    that reads as pinned (no activator has pin data or bears the name of a
    property every object inherits), never consults the webhook service: the
    workflow runner is handed one run that starts from the node the builder
    chose, with the input pinned to it, no run data and the workflow
    deactivated, and the answer is the runner's execution id without
    status (or the runner's exception).  This needs only that the engine's
    sort returns the elements it was given. *)
Theorem executeWorkflow_with_input (deps : Deps) (workflowId : string)
    (workflow : IWorkflowBase) (input : IDataObject) (options : ExecuteOptions)
    (user : User) (w0 : World) (first : INode) (rest : list INode) :
  (∀ l : list INode, array_sort deps webhookFirst l ≡ₚ l) →
  workflowRepository_findOneBy deps workflowId = Returned (Some workflow) →
  o_triggerData options = None →
  Js.truthy (o_executionId options) = false →
  List.filter isActivator (nodes workflow) = first :: rest →
  (∀ n, n ∈ nodes workflow →
        isPinnedActivator (Some (default ∅ (pinData workflow))) n = false) →
  let start :=
    match find isManualTrigger (first :: rest) with
    | Some node => node
    | None =>
        match find isWebhookLike (first :: rest) with
        | Some node => node
        | None => first
        end
    end in
  let result := executeWorkflow deps workflowId (Some input) options user w0 in
  ∃ data,
    events_since w0 (snd result)
    = [Log Debug "Executing workflow via public API";
       Log Debug "Building payload: Full execution with input data";
       Log Debug "Selected start node";
       Log Debug "Execution payload built";
       Run data]
      ++ match workflowRunner_run deps data with
         | Returned _ => [Log Debug "Workflow execution started"]
         | Thrown _ => []
         end
    ∧ fst result
      = match workflowRunner_run deps data with
        | Returned id => Returned {| res_executionId := Some id; res_status := None |}
        | Thrown e => Thrown e
        end
    ∧ d_startNodes data = Some [ {| start_name := name start; sourceData := None |} ]
    ∧ d_triggerToStartFrom data
      = Some {| trigger_name := name start; trigger_data := None |}
    ∧ d_pinData data
      = Some (<[name start := [ {| json := input |} ]]> (default ∅ (pinData workflow)))
    ∧ d_runData data = None
    ∧ active (d_workflowData data) = false
    ∧ nodes (d_workflowData data) = nodes workflow.
Proof.
  intros Hperm Hload Htrigger Hfresh Hactivators Hunpinned start result.
  subst result.
  assert (start ∈ first :: rest) as Hstart.
  { subst start. destruct (find isManualTrigger (first :: rest)) as [m|] eqn:Hm.
    - apply find_some in Hm as [Hm _]. by apply list_elem_of_In.
    - destruct (find isWebhookLike (first :: rest)) as [x|] eqn:Hx.
      + apply find_some in Hx as [Hx _]. by apply list_elem_of_In.
      + by left. }
  rewrite <- Hactivators in Hstart.
  apply list_elem_of_In, filter_In in Hstart as [Hnode Hactivator].
  apply list_elem_of_In in Hnode.
  pose proof (executeWorkflow_cases deps workflowId (Some input) options user w0)
    as Hcases.
  cbv zeta in Hcases. rewrite Hcases, Hload. clear Hcases.
  assert (match o_executionId options with
          | Some executionId => Js.truthy (Some executionId) = false
          | None => True
          end) as Hid by (by destruct (o_executionId options)).
  destruct (o_executionId options) as [executionId|]; [rewrite Hid|];
    (cbn [fst snd]);
    (rewrite buildExecutionPayload_with_input by (done || by left));
    (cbn [entity trace]; rewrite Hactivators; cbv zeta; fold start);
    (match goal with
       | |- context [executeManually deps ?p ?u ?a ?b ?w] =>
           manual_cases deps p u a b w
       end);
    (cbn [fmap option_fmap option_map List.map p_startNodes p_destinationNode
            p_triggerToStartFrom p_runData p_dirtyNodeNames p_agentRequest entity
            pinData set_pinData trace trigger_name]);
    (destruct (selectPinnedActivatorStarter_after_injection deps workflow start
                   [ {| json := input |} ]
                   (if Js.truthy (o_destinationNode options)
                    then o_destinationNode options else None)
                   Hperm Hnode Hactivator Hunpinned) as (a & Hsel & Hname));
    (cbv zeta in Hsel; rewrite Hsel; cbn beta iota);
    (rewrite Hname, String.eqb_refl);
    (cbn [negb isNone andb fst snd entity trace]);
    (assert (match (if Js.truthy (o_destinationNode options)
                      then o_destinationNode options else None) with
               | Some dest =>
                   if Js.truthy (if Js.truthy (o_destinationNode options)
                                 then o_destinationNode options else None)
                      && isDestinationNodeATrigger deps dest
                           (set_pinData workflow
                              (Some (<[name start := [ {| json := input |} ]]>
                                       (default ∅ (pinData workflow)))))
                   then @None IRunData else None
               | None => None
               end = None) as ->
         by (destruct (if Js.truthy (o_destinationNode options)
                       then o_destinationNode options else None);
             [by destruct (_ && _) | done]));
    (cbn [negb]; rewrite ?Hname);
    (match goal with
       | |- context [workflowRunner_run deps ?d] => exists d
       end);
    (destruct (workflowRunner_run deps _); cbn [fst snd entity trace];
         rewrite <- !app_assoc; cbn [app]; rewrite events_since_app; done).
Qed.


Lemma executeWorkflow_with_input_witness :
  let d := Sample.deps Sample.webhookAndManual true (Returned tt) in
  let result :=
    executeWorkflow d "wf-1" (Some [("a", JNumber 1)]) Sample.noOptions Sample.user
      (Sample.world Sample.blank) in
  ∃ data,
    events_since (Sample.world Sample.blank) (snd result)
    = [Log Debug "Executing workflow via public API";
       Log Debug "Building payload: Full execution with input data";
       Log Debug "Selected start node";
       Log Debug "Execution payload built";
       Run data;
       Log Debug "Workflow execution started"]
    ∧ fst result = Returned {| res_executionId := Some "exec-1"; res_status := None |}
    ∧ d_startNodes data = Some [ {| start_name := "M"; sourceData := None |} ]
    ∧ d_pinData data = Some {[ "M" := [ {| json := [("a", JNumber 1)] |} ] ]}.
Proof.
  intros d result.
  destruct (executeWorkflow_with_input d "wf-1" Sample.webhookAndManual
              [("a", JNumber 1)] Sample.noOptions Sample.user
              (Sample.world Sample.blank) Sample.webhook [Sample.manual])
    as (data & Hevents & Hresult & Hstart & _ & Hpins & _).
  - intros l. apply short_array_sort_perm.
  - reflexivity.
  - reflexivity.
  - reflexivity.
  - reflexivity.
  - intros n Hn. cbn in Hn.
    apply elem_of_cons in Hn as [->|Hn]; [by vm_compute|].
    apply list_elem_of_singleton in Hn as ->. by vm_compute.
  - exists data. split; [exact Hevents|]. split; [exact Hresult|].
    split; [exact Hstart|]. rewrite Hpins. cbn. by rewrite insert_empty.
Defined.

(** ** More on the error workflow *)

Lemma last_filter_split (P : INode → bool) (before after : list INode) (x : INode) :
  P x = true → (∀ n, n ∈ after → P n = false) →
  last (List.filter P (before ++ x :: after)) = Some x.
Proof.
  intros Hx Hafter. rewrite List.filter_app. simpl. rewrite Hx.
  replace (List.filter P after) with (@nil INode).
  - by rewrite last_snoc.
  - symmetry. induction after as [|n after IH]; [done|].
    simpl. rewrite (Hafter n) by left. apply IH. intros m Hm. apply Hafter. by right.
Qed.

(** The node index holds nodes of the workflow only. *)
Lemma index_node_values (ns : list INode) (index : list (string * INode))
    (kv : string * INode) :
  kv ∈ fold_left index_node ns index → kv ∈ index ∨ snd kv ∈ ns.
Proof.
  revert index. induction ns as [|n ns IH]; intros index Hin; [by left|].
  cbn [fold_left] in Hin. apply IH in Hin as [Hin|Hin]; [|right; by right].
  unfold index_node in Hin.
  destruct (existsb (λ kv, String.eqb (fst kv) (name n)) index).
  - apply list_elem_of_fmap in Hin as (old & -> & Hold).
    destruct (String.eqb (fst old) (name n)); [right; by left | by left].
  - apply elem_of_app in Hin as [Hin|Hin]; [by left|].
    apply list_elem_of_singleton in Hin as ->. right. by left.
Qed.

Lemma Workflow_nodes_values (inst : Workflow) (n : INode) :
  n ∈ Js.values (Workflow_nodes inst) → n ∈ w_nodes inst.
Proof.
  unfold Js.values. intros (k & _ & Hget)%list_elem_of_omap.
  unfold Js.get in Hget.
  destruct (find _ (Workflow_nodes inst)) as [[k' n']|] eqn:Hfind; [|done].
  injection Hget as <-. apply find_some in Hfind as [Hin _].
  apply list_elem_of_In, index_node_values in Hin as [Hin|Hin]; [|done].
  by apply elem_of_nil in Hin.
Qed.



(** X19.  When the policy checker accepts the call, the error workflow is
    run from the last node of the configured error trigger type in the
    order of the keys of its node index: the names that are array indices
    first, in ascending numeric order, then the other names in the order
    of the workflow's nodes.  The checker was asked about the error
    workflow with the id of the failing workflow and its last executed node
    as found in the error workflow; the workflow runner is handed one run
    in mode error, on the stored workflow, for the running project, whose
    execution stack holds that node alone with the failure report as its
    input item; the parent execution is attached when the report has it; no
    execution record is written.  A value the runner throws is handed to
    the error reporter, and logged when its message can be read. *)
Theorem executeErrorWorkflow_dispatch (deps : Deps) (workflowId : string)
    (workflowErrorData : IWorkflowErrorData) (runningProject : Project)
    (w : World) (workflowData : IWorkflowBase)
    (before after : list string) (startName : string) (startNode : INode) :
  let workflowInstance :=
    new_Workflow (Some workflowId) (Some (wf_name workflowData)) workflowData in
  let failedNode := lastNodeExecuted workflowInstance workflowErrorData in
  workflowRepository_findOneBy deps workflowId = Returned (Some workflowData) →
  subworkflowPolicyChecker_check deps workflowInstance
    (ew_id (workflow workflowErrorData)) failedNode = Returned tt →
  Js.keys (Workflow_nodes workflowInstance) = before ++ startName :: after →
  Js.get (Workflow_nodes workflowInstance) startName = Some startNode →
  type startNode = errorTriggerType deps →
  (∀ k n, k ∈ after → Js.get (Workflow_nodes workflowInstance) k = Some n →
          type n ≠ errorTriggerType deps) →
  let result :=
    executeErrorWorkflow deps workflowId workflowErrorData runningProject w in
  ∃ data entry,
    events_since w (snd result)
    = PolicyCheck workflowInstance (ew_id (workflow workflowErrorData)) failedNode
      :: Run data
      :: match workflowRunner_run deps data with
         | Returned _ => []
         | Thrown e =>
             ReportError e
             :: match read_message e with
                | Returned text =>
                    [Log Error
                       ("Calling Error Workflow for " +:+ quote
                        +:+ Js.show (ew_id (workflow workflowErrorData)) +:+ quote
                        +:+ ": " +:+ quote +:+ Js.show text +:+ quote)]
                | Thrown _ => []
                end
         end
    ∧ d_executionMode data = "error"
    ∧ d_workflowData data = workflowData
    ∧ d_projectId data = Some (project_id runningProject)
    ∧ d_startNodes data = None ∧ d_pinData data = None
    ∧ (∃ executionData,
         d_executionData data = Some executionData
         ∧ nodeExecutionStack executionData = Some [entry]
         ∧ resultData_runData executionData = Some ∅)
    ∧ ed_node entry = startNode
    ∧ ed_json entry = workflowErrorData
    ∧ (execution workflowErrorData = None → ed_parentExecution entry = None)
    ∧ (∀ ex executionId parentId,
         execution workflowErrorData = Some ex →
         ee_id ex = Some executionId → executionId ≠ EmptyString →
         ew_id (workflow workflowErrorData) = Some parentId →
         parentId ≠ EmptyString →
         ed_parentExecution entry
         = Some {| pe_executionId := executionId; pe_workflowId := parentId |}).
Proof.
  intros workflowInstance failedNode Hload Hpolicy Hkeys Hget Htype Hafter result.
  subst result. unfold executeErrorWorkflow. run_M. rewrite Hload. cbn beta iota.
  fold workflowInstance. fold failedNode. rewrite Hpolicy. cbn beta iota.
  assert (last (List.filter (λ node, String.eqb (type node) (errorTriggerType deps))
                  (Js.values (Workflow_nodes workflowInstance))) = Some startNode)
    as ->.
  { unfold Js.values. rewrite Hkeys, omap_app. cbn [omap list_omap]. rewrite Hget.
    apply last_filter_split.
    - rewrite Htype. apply String.eqb_refl.
    - intros n (k & Hk & Hn)%list_elem_of_omap. apply String.eqb_neq.
      by apply (Hafter k). }
  cbn beta iota. cbn [entity trace].
  match goal with
  | |- context [workflowRunner_run deps ?d] => exists d
  end.
  eexists.
  split.
  { destruct (workflowRunner_run deps _) as [id|e]; cbn beta iota;
      cbn [snd entity trace]; rewrite <- ?app_assoc;
      [by rewrite events_since_app|].
    destruct (read_message e); cbn beta iota; cbn [snd entity trace];
      rewrite <- ?app_assoc; by rewrite events_since_app. }
  cbn [d_executionMode d_workflowData d_projectId d_startNodes d_pinData
       d_executionData].
  do 5 (split; [reflexivity|]).
  split; [eexists; split; [reflexivity|]; split; reflexivity|].
  cbn [ed_node ed_json ed_parentExecution].
  split; [reflexivity|]. split; [reflexivity|]. split.
  - by intros ->.
  - intros ex executionId parentId -> Hid Hne -> Hpne. rewrite Hid.
    by rewrite !truthy_nonempty.
Qed.

Lemma executeErrorWorkflow_dispatch_witness :
  let d := Sample.deps Sample.numberedErrorTriggers false (Returned tt) in
  let result :=
    executeErrorWorkflow d "wf-1" Sample.failure Sample.project
      (Sample.world Sample.blank) in
  List.map name (nodes Sample.numberedErrorTriggers) = ["On error"; "10"; "2"]
  ∧ ∃ data entry,
      Run data ∈ events_since (Sample.world Sample.blank) (snd result)
      ∧ d_executionMode data = "error"
      ∧ ed_node entry = Sample.errorTrigger
      ∧ ed_parentExecution entry
        = Some {| pe_executionId := "231"; pe_workflowId := "wf-0" |}.
Proof.
  intros d result. split; [reflexivity|].
  destruct (executeErrorWorkflow_dispatch d "wf-1" Sample.failure Sample.project
              (Sample.world Sample.blank) Sample.numberedErrorTriggers
              ["2"; "10"] [] "On error" Sample.errorTrigger)
    as (data & entry & Hevents & Hmode & _ & _ & _ & _ & _ & Hnode & _ & _ & Hparent).
  - reflexivity.
  - reflexivity.
  - by vm_compute.
  - by vm_compute.
  - reflexivity.
  - intros k n Hk. by apply elem_of_nil in Hk.
  - exists data, entry. fold result in Hevents. split.
    + rewrite Hevents. right. left.
    + split; [exact Hmode|]. split; [exact Hnode|].
      apply (Hparent {| ee_id := Some "231"; ee_lastNodeExecuted := Some "HTTP";
                        ee_message := "boom" |} "231" "wf-0");
        (reflexivity || discriminate).
Defined.

(** X20.  When the policy checker accepts the call but the error workflow
    has no node of the configured error trigger type, the invoker logs an
    error naming that type and both workflows, and neither the workflow
    runner nor the execution store is called. *)
Theorem executeErrorWorkflow_without_error_trigger (deps : Deps)
    (workflowId : string) (workflowErrorData : IWorkflowErrorData)
    (runningProject : Project) (w : World) (workflowData : IWorkflowBase) :
  let workflowInstance :=
    new_Workflow (Some workflowId) (Some (wf_name workflowData)) workflowData in
  let failedNode := lastNodeExecuted workflowInstance workflowErrorData in
  workflowRepository_findOneBy deps workflowId = Returned (Some workflowData) →
  subworkflowPolicyChecker_check deps workflowInstance
    (ew_id (workflow workflowErrorData)) failedNode = Returned tt →
  (∀ n, n ∈ nodes workflowData → type n ≠ errorTriggerType deps) →
  events_since w
    (snd (executeErrorWorkflow deps workflowId workflowErrorData runningProject w))
  = [PolicyCheck workflowInstance (ew_id (workflow workflowErrorData)) failedNode;
     Log Error
       ("Calling Error Workflow for " +:+ quote
        +:+ Js.show (ew_id (workflow workflowErrorData)) +:+ quote
        +:+ ". Could not find " +:+ quote +:+ errorTriggerType deps +:+ quote
        +:+ " in workflow " +:+ quote +:+ workflowId +:+ quote)].
Proof.
  intros workflowInstance failedNode Hload Hpolicy Hnone.
  unfold executeErrorWorkflow. run_M. rewrite Hload. cbn beta iota.
  fold workflowInstance. fold failedNode. rewrite Hpolicy. cbn beta iota.
  assert (List.filter (λ node, String.eqb (type node) (errorTriggerType deps))
            (Js.values (Workflow_nodes workflowInstance)) = []) as ->.
  { pose proof (Workflow_nodes_values workflowInstance) as Hvalues.
    induction (Js.values (Workflow_nodes workflowInstance)) as [|n ns IH]; [done|].
    simpl. rewrite (proj2 (String.eqb_neq _ _) (Hnone n (Hvalues n ltac:(left)))).
    apply IH. intros m Hm. apply Hvalues. by right. }
  cbn [last]. cbn beta iota. cbn [snd entity trace].
  rewrite <- app_assoc. by rewrite events_since_app.
Qed.

Lemma executeErrorWorkflow_without_error_trigger_witness :
  let d := Sample.deps Sample.noActivators false (Returned tt) in
  ∃ checked,
    events_since (Sample.world Sample.blank)
      (snd (executeErrorWorkflow d "wf-1" Sample.failure Sample.project
              (Sample.world Sample.blank)))
    = [checked;
       Log Error
         ("Calling Error Workflow for " +:+ quote +:+ "wf-0" +:+ quote
          +:+ ". Could not find " +:+ quote +:+ "n8n-nodes-base.errorTrigger"
          +:+ quote +:+ " in workflow " +:+ quote +:+ "wf-1" +:+ quote)].
Proof.
  intros d. eexists.
  apply (executeErrorWorkflow_without_error_trigger d "wf-1" Sample.failure
           Sample.project (Sample.world Sample.blank) Sample.noActivators).
  - reflexivity.
  - reflexivity.
  - intros n Hn. apply list_elem_of_singleton in Hn. by subst n.
Defined.


